(** * Viewport Back presets (Cinema 4D scripts): a shallow embedding

    The repository holds two variants of one script:
    - [BgPresets.py]: multi-delete, apply needs exactly one selected
      preset, aspect-lock workaround, delayed second apply via a timer;
    - [ViewportBack/ViewportBack_Presets.py]: single delete, plain apply.

    Python values are embedded as an inductive type of JSON-shaped values,
    exceptions as an explicit outcome, the dialog object and the host
    application (viewport parameters, preference file, status line, timer)
    as one state record threaded through every operation.

    Finite Python floats are embedded as the rationals that they are
    ([Q]): the binary rounding of float arithmetic and of the conversions
    to float (to the nearest double, ties to even) and the decimal
    rounding done by the ['g'] presentation type are both modelled
    exactly; the non-finite floats (inf, nan) and the negative zero have
    no counterpart. *)

From Stdlib Require Import ZArith QArith Qabs String Ascii List Lia Lqa.
From stdpp Require Import base gmap sets list strings sorting.

Open Scope Z_scope.

(** * Decimal presentation of numbers *)

Module PyNum.

(** ** Digit lists (most significant digit first) *)

Fixpoint digits_of (k : nat) (n : Z) : list Z :=
  match k with
  | O => []
  | S k' => digits_of k' (n / 10) ++ [n mod 10]
  end.

Definition digits_val (l : list Z) : Z :=
  fold_left (fun acc d => 10 * acc + d) l 0.

(** Number of decimal digits of a natural number (1 for 0). *)
Fixpoint ndigits_fuel (fuel : nat) (n : Z) : nat :=
  match fuel with
  | O => 1%nat
  | S f => if n <? 10 then 1%nat else S (ndigits_fuel f (n / 10))
  end.

Definition ndigits (n : Z) : nat := ndigits_fuel (Z.to_nat (Z.log2 n)) n.

Fixpoint strip_leading_zeros (l : list Z) : list Z :=
  match l with
  | 0 :: l' => strip_leading_zeros l'
  | _ => l
  end.

Definition strip_trailing_zeros (l : list Z) : list Z :=
  rev (strip_leading_zeros (rev l)).

Definition ascii_of_digit (d : Z) : ascii := ascii_of_N (Z.to_N (48 + d)).

Definition is_digit (c : ascii) : bool :=
  let n := Z.of_N (N_of_ascii c) in (48 <=? n) && (n <=? 57).

Definition digit_of_ascii (c : ascii) : Z := Z.of_N (N_of_ascii c) - 48.

Definition render_digits (l : list Z) : list ascii := map ascii_of_digit l.

(** ** Rounding a rational to six significant decimal digits *)

(** [log10_up n d k]: the largest [k' >= k] with [d * 10^k' <= n],
    given [d * 10^k <= n]. *)
Fixpoint log10_up (fuel : nat) (n d k : Z) : Z :=
  match fuel with
  | O => k
  | S f => if d * 10 ^ (k + 1) <=? n then log10_up f n d (k + 1) else k
  end.

(** [log10_down n d k]: the smallest [k' >= k] with [d <= n * 10^k'],
    given [n * 10^(k-1) < d]. *)
Fixpoint log10_down (fuel : nat) (n d k : Z) : Z :=
  match fuel with
  | O => k
  | S f => if d <=? n * 10 ^ k then k else log10_down f n d (k + 1)
  end.

(** Decimal exponent of the positive rational [n/d]:
    the [X] with [10^X <= n/d < 10^(X+1)]. *)
Definition floor_log10 (n d : Z) : Z :=
  if d <=? n
  then log10_up (S (Z.to_nat (Z.log2 n))) n d 0
  else - log10_down (Z.to_nat (Z.log2 d) + 2) n d 1.

(** Nearest integer to [n/d], ties to even. *)
Definition round_half_even (n d : Z) : Z :=
  let q := n / d in
  let r := n mod d in
  match 2 * r ?= d with
  | Lt => q
  | Gt => q + 1
  | Eq => if Z.even q then q else q + 1
  end.

(** A non-zero number rounded to six significant digits:
    sign, six-digit mantissa [m] in [10^5, 10^6), and decimal exponent
    [X] of the leading digit; the value is [m * 10^(X-5)]. *)
Record sig6 := Sig6 { s_neg : bool; s_mant : Z; s_exp : Z }.

Definition round6 (x : Q) : option sig6 :=
  let n := Z.abs (Qnum x) in
  let d := Zpos (Qden x) in
  if n =? 0 then None
  else
    let X := floor_log10 n d in
    let m := if 0 <=? 5 - X
             then round_half_even (n * 10 ^ (5 - X)) d
             else round_half_even n (d * 10 ^ (X - 5)) in
    Some (if m =? 10 ^ 6
          then Sig6 (Qnum x <? 0) (10 ^ 5) (X + 1)
          else Sig6 (Qnum x <? 0) m X).

(** [M * 10^e] as a rational. *)
Definition scale10 (M e : Z) : Q :=
  if 0 <=? e then inject_Z (M * 10 ^ e)
  else Qmake M (Z.to_pos (10 ^ (- e))).

Definition sig6_value (s : sig6) : Q :=
  scale10 ((if s_neg s then -1 else 1) * s_mant s) (s_exp s - 5).

Definition round6_value (x : Q) : Q :=
  match round6 x with
  | None => 0
  | Some s => sig6_value s
  end.

(** ** Binary floating point *)

(** A Python [float] is an IEEE 754 double; it is represented by the
    rational number that it is.  The results of arithmetic and of
    conversions are rounded to the nearest double, ties to even. *)

(** Binary exponent of the positive rational [n/d]: the [e] with
    [2^e <= n/d < 2^(e+1)]. *)
Definition floor_log2 (n d : Z) : Z :=
  let a := Z.log2 n - Z.log2 d in
  if (if 0 <=? a then d * 2 ^ a <=? n else d <=? n * 2 ^ (- a))
  then a else a - 1.

(** [k * 2^e] as a rational in lowest terms. *)
Definition scale2 (k e : Z) : Q :=
  Qred (if 0 <=? e then inject_Z (k * 2 ^ e)
        else Qmake k (Z.to_pos (2 ^ (- e)))).

(** The double nearest to a rational: 53 significant bits, the spacing
    of the subnormal numbers below [2^-1022].  The exponent is not bounded
    above: a number beyond the largest double, which rounds to an infinity
    in Python, is rounded to 53 bits here and stands for that infinity
    (integers beyond the range are refused where Python refuses them, see
    [fits_double]). *)
Definition to_double (x : Q) : Q :=
  let n := Z.abs (Qnum x) in
  let d := Zpos (Qden x) in
  if n =? 0 then 0%Q
  else
    let e := Z.max (floor_log2 n d) (-1022) in
    let k := if 0 <=? 52 - e
             then round_half_even (n * 2 ^ (52 - e)) d
             else round_half_even n (d * 2 ^ (e - 52)) in
    scale2 ((if Qnum x <? 0 then -1 else 1) * k) (e - 52).

(** The integers that convert to a double: those that do not round to
    [2^1024]; [float(n)] and [format(n, 'g')] raise [OverflowError] on the
    others. *)
Definition fits_double (n : Z) : bool := Z.abs n <? 2 ^ 1024 - 2 ^ 970.

(** ** A decimal numeral: sign, integer digits, fraction digits, exponent *)

Record numeral := Numeral {
  nm_neg : bool;
  nm_int : list Z;
  nm_frac : list Z;
  nm_exp : option Z
}.

(** The exponent is written with a sign and at least two digits. *)
Definition render_exp (e : Z) : list ascii :=
  let a := Z.abs e in
  "e"%char :: (if e <? 0 then "-"%char else "+"%char)
    :: render_digits (digits_of (Nat.max 2 (ndigits a)) a).

Definition render_numeral (n : numeral) : list ascii :=
  (if nm_neg n then ["-"%char] else [])
  ++ render_digits (nm_int n)
  ++ (match nm_frac n with
      | [] => []
      | f => "."%char :: render_digits f
      end)
  ++ (match nm_exp n with
      | None => []
      | Some e => render_exp e
      end).

Definition numeral_value (n : numeral) : Q :=
  let M := digits_val (nm_int n ++ nm_frac n) in
  let e := match nm_exp n with Some e => e | None => 0 end in
  scale10 ((if nm_neg n then -1 else 1) * M)
          (e - Z.of_nat (length (nm_frac n))).

(** The ['g'] presentation with the default precision 6: scientific
    notation when the exponent is below -4 or at least 6, fixed notation
    otherwise; insignificant trailing zeros and a dangling point are
    removed. *)
Definition numeral_g (s : sig6) : numeral :=
  let D := digits_of 6 (s_mant s) in
  let X := s_exp s in
  if (X <? -4) || (6 <=? X) then
    Numeral (s_neg s) (take 1 D) (strip_trailing_zeros (drop 1 D)) (Some X)
  else if 0 <=? X then
    Numeral (s_neg s) (take (Z.to_nat (X + 1)) D)
            (strip_trailing_zeros (drop (Z.to_nat (X + 1)) D)) None
  else
    Numeral (s_neg s) [0]
            (repeat 0 (Z.to_nat (- X - 1)) ++ strip_trailing_zeros D) None.

(** [format(x, 'g')] *)
Definition fmt_g (x : Q) : string :=
  match round6 x with
  | None => "0"
  | Some s => string_of_list_ascii (render_numeral (numeral_g s))
  end.

(** ** Reading a decimal numeral: [float(s)] on a string *)

Fixpoint take_digits (l : list ascii) : list Z * list ascii :=
  match l with
  | c :: l' =>
      if is_digit c
      then let '(ds, rest) := take_digits l' in (digit_of_ascii c :: ds, rest)
      else ([], l)
  | [] => ([], [])
  end.

Definition take_sign (l : list ascii) : bool * list ascii :=
  match l with
  | c :: l' =>
      if Ascii.eqb c "-" then (true, l')
      else if Ascii.eqb c "+" then (false, l')
      else (false, l)
  | [] => (false, [])
  end.

Definition take_frac (l : list ascii) : list Z * list ascii :=
  match l with
  | c :: l' => if Ascii.eqb c "." then take_digits l' else ([], l)
  | [] => ([], [])
  end.

(** [Some None]: no exponent part; [Some (Some e)]: exponent [e];
    [None]: malformed exponent or trailing characters. *)
Definition take_exp (l : list ascii) : option (option Z) :=
  match l with
  | [] => Some None
  | c :: l' =>
      if Ascii.eqb c "e" || Ascii.eqb c "E" then
        let '(neg, l1) := take_sign l' in
        match take_digits l1 with
        | (d :: ds, []) =>
            Some (Some ((if neg then -1 else 1) * digits_val (d :: ds)))
        | _ => None
        end
      else None
  end.

Definition parse_numeral (l : list ascii) : option numeral :=
  let '(neg, l1) := take_sign l in
  let '(ip, l2) := take_digits l1 in
  let '(fp, l3) := take_frac l2 in
  match ip, fp with
  | [], [] => None
  | _, _ =>
      match take_exp l3 with
      | Some e => Some (Numeral neg ip fp e)
      | None => None
      end
  end.

Definition is_space (c : ascii) : bool :=
  let n := N_of_ascii c in
  (N.eqb n 32 || (N.leb 9 n && N.leb n 13))%N.

Fixpoint lstrip (l : list ascii) : list ascii :=
  match l with
  | c :: l' => if is_space c then lstrip l' else l
  | [] => []
  end.

Definition strip (l : list ascii) : list ascii := rev (lstrip (rev (lstrip l))).

(** The number that a string [s] denotes for [float(s)], before it is
    rounded to a double: [None] stands for [ValueError].  The grammar is
    Python's decimal float literal between optional white space;
    digit-group underscores and the names of the non-finite floats are not
    covered. *)
Definition float_of_string (s : string) : option Q :=
  match parse_numeral (strip (list_ascii_of_string s)) with
  | Some n => Some (numeral_value n)
  | None => None
  end.

(** [str(n)] for an integer. *)
Definition str_of_Z (n : Z) : string :=
  let a := Z.abs n in
  string_of_list_ascii
    ((if n <? 0 then ["-"%char] else []) ++ render_digits (digits_of (ndigits a) a)).

End PyNum.

(** * Python values, exceptions and builtins *)

Module Py.

Inductive exn :=
| TypeError | ValueError | AttributeError | IndexError | JSONDecodeError
| OverflowError
| OSError (msg : string).

(** [str(e)]: the text of an operating-system error. *)
Definition exn_str (e : exn) : string :=
  match e with
  | OSError msg => msg
  | _ => ""
  end.

Inductive res (A : Type) :=
| Ok (a : A)
| Raise (e : exn).
Arguments Ok {A} a.
Arguments Raise {A} e.

(** The values that [json.load] produces and [json.dump] accepts.  A dict
    is an association list in insertion order, with string keys.  A float
    is a finite double, given by its value (the infinities and the
    not-a-number are not covered). *)
#[warnings="-register-all"]
Inductive pyval :=
| VNone
| VBool (b : bool)
| VInt (n : Z)
| VFloat (q : Q)
| VStr (s : string)
| VList (l : list pyval)
| VDict (d : list (string * pyval)).

(** Truth value of an object, as tested by [if], [not], [or] and [bool()]. *)
Definition truth (v : pyval) : bool :=
  match v with
  | VNone => false
  | VBool b => b
  | VInt n => negb (n =? 0)
  | VFloat q => negb (Qnum q =? 0)
  | VStr s => negb (String.eqb s "")
  | VList l => match l with [] => false | _ => true end
  | VDict d => match d with [] => false | _ => true end
  end.

Definition py_or (a b : pyval) : pyval := if truth a then a else b.

Fixpoint assoc {A} (k : string) (d : list (string * A)) : option A :=
  match d with
  | [] => None
  | (k', v) :: d' => if String.eqb k k' then Some v else assoc k d'
  end.

(** [it.get(key, default)]: only a dict has the method. *)
Definition get (it : pyval) (key : string) (default : pyval) : res pyval :=
  match it with
  | VDict d => Ok (match assoc key d with Some v => v | None => default end)
  | _ => Raise AttributeError
  end.

(** [table.get(key, default)] on a module-level table with string keys:
    lists and dicts are unhashable, other non-strings are simply absent. *)
Definition table_get {A} (table : list (string * A)) (key : pyval) (default : A)
  : res A :=
  match key with
  | VStr s => Ok (match assoc s table with Some v => v | None => default end)
  | VList _ | VDict _ => Raise TypeError
  | _ => Ok default
  end.

(** [float(v)]: an integer and the number that a string denotes are
    rounded to the nearest double; an integer beyond the range of the
    doubles raises [OverflowError]. *)
Definition float (v : pyval) : res Q :=
  match v with
  | VBool b => Ok (if b then 1 else 0)%Q
  | VInt n => if PyNum.fits_double n
              then Ok (PyNum.to_double (inject_Z n))
              else Raise OverflowError
  | VFloat q => Ok q
  | VStr s => match PyNum.float_of_string s with
              | Some q => Ok (PyNum.to_double q)
              | None => Raise ValueError
              end
  | VNone | VList _ | VDict _ => Raise TypeError
  end.

(** [format(v, 'g')]: numbers only; an integer is converted to a float
    first. *)
Definition format_g (v : pyval) : res string :=
  match v with
  | VBool b => Ok (PyNum.fmt_g (if b then 1 else 0)%Q)
  | VInt n => if PyNum.fits_double n
              then Ok (PyNum.fmt_g (PyNum.to_double (inject_Z n)))
              else Raise OverflowError
  | VFloat q => Ok (PyNum.fmt_g q)
  | VStr _ => Raise ValueError
  | VNone | VList _ | VDict _ => Raise TypeError
  end.

(** [dict(v)]: a new dict with the same bindings.  No operation of the
    scripts updates a dict in place, so the copy is the dict's value.
    (A sequence of key/value pairs converts as well in Python; it is
    rejected here.) *)
Definition dict (v : pyval) : res pyval :=
  match v with
  | VDict d => Ok (VDict d)
  | _ => Raise TypeError
  end.

(** [min(a, b)] and [max(a, b)] return the first argument unless the second
    is strictly smaller (larger). *)
Definition min (a b : Q) : Q := if Qlt_le_dec b a then b else a.
Definition max (a b : Q) : Q := if Qlt_le_dec a b then b else a.

(** [l[i]] with Python's negative indices. *)
Definition index {A} (l : list A) (i : Z) : res A :=
  let n := Z.of_nat (length l) in
  let j := if i <? 0 then i + n else i in
  if (0 <=? j) && (j <? n)
  then match l !! Z.to_nat j with Some x => Ok x | None => Raise IndexError end
  else Raise IndexError.

(** [l.pop(i)] for [0 <= i < len(l)]: the list without position [i]. *)
Definition pop {A} (l : list A) (i : Z) : list A := delete (Z.to_nat i) l.

(** [l.pop(i)] for any [i], with Python's negative indices: the list
    without the position, or [IndexError]. *)
Definition pop_at {A} (l : list A) (i : Z) : res (list A) :=
  let n := Z.of_nat (length l) in
  let j := if i <? 0 then i + n else i in
  if (0 <=? j) && (j <? n) then Ok (delete (Z.to_nat j) l) else Raise IndexError.

(** [os.path.basename] (posixpath): what follows the last slash. *)
Fixpoint basename_aux (cur : list ascii) (l : list ascii) : list ascii :=
  match l with
  | [] => cur
  | c :: l' => if Ascii.eqb c "/" then basename_aux l' l' else basename_aux cur l'
  end.

Definition basename (p : pyval) : res pyval :=
  match p with
  | VStr s =>
      let l := list_ascii_of_string s in
      Ok (VStr (string_of_list_ascii (basename_aux l l)))
  | _ => Raise TypeError
  end.

Section Str.
(** [repr] of floats, lists and dicts is left to the interpreter. *)
Variable repr : pyval -> string.

(** [str(v)], as used by a replacement field without format spec. *)
Definition str (v : pyval) : string :=
  match v with
  | VStr s => s
  | VInt n => PyNum.str_of_Z n
  | VBool b => if b then "True" else "False"
  | VNone => "None"
  | _ => repr v
  end.
End Str.

End Py.

(** * The host application *)

Module c4d.
Import Py.

(** Modelled from the spec: the integer codes of the host's enumerations
    (module [c4d] is not part of the repository).  Only their being
    pairwise distinct within one enumeration matters. *)
Definition BASEDRAW_DATA_BACKIMAGEMODE_NEAREST : Z := 0.
Definition BASEDRAW_DATA_BACKIMAGEMODE_LINEAR : Z := 1.
Definition BASEDRAW_ALPHA_NONE : Z := 0.
Definition BASEDRAW_ALPHA_NORMAL : Z := 1.
Definition BASEDRAW_ALPHA_INVERTED : Z := 2.
Definition SELECTION_NEW : Z := 0.
Definition SELECTION_ADD : Z := 1.
Definition SELECTION_SUB : Z := 2.

(** The viewport background parameters the scripts read or write. *)
Inductive param :=
| BASEDRAW_DATA_SHOWPICTURE
| BASEDRAW_DATA_PICTURE
| BASEDRAW_DATA_BACKIMAGEMODE
| BASEDRAW_DATA_KEEP_ASPECT
| BASEDRAW_DATA_OFFSETX
| BASEDRAW_DATA_OFFSETY
| BASEDRAW_DATA_PICTURE_ROTATION
| BASEDRAW_DATA_SIZEX
| BASEDRAW_DATA_SIZEY
| BASEDRAW_DATA_PICTURE_TRANSPARENCY
| BASEDRAW_DATA_PICTURE_USEALPHA.

(** The parameter container of a viewport ([BaseDraw]).  Every parameter
    has a fixed type; storing a value of another type is refused by the
    host with a [TypeError]. *)
Record BaseDraw := mkBaseDraw {
  showpicture : bool;
  picture : string;
  backimagemode : Z;
  keep_aspect : bool;
  offsetx : Q;
  offsety : Q;
  picture_rotation : Q;
  sizex : Q;
  sizey : Q;
  picture_transparency : Q;
  picture_usealpha : Z
}.

(** [bd[p]] *)
Definition bd_get (p : param) (b : BaseDraw) : pyval :=
  match p with
  | BASEDRAW_DATA_SHOWPICTURE => VBool (showpicture b)
  | BASEDRAW_DATA_PICTURE => VStr (picture b)
  | BASEDRAW_DATA_BACKIMAGEMODE => VInt (backimagemode b)
  | BASEDRAW_DATA_KEEP_ASPECT => VBool (keep_aspect b)
  | BASEDRAW_DATA_OFFSETX => VFloat (offsetx b)
  | BASEDRAW_DATA_OFFSETY => VFloat (offsety b)
  | BASEDRAW_DATA_PICTURE_ROTATION => VFloat (picture_rotation b)
  | BASEDRAW_DATA_SIZEX => VFloat (sizex b)
  | BASEDRAW_DATA_SIZEY => VFloat (sizey b)
  | BASEDRAW_DATA_PICTURE_TRANSPARENCY => VFloat (picture_transparency b)
  | BASEDRAW_DATA_PICTURE_USEALPHA => VInt (picture_usealpha b)
  end.

(** [bd[p] = v].  While the aspect lock is engaged, writing one of the
    two sizes makes the host adjust the other one.  What the host makes of
    it is its own business: [adjust p x b] is the other size after [x] was
    written to the size [p] of the viewport [b], for any function
    [adjust].  A write that leaves the size as it is leaves the other size
    as well. *)
Definition bd_set (adjust : param -> Q -> BaseDraw -> Q)
    (p : param) (v : pyval) (b : BaseDraw) : res BaseDraw :=
  let '(mkBaseDraw sp pic mode keep ox oy rot sx sy tr al) := b in
  match p, v with
  | BASEDRAW_DATA_SHOWPICTURE, VBool x =>
      Ok (mkBaseDraw x pic mode keep ox oy rot sx sy tr al)
  | BASEDRAW_DATA_PICTURE, VStr x =>
      Ok (mkBaseDraw sp x mode keep ox oy rot sx sy tr al)
  | BASEDRAW_DATA_BACKIMAGEMODE, VInt x =>
      Ok (mkBaseDraw sp pic x keep ox oy rot sx sy tr al)
  | BASEDRAW_DATA_KEEP_ASPECT, VBool x =>
      Ok (mkBaseDraw sp pic mode x ox oy rot sx sy tr al)
  | BASEDRAW_DATA_OFFSETX, VFloat x =>
      Ok (mkBaseDraw sp pic mode keep x oy rot sx sy tr al)
  | BASEDRAW_DATA_OFFSETY, VFloat x =>
      Ok (mkBaseDraw sp pic mode keep ox x rot sx sy tr al)
  | BASEDRAW_DATA_PICTURE_ROTATION, VFloat x =>
      Ok (mkBaseDraw sp pic mode keep ox oy x sx sy tr al)
  | BASEDRAW_DATA_SIZEX, VFloat x =>
      Ok (mkBaseDraw sp pic mode keep ox oy rot x
            (if keep && negb (Qeq_bool x sx)
             then adjust BASEDRAW_DATA_SIZEX x b else sy)
            tr al)
  | BASEDRAW_DATA_SIZEY, VFloat x =>
      Ok (mkBaseDraw sp pic mode keep ox oy rot
            (if keep && negb (Qeq_bool x sy)
             then adjust BASEDRAW_DATA_SIZEY x b else sx)
            x tr al)
  | BASEDRAW_DATA_PICTURE_TRANSPARENCY, VFloat x =>
      Ok (mkBaseDraw sp pic mode keep ox oy rot sx sy x al)
  | BASEDRAW_DATA_PICTURE_USEALPHA, VInt x =>
      Ok (mkBaseDraw sp pic mode keep ox oy rot sx sy tr x)
  | _, _ => Raise TypeError
  end.

(** A host that keeps the ratio of the two sizes (one that keeps the
    other size as it is when the written size was 0). *)
Definition keep_ratio (p : param) (x : Q) (b : BaseDraw) : Q :=
  match p with
  | BASEDRAW_DATA_SIZEX =>
      if Qeq_bool (sizex b) 0 then sizey b else (sizey b * (x / sizex b))%Q
  | _ =>
      if Qeq_bool (sizey b) 0 then sizex b else (sizex b * (x / sizey b))%Q
  end.

(** The preference file, as [open] and [json.load] see it.  A file holding
    a JSON document is represented by the value the document denotes:
    [json.dump] followed by [json.load] is the identity on [pyval]. *)
Inductive disk :=
| NoFile
| Denied
| NotJson (text : string)
| Json (v : pyval).

(** What the scripts do to the host, in order. *)
Inductive event :=
| EvSet (p : param) (v : pyval)
| EvEventAdd
| EvStatusSetText (s : string)
| EvMessageDialog (s : string)
| EvSetTimer (ms : Z)
| EvTreeRefresh
| EvGeUpdateUI
| EvFileWrite (v : pyval).

End c4d.

(** * State of the host and of the dialog object; the effect monad *)

Module Run.
Import Py c4d.

Record St := mkSt {
  (** host: the active document's active viewport, if any, and what the
      host makes of the other size when a size is written under an
      engaged aspect lock *)
  active_bd : option BaseDraw;
  aspect_adjust : param -> Q -> BaseDraw -> Q;
  (** host: the preference file, and the error that opening it for
      writing meets, if any *)
  prefs_file : disk;
  open_w_error : option string;
  (** host: everything done to it so far, oldest first *)
  trace : list event;
  (** dialog: [self.model.items], [self.model.sel], [self.tree] (created or
      not), [self.pending_apply], [self.timer_armed] *)
  items : list pyval;
  sel : gset Z;
  tree : bool;
  pending_apply : pyval;
  timer_armed : bool
}.

Definition set_active_bd (b : option BaseDraw) (s : St) : St :=
  mkSt b (aspect_adjust s) (prefs_file s) (open_w_error s) (trace s)
       (items s) (sel s) (tree s) (pending_apply s) (timer_armed s).
Definition set_prefs_file (f : disk) (s : St) : St :=
  mkSt (active_bd s) (aspect_adjust s) f (open_w_error s) (trace s)
       (items s) (sel s) (tree s) (pending_apply s) (timer_armed s).
Definition set_trace (t : list event) (s : St) : St :=
  mkSt (active_bd s) (aspect_adjust s) (prefs_file s) (open_w_error s) t
       (items s) (sel s) (tree s) (pending_apply s) (timer_armed s).
Definition set_items (l : list pyval) (s : St) : St :=
  mkSt (active_bd s) (aspect_adjust s) (prefs_file s) (open_w_error s) (trace s)
       l (sel s) (tree s) (pending_apply s) (timer_armed s).
Definition set_sel (x : gset Z) (s : St) : St :=
  mkSt (active_bd s) (aspect_adjust s) (prefs_file s) (open_w_error s) (trace s)
       (items s) x (tree s) (pending_apply s) (timer_armed s).
Definition set_tree (b : bool) (s : St) : St :=
  mkSt (active_bd s) (aspect_adjust s) (prefs_file s) (open_w_error s) (trace s)
       (items s) (sel s) b (pending_apply s) (timer_armed s).
Definition set_pending_apply (v : pyval) (s : St) : St :=
  mkSt (active_bd s) (aspect_adjust s) (prefs_file s) (open_w_error s) (trace s)
       (items s) (sel s) (tree s) v (timer_armed s).
Definition set_timer_armed (b : bool) (s : St) : St :=
  mkSt (active_bd s) (aspect_adjust s) (prefs_file s) (open_w_error s) (trace s)
       (items s) (sel s) (tree s) (pending_apply s) b.

(** A computation returns a value or raises, and leaves a state behind in
    both cases. *)
Definition M (A : Type) : Type := St -> res A * St.

Definition ret {A} (a : A) : M A := fun s => (Ok a, s).
Definition raise {A} (e : exn) : M A := fun s => (Raise e, s).
Definition lift {A} (r : res A) : M A := fun s => (r, s).
Definition bind {A B} (m : M A) (k : A -> M B) : M B :=
  fun s =>
    match m s with
    | (Ok a, s') => k a s'
    | (Raise e, s') => (Raise e, s')
    end.
(** [try: m except Exception as e: h e] *)
Definition try_except {A} (m : M A) (h : exn -> M A) : M A :=
  fun s =>
    match m s with
    | (Ok a, s') => (Ok a, s')
    | (Raise e, s') => h e s'
    end.
Definition gets {A} (f : St -> A) : M A := fun s => (Ok (f s), s).
Definition modify (f : St -> St) : M unit := fun s => (Ok tt, f s).
Definition emit (e : event) : M unit :=
  modify (fun s => set_trace (trace s ++ [e]) s).

Declare Scope run_scope.
Delimit Scope run_scope with run.
Notation "'let*' x ':=' m 'in' k" := (bind m (fun x => k))
  (at level 10, x pattern, m at level 100, k at level 200) : run_scope.
Notation "m ';;' k" := (bind m (fun _ => k))
  (at level 100, k at level 200, right associativity) : run_scope.

(** Final state and outcome of a computation. *)
Definition state_after {A} (m : M A) (s : St) : St := snd (m s).
Definition outcome {A} (m : M A) (s : St) : res A := fst (m s).

(** [bd[p] = v] on the active viewport. *)
Definition set_param (p : param) (v : pyval) : M unit :=
  fun s =>
    match active_bd s with
    | Some b =>
        match bd_set (aspect_adjust s) p v b with
        | Ok b' =>
            (Ok tt, set_trace (trace s ++ [EvSet p v]) (set_active_bd (Some b') s))
        | Raise e => (Raise e, s)
        end
    | None => (Raise TypeError, s)
    end.

(** The viewport writes among the events of a trace. *)
Definition is_set (e : event) : bool :=
  match e with EvSet _ _ => true | _ => false end.
Definition writes (t : list event) : list event := List.filter is_set t.

(** The timer calls among the events of a trace. *)
Definition is_timer (e : event) : bool :=
  match e with EvSetTimer _ => true | _ => false end.
Definition timer_calls (t : list event) : list event := List.filter is_timer t.

End Run.

(** * [BgPresets.py] *)

Module BgPresets.
Import Py c4d Run.
Local Open Scope run_scope.

Definition IDC_TREE : Z := 1000.
Definition IDC_ADD : Z := 1001.
Definition IDC_DEL : Z := 1002.
Definition IDC_APPLY : Z := 1003.

(** ** enums <-> text *)

Definition _MODE_FROM_TXT : list (string * Z) :=
  [("Nearest"%string, BASEDRAW_DATA_BACKIMAGEMODE_NEAREST);
   ("Linear"%string, BASEDRAW_DATA_BACKIMAGEMODE_LINEAR)].

Definition _ALPHA_FROM_TXT : list (string * Z) :=
  [("None"%string, BASEDRAW_ALPHA_NONE);
   ("Normal"%string, BASEDRAW_ALPHA_NORMAL);
   ("Inverted"%string, BASEDRAW_ALPHA_INVERTED)].

(** [{v: k for k, v in table.items()}]: a later item replaces an earlier
    one with the same code. *)
Fixpoint code_set (c : Z) (t : string) (d : list (Z * string)) : list (Z * string) :=
  match d with
  | [] => [(c, t)]
  | (c', t') :: d' => if c =? c' then (c, t) :: d' else (c', t') :: code_set c t d'
  end.

Definition invert (table : list (string * Z)) : list (Z * string) :=
  fold_left (fun d kv => code_set (snd kv) (fst kv) d) table [].

Fixpoint code_get (d : list (Z * string)) (c : Z) (default : string) : string :=
  match d with
  | [] => default
  | (c', t) :: d' => if c =? c' then t else code_get d' c default
  end.

Definition _MODE_TO_TXT : list (Z * string) := invert _MODE_FROM_TXT.
Definition _ALPHA_TO_TXT : list (Z * string) := invert _ALPHA_FROM_TXT.

(** ** paths & JSON *)

Definition open_r : M disk :=
  fun s =>
    match prefs_file s with
    | NoFile => (Raise (OSError "No such file or directory"), s)
    | Denied => (Raise (OSError "Permission denied"), s)
    | f => (Ok f, s)
    end.

Definition json_load (f : disk) : M pyval :=
  match f with
  | Json v => ret v
  | _ => raise JSONDecodeError
  end.

Definition _read_json : M (list pyval) :=
  try_except
    (let* f := open_r in
     let* data := json_load f in
     ret (match data with VList l => l | _ => [] end))
    (fun _ => ret []).

Definition open_w : M unit :=
  fun s =>
    match open_w_error s with
    | Some msg => (Raise (OSError msg), s)
    | None => (Ok tt, s)
    end.

Definition json_dump (v : pyval) : M unit :=
  modify (fun s => set_trace (trace s ++ [EvFileWrite v]) (set_prefs_file (Json v) s)).

Definition _write_json (items : list pyval) : M unit :=
  try_except
    (open_w ;; json_dump (VList items))
    (fun e => emit (EvStatusSetText ("Could not save presets: " ++ exn_str e))).

(** ** helpers *)

Definition _active_bd : M (option BaseDraw) := gets active_bd.

Definition _safe_float (s : pyval) : Q :=
  match float s with
  | Ok q => q
  | Raise _ => 0%Q
  end.

Definition _transp_to_api (v : pyval) : Q :=
  let f := _safe_float v in
  if Qlt_le_dec 1 f then PyNum.to_double (f / 100) else f.

Definition _transp_to_txt (f : Q) : string :=
  PyNum.fmt_g (PyNum.to_double (Py.max 0 (Py.min 1 f) * 100)).

Section Fmt.
Variable repr : pyval -> string.

Definition _fmt_item_for_list (it : pyval) : res string :=
  match get it "image" (VStr "") with Raise e => Raise e | Ok image =>
  match basename image with Raise e => Raise e | Ok b =>
  let base := py_or b (VStr "(no image)") in
  match get it "mode" (VStr "Linear") with Raise e => Raise e | Ok mode =>
  match get it "alpha" (VStr "None") with Raise e => Raise e | Ok alpha =>
  match get it "sizeX" (VInt 0) with Raise e => Raise e | Ok sx =>
  match get it "sizeY" (VInt 0) with Raise e => Raise e | Ok sy =>
  match get it "offX" (VInt 0) with Raise e => Raise e | Ok ox =>
  match get it "offY" (VInt 0) with Raise e => Raise e | Ok oy =>
  match get it "rot" (VInt 0) with Raise e => Raise e | Ok rot =>
  match get it "transp" (VInt 0) with Raise e => Raise e | Ok tr =>
  match format_g sx with Raise e => Raise e | Ok sx_g =>
  match format_g sy with Raise e => Raise e | Ok sy_g =>
  match format_g ox with Raise e => Raise e | Ok ox_g =>
  match format_g oy with Raise e => Raise e | Ok oy_g =>
  match format_g rot with Raise e => Raise e | Ok rot_g =>
  Ok (str repr base ++ " | " ++ str repr mode ++ "/" ++ str repr alpha
      ++ " | " ++ sx_g ++ "×" ++ sy_g
      ++ " | off=" ++ ox_g ++ "," ++ oy_g
      ++ " | rot=" ++ rot_g ++ "°"
      ++ " | tr=" ++ str repr tr ++ "%")%string
  end end end end end end end end end end end end end end end.
End Fmt.

(** ** BaseDraw I/O *)

Definition _grab_current_dict : M pyval :=
  let* bd := _active_bd in
  match bd with
  | None => ret VNone
  | Some bd =>
      ret (VDict
        [("image", py_or (bd_get BASEDRAW_DATA_PICTURE bd) (VStr ""));
         ("mode", VStr (code_get _MODE_TO_TXT (backimagemode bd) "Linear"));
         ("keep", VInt (if keep_aspect bd then 1 else 0));
         ("offX", VFloat (offsetx bd));
         ("offY", VFloat (offsety bd));
         ("rot", VFloat (picture_rotation bd));
         ("sizeX", VFloat (sizex bd));
         ("sizeY", VFloat (sizey bd));
         ("transp", VStr (_transp_to_txt (picture_transparency bd)));
         ("alpha", VStr (code_get _ALPHA_TO_TXT (picture_usealpha bd) "None"))]%string)
  end.

(** [bd[p] = float(it.get(key, 0))] *)
Definition set_float (p : param) (it : pyval) (key : string) : M unit :=
  let* v := lift (get it key (VInt 0)) in
  let* f := lift (float v) in
  set_param p (VFloat f).

(** One application pass without the timer. *)
Definition _apply_once (it : pyval) : M bool :=
  let* bd := _active_bd in
  match bd with
  | None => ret false
  | Some _ =>
      (* temporarily detach aspect ratio so X/Y don't get locked together *)
      let* keep := lift (get it "keep" (VInt 1)) in
      let keep_saved := truth keep in
      set_param BASEDRAW_DATA_KEEP_ASPECT (VBool false) ;;
      set_param BASEDRAW_DATA_SHOWPICTURE (VBool true) ;;
      let* image := lift (get it "image" (VStr "")) in
      set_param BASEDRAW_DATA_PICTURE image ;;
      let* mode := lift (get it "mode" (VStr "Linear")) in
      let* mode_c := lift (table_get _MODE_FROM_TXT mode
                                     BASEDRAW_DATA_BACKIMAGEMODE_LINEAR) in
      set_param BASEDRAW_DATA_BACKIMAGEMODE (VInt mode_c) ;;
      set_float BASEDRAW_DATA_OFFSETX it "offX" ;;
      set_float BASEDRAW_DATA_OFFSETY it "offY" ;;
      set_float BASEDRAW_DATA_PICTURE_ROTATION it "rot" ;;
      set_float BASEDRAW_DATA_SIZEX it "sizeX" ;;
      set_float BASEDRAW_DATA_SIZEY it "sizeY" ;;
      let* transp := lift (get it "transp" (VInt 0)) in
      set_param BASEDRAW_DATA_PICTURE_TRANSPARENCY (VFloat (_transp_to_api transp)) ;;
      let* alpha := lift (get it "alpha" (VStr "None")) in
      let* alpha_c := lift (table_get _ALPHA_FROM_TXT alpha BASEDRAW_ALPHA_NONE) in
      set_param BASEDRAW_DATA_PICTURE_USEALPHA (VInt alpha_c) ;;
      (* restore as it was *)
      set_param BASEDRAW_DATA_KEEP_ASPECT (VBool keep_saved) ;;
      emit EvEventAdd ;;
      ret true
  end.

(** ** Tree model *)

Section Model.
Variable repr : pyval -> string.

(** [PresetModel.GetName] *)
Definition GetName (obj : Z) : M string :=
  let* l := gets items in
  if (0 <=? obj) && (obj <? Z.of_nat (length l))
  then let* it := lift (index l obj) in lift (_fmt_item_for_list repr it)
  else ret ""%string.
End Model.

(** [PresetModel.IsSelected] *)
Definition IsSelected (obj : Z) : M bool :=
  let* x := gets sel in ret (bool_decide (obj ∈ x)).

(** [PresetModel.Select] *)
Definition Select (obj : Z) (mode : Z) : M bool :=
  (if mode =? SELECTION_NEW then modify (set_sel {[obj]})
   else if mode =? SELECTION_ADD then modify (fun s => set_sel (sel s ∪ {[obj]}) s)
   else if mode =? SELECTION_SUB then modify (fun s => set_sel (sel s ∖ {[obj]}) s)
   else ret tt) ;;
  ret true.

(** [PresetModel.GetFirst], [GetNext], [GetPred], [GetDown], [GetId] and
    [EmptyText]: the rows of the tree are the positions of the list;
    [None] is Python's [None]. *)
Definition GetFirst : M (option Z) :=
  let* l := gets items in
  ret (match l with [] => None | _ => Some 0 end).

Definition GetNext (obj : Z) : M (option Z) :=
  let* l := gets items in
  let n := obj + 1 in
  ret (if n <? Z.of_nat (length l) then Some n else None).

Definition GetPred (obj : Z) : M (option Z) :=
  ret (if 0 <? obj then Some (obj - 1) else None).

Definition GetDown (obj : Z) : M (option Z) := ret None.

Definition GetId (obj : Z) : M Z := ret obj.

Definition EmptyText : M string := ret "No presets added"%string.

(** ** Dialog *)

Definition TIMER_DELAY_MS : Z := 20.

(** [PresetDialog.__init__], on whatever the host is. *)
Definition init (s : St) : St :=
  mkSt (active_bd s) (aspect_adjust s) (prefs_file s) (open_w_error s) (trace s)
       [] ∅ false VNone false.

Definition SetTimer (ms : Z) : M unit := emit (EvSetTimer ms).

Definition CreateLayout : M bool :=
  modify (set_tree true) ;; ret true.

Definition InitValues : M bool :=
  let* l := _read_json in
  modify (set_items l) ;;
  let* t := gets tree in
  (if t then emit EvTreeRefresh else raise AttributeError) ;;
  (* just in case: timer disabled *)
  SetTimer 0 ;;
  ret true.

(** [sorted(self.model.sel)] *)
Definition _selected_indices : M (list Z) :=
  let* x := gets sel in ret (merge_sort Z.le (elements x)).

Definition _refresh (save : bool) : M unit :=
  let* t := gets tree in
  (if t then emit EvTreeRefresh else ret tt) ;;
  emit EvGeUpdateUI ;;
  if save then let* l := gets items in _write_json l else ret tt.

(** The loop of the Delete command, on the selected indices taken from
    the highest down. *)
Definition pop_selected (l : list pyval) (rsel : list Z) : list pyval :=
  fold_left
    (fun acc idx =>
       if (0 <=? idx) && (idx <? Z.of_nat (length acc)) then pop acc idx else acc)
    rsel l.

Definition Command (wid : Z) : M bool :=
  if wid =? IDC_ADD then
    let* it := _grab_current_dict in
    if negb (truth it) then
      emit (EvMessageDialog "No active viewport or unable to read settings.") ;;
      ret true
    else
      modify (fun s => set_items (items s ++ [it]) s) ;;
      _refresh true ;;
      ret true
  else if wid =? IDC_DEL then
    let* sel := _selected_indices in
    match sel with
    | [] =>
        emit (EvStatusSetText "No preset selected.") ;;
        ret true
    | _ =>
        modify (fun s => set_items (pop_selected (items s) (rev sel)) s) ;;
        modify (set_sel ∅) ;;
        _refresh true ;;
        ret true
    end
  else if wid =? IDC_APPLY then
    let* sel := _selected_indices in
    match sel with
    | [i] =>
        let* l := gets items in
        let* item := lift (index l i) in
        (* first pass now *)
        _apply_once item ;;
        (* prepare the second apply via timer *)
        let* copy := lift (dict item) in
        modify (set_pending_apply copy) ;;
        let* armed := gets timer_armed in
        (if negb armed
         then SetTimer TIMER_DELAY_MS ;; modify (set_timer_armed true)
         else ret tt) ;;
        ret true
    | _ =>
        emit (EvStatusSetText "Select exactly one preset to apply.") ;;
        ret true
    end
  else ret false.

(** Called after [TIMER_DELAY_MS] following Apply: performs the re-apply
    and disables the timer. *)
Definition Timer : M unit :=
  let* armed := gets timer_armed in
  if negb armed then ret tt
  else
    let* p := gets pending_apply in
    (if truth p
     then _apply_once p ;; modify (set_pending_apply VNone)
     else ret tt) ;;
    (* disable the timer so it doesn't tick constantly *)
    SetTimer 0 ;;
    modify (set_timer_armed false) ;;
    (* refresh viewport/GUI *)
    emit EvEventAdd.

End BgPresets.

(** * [ViewportBack/ViewportBack_Presets.py] *)

(** The tables [_MODE_FROM_TXT] and [_ALPHA_FROM_TXT] and the helpers
    [_safe_float], [_transp_to_api], [_transp_to_txt] are the same text in
    both files and are taken from [BgPresets] (the literal of
    [_ALPHA_FROM_TXT] lacks its closing brace in this file; it is read as
    in the other one). *)

Module ViewportBack_Presets.
Import Py c4d Run.
Local Open Scope run_scope.

(** [os.path.isfile(p)] *)
Definition isfile : M bool :=
  let* f := gets prefs_file in
  ret (match f with NoFile => false | _ => true end).

Definition _read_json : M (list pyval) :=
  let* present := isfile in
  if negb present then ret []
  else
    try_except
      (let* f := BgPresets.open_r in
       let* data := BgPresets.json_load f in
       ret (match data with VList l => l | _ => [] end))
      (fun _ => ret []).

Definition _apply_dict_to_viewport (it : pyval) : M bool :=
  let* bd := BgPresets._active_bd in
  match bd with
  | None => ret false
  | Some _ =>
      set_param BASEDRAW_DATA_SHOWPICTURE (VBool true) ;;
      let* image := lift (get it "image" (VStr "")) in
      set_param BASEDRAW_DATA_PICTURE image ;;
      let* mode := lift (get it "mode" (VStr "Linear")) in
      let* mode_c := lift (table_get BgPresets._MODE_FROM_TXT mode
                                     BASEDRAW_DATA_BACKIMAGEMODE_LINEAR) in
      set_param BASEDRAW_DATA_BACKIMAGEMODE (VInt mode_c) ;;
      let* keep := lift (get it "keep" (VInt 1)) in
      set_param BASEDRAW_DATA_KEEP_ASPECT (VBool (truth keep)) ;;
      BgPresets.set_float BASEDRAW_DATA_OFFSETX it "offX" ;;
      BgPresets.set_float BASEDRAW_DATA_OFFSETY it "offY" ;;
      BgPresets.set_float BASEDRAW_DATA_PICTURE_ROTATION it "rot" ;;
      BgPresets.set_float BASEDRAW_DATA_SIZEX it "sizeX" ;;
      BgPresets.set_float BASEDRAW_DATA_SIZEY it "sizeY" ;;
      let* transp := lift (get it "transp" (VInt 0)) in
      set_param BASEDRAW_DATA_PICTURE_TRANSPARENCY
                (VFloat (BgPresets._transp_to_api transp)) ;;
      let* alpha := lift (get it "alpha" (VStr "None")) in
      let* alpha_c := lift (table_get BgPresets._ALPHA_FROM_TXT alpha
                                      BASEDRAW_ALPHA_NONE) in
      set_param BASEDRAW_DATA_PICTURE_USEALPHA (VInt alpha_c) ;;
      emit EvEventAdd ;;
      ret true
  end.

Definition _write_json (items : list pyval) : M unit :=
  try_except
    (BgPresets.open_w ;; BgPresets.json_dump (VList items))
    (fun e => emit (EvStatusSetText
                      ("Не удалось сохранить пресеты: " ++ exn_str e))).

Section Fmt.
Variable repr : pyval -> string.

Definition _fmt_item_for_list (it : pyval) : res string :=
  match get it "image" (VStr "") with Raise e => Raise e | Ok image =>
  match basename image with Raise e => Raise e | Ok b =>
  let base := py_or b (VStr "(no image)") in
  match get it "mode" (VStr "Linear") with Raise e => Raise e | Ok mode =>
  match get it "alpha" (VStr "None") with Raise e => Raise e | Ok alpha =>
  match get it "sizeX" (VInt 0) with Raise e => Raise e | Ok sx =>
  match get it "sizeY" (VInt 0) with Raise e => Raise e | Ok sy =>
  match get it "offX" (VInt 0) with Raise e => Raise e | Ok ox =>
  match get it "offY" (VInt 0) with Raise e => Raise e | Ok oy =>
  match get it "rot" (VInt 0) with Raise e => Raise e | Ok rot =>
  match get it "transp" (VInt 0) with Raise e => Raise e | Ok tr =>
  match format_g sx with Raise e => Raise e | Ok sx_g =>
  match format_g sy with Raise e => Raise e | Ok sy_g =>
  match format_g ox with Raise e => Raise e | Ok ox_g =>
  match format_g oy with Raise e => Raise e | Ok oy_g =>
  match format_g rot with Raise e => Raise e | Ok rot_g =>
  Ok (str repr base ++ "  |  " ++ str repr mode ++ "/" ++ str repr alpha
      ++ "  |  size=" ++ sx_g ++ "×" ++ sy_g
      ++ "  |  off=" ++ ox_g ++ "," ++ oy_g
      ++ "  |  rot=" ++ rot_g ++ "°"
      ++ "  |  tr=" ++ str repr tr ++ "%")%string
  end end end end end end end end end end end end end end end.
End Fmt.

(** ** Dialog *)

(** The widget ids, [_active_bd] and [_grab_current_dict] are the same in
    both files and are taken from [BgPresets] as well. *)

Section Dialog.
(** The element that iterating over a non-empty set yields first; the
    order is the interpreter's. *)
Variable first_of : gset Z -> Z.

(** [next(iter(self.model.sel)) if self.model.sel else None] *)
Definition _selected_index : M (option Z) :=
  let* x := gets sel in
  ret (if decide (x = ∅) then None else Some (first_of x)).

Definition _refresh (save : bool) : M unit :=
  let* t := gets tree in
  (if t then emit EvTreeRefresh else ret tt) ;;
  emit EvGeUpdateUI ;;
  if save then let* l := gets items in _write_json l else ret tt.

Definition Command (wid : Z) : M bool :=
  if wid =? BgPresets.IDC_ADD then
    let* it := BgPresets._grab_current_dict in
    if negb (truth it) then
      emit (EvMessageDialog
              "Нет активного вьюпорта или не удалось прочитать параметры.") ;;
      ret true
    else
      modify (fun s => set_items (items s ++ [it]) s) ;;
      _refresh true ;;
      ret true
  else if wid =? BgPresets.IDC_DEL then
    let* idx := _selected_index in
    match idx with
    | None =>
        emit (EvStatusSetText "Не выбран пресет.") ;;
        ret true
    | Some idx =>
        let* l := gets items in
        let* l' := lift (pop_at l idx) in
        modify (set_items l') ;;
        modify (set_sel ∅) ;;
        _refresh true ;;
        ret true
    end
  else if wid =? BgPresets.IDC_APPLY then
    let* idx := _selected_index in
    match idx with
    | None =>
        emit (EvStatusSetText "Не выбран пресет.") ;;
        ret true
    | Some idx =>
        let* l := gets items in
        let* item := lift (index l idx) in
        let* ok := _apply_dict_to_viewport item in
        (if negb ok
         then emit (EvMessageDialog "Не удалось применить пресет.")
         else ret tt) ;;
        ret true
    end
  else ret false.
End Dialog.

End ViewportBack_Presets.

(** * Notions used to state the properties *)

Import Py c4d Run.

(** A viewport with a hidden picture and an engaged aspect lock, the record
    that is captured from it, and a state of the host and dialog around
    it. *)
Definition example_bd : BaseDraw :=
  mkBaseDraw false "/tmp/a.png" 1 true 0 0 0 16 9 (1 # 4) 0.

Definition example_record : pyval :=
  VDict [("image", VStr "/tmp/a.png"); ("mode", VStr "Linear");
         ("keep", VInt 1); ("offX", VFloat 0); ("offY", VFloat 0);
         ("rot", VFloat 0); ("sizeX", VFloat 16); ("sizeY", VFloat 9);
         ("transp", VStr "25"); ("alpha", VStr "None")]%string.

Definition example_state : St :=
  mkSt (Some example_bd) keep_ratio NoFile None [] [] ∅ true VNone false.

(** The records at the positions that satisfy [P] removed, the others in
    their order; [i] is the position of the head of the list. *)
Fixpoint keep_from (P : Z -> bool) (i : Z) (l : list pyval) : list pyval :=
  match l with
  | [] => []
  | x :: l' => if P i then keep_from P (i + 1) l' else x :: keep_from P (i + 1) l'
  end.

(** The list without the records at the selected positions. *)
Definition unselected (X : gset Z) (l : list pyval) : list pyval :=
  keep_from (fun i => bool_decide (i ∈ X)) 0 l.

(** One turn of the loop of the Delete command. *)
Definition pop_guarded (acc : list pyval) (idx : Z) : list pyval :=
  if (0 <=? idx) && (idx <? Z.of_nat (length acc)) then pop acc idx else acc.

(** [d.get(key, default)] on the bindings of a dict. *)
Definition getd (d : list (string * pyval)) (key : string) (default : pyval) : pyval :=
  match assoc key d with
  | Some v => v
  | None => default
  end.

(** The viewport parameters that a record asks for, when every value of
    it converts; the conversions are tried in the order of the script. *)
Definition target (d : list (string * pyval)) : res BaseDraw :=
  match getd d "image" (VStr "") with
  | VStr image =>
    match table_get BgPresets._MODE_FROM_TXT (getd d "mode" (VStr "Linear"))
                    BASEDRAW_DATA_BACKIMAGEMODE_LINEAR with Raise e => Raise e | Ok mode =>
    match float (getd d "offX" (VInt 0)) with Raise e => Raise e | Ok ox =>
    match float (getd d "offY" (VInt 0)) with Raise e => Raise e | Ok oy =>
    match float (getd d "rot" (VInt 0)) with Raise e => Raise e | Ok rot =>
    match float (getd d "sizeX" (VInt 0)) with Raise e => Raise e | Ok sx =>
    match float (getd d "sizeY" (VInt 0)) with Raise e => Raise e | Ok sy =>
    match table_get BgPresets._ALPHA_FROM_TXT (getd d "alpha" (VStr "None"))
                    BASEDRAW_ALPHA_NONE with Raise e => Raise e | Ok alpha =>
    Ok (mkBaseDraw true image mode (truth (getd d "keep" (VInt 1)))
                   ox oy rot sx sy
                   (BgPresets._transp_to_api (getd d "transp" (VInt 0))) alpha)
    end end end end end end end
  | _ => Raise TypeError
  end.

(** What a completed pass of [_apply_once] does to the host. *)
Definition pass_events (t : BaseDraw) : list event :=
  [EvSet BASEDRAW_DATA_KEEP_ASPECT (VBool false);
   EvSet BASEDRAW_DATA_SHOWPICTURE (VBool true);
   EvSet BASEDRAW_DATA_PICTURE (VStr (picture t));
   EvSet BASEDRAW_DATA_BACKIMAGEMODE (VInt (backimagemode t));
   EvSet BASEDRAW_DATA_OFFSETX (VFloat (offsetx t));
   EvSet BASEDRAW_DATA_OFFSETY (VFloat (offsety t));
   EvSet BASEDRAW_DATA_PICTURE_ROTATION (VFloat (picture_rotation t));
   EvSet BASEDRAW_DATA_SIZEX (VFloat (sizex t));
   EvSet BASEDRAW_DATA_SIZEY (VFloat (sizey t));
   EvSet BASEDRAW_DATA_PICTURE_TRANSPARENCY (VFloat (picture_transparency t));
   EvSet BASEDRAW_DATA_PICTURE_USEALPHA (VInt (picture_usealpha t));
   EvSet BASEDRAW_DATA_KEEP_ASPECT (VBool (keep_aspect t));
   EvEventAdd].

(** What a completed pass of [_apply_dict_to_viewport] does to the host. *)
Definition plain_pass_events (t : BaseDraw) : list event :=
  [EvSet BASEDRAW_DATA_SHOWPICTURE (VBool true);
   EvSet BASEDRAW_DATA_PICTURE (VStr (picture t));
   EvSet BASEDRAW_DATA_BACKIMAGEMODE (VInt (backimagemode t));
   EvSet BASEDRAW_DATA_KEEP_ASPECT (VBool (keep_aspect t));
   EvSet BASEDRAW_DATA_OFFSETX (VFloat (offsetx t));
   EvSet BASEDRAW_DATA_OFFSETY (VFloat (offsety t));
   EvSet BASEDRAW_DATA_PICTURE_ROTATION (VFloat (picture_rotation t));
   EvSet BASEDRAW_DATA_SIZEX (VFloat (sizex t));
   EvSet BASEDRAW_DATA_SIZEY (VFloat (sizey t));
   EvSet BASEDRAW_DATA_PICTURE_TRANSPARENCY (VFloat (picture_transparency t));
   EvSet BASEDRAW_DATA_PICTURE_USEALPHA (VInt (picture_usealpha t));
   EvEventAdd].

(** The viewport that a completed pass of [_apply_dict_to_viewport]
    leaves, on the viewport [b], of a record that asks for [t].  The pass
    writes the lock before the sizes: when the record engages the lock,
    the host adjusts the second size at the write of the first, and the
    first size at the write of the second, which is the last of the two.
    The other parameters are those asked for. *)
Definition plain_result (adjust : param -> Q -> BaseDraw -> Q) (b t : BaseDraw)
  : BaseDraw :=
  let b1 := mkBaseDraw true (picture t) (backimagemode t) (keep_aspect t)
                       (offsetx t) (offsety t) (picture_rotation t)
                       (sizex b) (sizey b)
                       (picture_transparency b) (picture_usealpha b) in
  let sy1 := if keep_aspect t && negb (Qeq_bool (sizex t) (sizex b))
             then adjust BASEDRAW_DATA_SIZEX (sizex t) b1 else sizey b in
  let b2 := mkBaseDraw true (picture t) (backimagemode t) (keep_aspect t)
                       (offsetx t) (offsety t) (picture_rotation t)
                       (sizex t) sy1
                       (picture_transparency b) (picture_usealpha b) in
  let sx2 := if keep_aspect t && negb (Qeq_bool (sizey t) sy1)
             then adjust BASEDRAW_DATA_SIZEY (sizey t) b2 else sizex t in
  mkBaseDraw true (picture t) (backimagemode t) (keep_aspect t)
             (offsetx t) (offsety t) (picture_rotation t)
             sx2 (sizey t)
             (picture_transparency t) (picture_usealpha t).

(** The state in which an interrupted pass leaves the host: the first
    writes [pre] were made, then some more; the picture is shown. *)
Definition interrupted (pre : list event) (s s' : St) : Prop :=
  exists evs b',
    s' = set_trace (trace s ++ pre ++ evs) (set_active_bd (Some b') s)
    /\ showpicture b' = true.



(** A six-digit rounding of a percentage between 1 and 100. *)
Definition pct_sig (m X : Z) : Prop :=
  10 ^ 5 <= m < 10 ^ 6 /\ (X = 0 \/ X = 1 \/ (X = 2 /\ m = 10 ^ 5)).

(** A decimal digit. *)
Definition is_dec (d : Z) : Prop := 0 <= d <= 9.

(** [max(0.0, min(1.0, f))] *)
Definition clamp (f : Q) : Q := Py.max 0 (Py.min 1 f).

(** The transparency string of the record that a capture returns. *)
Definition captured_transp (s : St) : option pyval :=
  match outcome BgPresets._grab_current_dict s with
  | Ok (VDict d) => assoc "transp" d
  | _ => None
  end.

(** Capture the viewport and apply the captured record back. *)
Definition capture_apply (s : St) : res bool * St :=
  match BgPresets._grab_current_dict s with
  | (Ok it, s0) => BgPresets._apply_once it s0
  | (Raise e, s0) => (Raise e, s0)
  end.

(** A viewport with the given transparency fraction. *)
Definition viewport_with (tr : Q) : St :=
  set_active_bd (Some (mkBaseDraw true "/tmp/a.png" 1 true 0 0 0 16 9 tr 0))
                example_state.

(** What an operation on the viewport leaves alone: the list, the
    selection, the pending snapshot, the armed flag, the tree, the file and
    the timer. *)
Definition dialog_frame (s s' : St) : Prop :=
  items s' = items s /\ sel s' = sel s
  /\ pending_apply s' = pending_apply s /\ timer_armed s' = timer_armed s
  /\ tree s' = tree s /\ prefs_file s' = prefs_file s
  /\ open_w_error s' = open_w_error s
  /\ timer_calls (trace s') = timer_calls (trace s).

(** An operation that leaves all that alone, whatever its outcome. *)
Definition host_only {A} (m : M A) : Prop :=
  forall s, dialog_frame s (snd (m s)).

(** Every selected index is a position of the list. *)
Definition sel_valid (s : St) : Prop :=
  forall i, i ∈ sel s -> 0 <= i < Z.of_nat (length (items s)).

(** The interval that the host timer of the dialog runs with: that of the
    latest [SetTimer] call (0: switched off). *)
Definition host_timer (t : list event) : Z :=
  match last (timer_calls t) with
  | Some (EvSetTimer ms) => ms
  | _ => 0
  end.

(** The armed flag mirrors the host timer, and a snapshot is pending only
    while the timer is armed. *)
Definition timer_sync (s : St) : Prop :=
  host_timer (trace s) = (if timer_armed s then BgPresets.TIMER_DELAY_MS else 0)
  /\ (truth (pending_apply s) = true -> timer_armed s = true).

(** Opening the dialog: [__init__], [CreateLayout], [InitValues]. *)
Definition open_dialog (s : St) : res bool * St :=
  BgPresets.InitValues
    (state_after BgPresets.CreateLayout (BgPresets.init s)).

(** The rows met from [cur] on by following [GetNext], at most [fuel] of
    them. *)
Fixpoint walk (fuel : nat) (cur : option Z) (s : St) : list Z :=
  match fuel, cur with
  | S fuel', Some i =>
      i :: walk fuel'
             (match outcome (BgPresets.GetNext i) s with
              | Ok next => next
              | Raise _ => None
              end) s
  | _, _ => []
  end.

(** What the host asks of an open dialog: a widget of the dialog, a tick
    of its timer, a click on a row of the tree. *)
Inductive request : Type :=
  | Press (wid : Z)
  | Tick
  | Pick (obj mode : Z).

(** The state in which the dialog leaves a request, completed or not. *)
Definition serve (r : request) (s : St) : St :=
  match r with
  | Press wid => state_after (BgPresets.Command wid) s
  | Tick => state_after BgPresets.Timer s
  | Pick obj mode => state_after (BgPresets.Select obj mode) s
  end.

(** The tree offers for a click the rows that it shows: the positions of
    the list. *)
Definition offered (r : request) (s : St) : bool :=
  match r with
  | Pick obj _ => (0 <=? obj) && (obj <? Z.of_nat (length (items s)))
  | _ => true
  end.

(** A sequence of requests, served one after the other, and whether each
    of them is offered when its turn comes. *)
Fixpoint session (rs : list request) (s : St) : St :=
  match rs with
  | [] => s
  | r :: rs' => session rs' (serve r s)
  end.

Fixpoint offered_all (rs : list request) (s : St) : bool :=
  match rs with
  | [] => true
  | r :: rs' => offered r s && offered_all rs' (serve r s)
  end.

(** A value that the [g] format accepts: a number that is a float or
    converts to one. *)
Definition is_number (v : pyval) : bool :=
  match v with
  | VBool _ | VFloat _ => true
  | VInt n => PyNum.fits_double n
  | _ => false
  end.

(** The records that have a row text: the image is a string and the five
    values that are printed with [g] are numbers that the format
    accepts. *)
Definition displayable (d : list (string * pyval)) : bool :=
  match getd d "image" (VStr "") with VStr _ => true | _ => false end
  && is_number (getd d "sizeX" (VInt 0))
  && is_number (getd d "sizeY" (VInt 0))
  && is_number (getd d "offX" (VInt 0))
  && is_number (getd d "offY" (VInt 0))
  && is_number (getd d "rot" (VInt 0)).

(** The items of the list that have a row text. *)
Definition shown_ok (it : pyval) : bool :=
  match it with
  | VDict d => displayable d
  | _ => false
  end.

(** The first row of the tree, if any. *)
Definition first_row (s : St) : option Z :=
  match outcome BgPresets.GetFirst s with
  | Ok r => r
  | Raise _ => None
  end.

(** * Properties *)

(** ** The selection as a sorted list *)

Section Selection.
Implicit Types (X : gset Z) (l : list pyval).

Lemma sorted_elements_length X :
  length (merge_sort Z.le (elements X)) = size X.
Proof.
  unfold size, set_size. simpl.
  apply Permutation_length, merge_sort_Permutation.
Qed.

Lemma sorted_elements_nil X :
  merge_sort Z.le (elements X) = [] -> X = ∅.
Proof.
  intros H. apply (f_equal length) in H.
  rewrite sorted_elements_length in H. simpl in H.
  apply leibniz_equiv. apply size_empty_inv. exact H.
Qed.

Lemma sorted_elements_singleton (i : Z) :
  merge_sort Z.le (elements ({[i]} : gset Z)) = [i].
Proof.
  apply Permutation_singleton_r.
  by rewrite merge_sort_Permutation, elements_singleton.
Qed.
End Selection.

(** ** Persistence *)

Section Persistence.
Import BgPresets.

Lemma write_json_ok (l : list pyval) (s : St) :
  open_w_error s = None ->
  _write_json l s
  = (Ok tt, set_trace (trace s ++ [EvFileWrite (VList l)])
                      (set_prefs_file (Json (VList l)) s)).
Proof.
  intros H. unfold _write_json, try_except, bind, open_w. by rewrite H.
Qed.

Lemma write_json_never_raises (l : list pyval) (s : St) :
  outcome (_write_json l) s = Ok tt.
Proof.
  unfold outcome, _write_json, try_except, bind, open_w.
  by destruct (open_w_error s).
Qed.
End Persistence.

(** C2.  Saving the one-element list [[R]] and loading it again returns
    [[R]]: the record read back is [R] itself, so it agrees with [R] on the
    ten keys image, mode, keep, offX, offY, rot, sizeX, sizeY, transp and
    alpha (and on any other).  The premise is that the preference file can
    be opened for writing; [save] and [load] are those of either variant
    (the two [_write_json] differ in the language of the status message
    only). *)
Theorem save_load_roundtrip (R : pyval) (s : St) :
  open_w_error s = None ->
  let s' := state_after (BgPresets._write_json [R]) s in
  outcome (BgPresets._write_json [R]) s = Ok tt
  /\ BgPresets._read_json s' = (Ok [R], s')
  /\ ViewportBack_Presets._read_json s' = (Ok [R], s')
  /\ forall R', outcome BgPresets._read_json s' = Ok [R'] ->
       forall key default, get R' key default = get R key default.
Proof.
  intros Hw s'. subst s'. unfold state_after, outcome.
  rewrite (write_json_ok _ _ Hw). simpl.
  repeat split; try reflexivity.
  intros R' HR' key default.
  unfold BgPresets._read_json, try_except, bind in HR'. simpl in HR'.
  by inversion HR'.
Qed.

Lemma save_load_roundtrip_witness :
  open_w_error example_state = None
  /\ BgPresets._read_json
       (state_after (BgPresets._write_json [example_record]) example_state)
     = (Ok [example_record],
        state_after (BgPresets._write_json [example_record]) example_state).
Proof.
  split; [reflexivity |].
  apply (save_load_roundtrip example_record example_state). reflexivity.
Defined.

(** C5.  When the preference file does not exist, or holds text that is
    not valid JSON, or holds a JSON document whose top-level value is not
    an array, [load] returns the empty list and raises nothing, in both
    variants; it leaves the state, status line included, as it was. *)
Theorem read_json_recovers (s : St) :
  (prefs_file s = NoFile
   \/ (exists text, prefs_file s = NotJson text)
   \/ (exists v, prefs_file s = Json v /\ forall l, v <> VList l)) ->
  BgPresets._read_json s = (Ok [], s)
  /\ ViewportBack_Presets._read_json s = (Ok [], s).
Proof.
  intros Hc.
  unfold BgPresets._read_json, ViewportBack_Presets._read_json,
    ViewportBack_Presets.isfile, try_except, bind, gets, ret, BgPresets.open_r.
  destruct (prefs_file s) as [| |text|v] eqn:E;
    repeat (progress (simpl; rewrite ?E)); try done.
  destruct v; simpl; try done.
  destruct Hc as [H | [[t H] | [v [H Hv]]]]; try done.
  inversion H; subst. by destruct (Hv l).
Qed.

Lemma read_json_recovers_witness :
  BgPresets._read_json (set_prefs_file (Json (VDict [])) example_state)
  = (Ok [], set_prefs_file (Json (VDict [])) example_state)
  /\ ViewportBack_Presets._read_json (set_prefs_file (NotJson "{") example_state)
     = (Ok [], set_prefs_file (NotJson "{") example_state).
Proof.
  split.
  - apply (read_json_recovers (set_prefs_file (Json (VDict [])) example_state)).
    right; right. exists (VDict []). split; [reflexivity | discriminate].
  - apply (read_json_recovers (set_prefs_file (NotJson "{") example_state)).
    right; left. by exists "{"%string.
Defined.

(** ** Commands of the dialog, one branch at a time *)

Section Commands.
Import BgPresets.

Ltac run :=
  unfold state_after, outcome, _refresh, _write_json, open_w, json_dump,
    _selected_indices, _grab_current_dict, _active_bd, SetTimer,
    try_except, bind, ret, raise, lift, gets, modify, emit.

Lemma add_frame (s : St) :
  let s' := state_after (Command IDC_ADD) s in
  sel s' = sel s /\ pending_apply s' = pending_apply s
  /\ timer_armed s' = timer_armed s /\ active_bd s' = active_bd s
  /\ outcome (Command IDC_ADD) s = Ok true
  /\ timer_calls (trace s') = timer_calls (trace s)
  /\ writes (trace s') = writes (trace s).
Proof.
  change (Command IDC_ADD) with
    (bind _grab_current_dict (fun it =>
       if negb (truth it) then
         bind (emit (EvMessageDialog "No active viewport or unable to read settings."))
              (fun _ => ret true)
       else
         bind (modify (fun s => set_items (items s ++ [it]) s))
              (fun _ => bind (_refresh true) (fun _ => ret true)))).
  run. simpl. unfold timer_calls, writes.
  destruct (active_bd s) eqn:Eb; simpl;
    [destruct (tree s); simpl; destruct (open_w_error s); simpl |];
    rewrite ?Eb, <- ?app_assoc, ?List.filter_app; simpl; rewrite ?app_nil_r; done.
Qed.

Lemma delete_unfold (s : St) :
  Command IDC_DEL s
  = match merge_sort Z.le (elements (sel s)) with
    | [] => bind (emit (EvStatusSetText "No preset selected.")) (fun _ => ret true) s
    | i :: r =>
        bind (modify (fun s => set_items (pop_selected (items s) (rev (i :: r))) s))
             (fun _ => bind (modify (set_sel ∅))
                            (fun _ => bind (_refresh true) (fun _ => ret true))) s
    end.
Proof.
  change (Command IDC_DEL) with
    (bind _selected_indices (fun sel =>
       match sel with
       | [] => bind (emit (EvStatusSetText "No preset selected.")) (fun _ => ret true)
       | _ =>
           bind (modify (fun s => set_items (pop_selected (items s) (rev sel)) s))
                (fun _ => bind (modify (set_sel ∅))
                               (fun _ => bind (_refresh true) (fun _ => ret true)))
       end)).
  unfold _selected_indices, bind at 1, gets, ret. simpl.
  by destruct (merge_sort Z.le (elements (sel s))).
Qed.

Lemma delete_frame (s : St) :
  let s' := state_after (Command IDC_DEL) s in
  sel s' = ∅ /\ pending_apply s' = pending_apply s
  /\ timer_armed s' = timer_armed s /\ active_bd s' = active_bd s
  /\ outcome (Command IDC_DEL) s = Ok true
  /\ timer_calls (trace s') = timer_calls (trace s)
  /\ writes (trace s') = writes (trace s).
Proof.
  unfold state_after, outcome. rewrite delete_unfold. unfold timer_calls, writes.
  destruct (merge_sort Z.le (elements (sel s))) eqn:E.
  - apply sorted_elements_nil in E. run. simpl.
    rewrite E, ?List.filter_app; simpl; rewrite ?app_nil_r; done.
  - run. simpl.
    destruct (tree s); simpl; destruct (open_w_error s); simpl;
      rewrite <- ?app_assoc, ?List.filter_app; simpl; rewrite ?app_nil_r; done.
Qed.

Lemma delete_items (s : St) :
  items (state_after (Command IDC_DEL) s)
  = pop_selected (items s) (rev (merge_sort Z.le (elements (sel s)))).
Proof.
  unfold state_after. rewrite delete_unfold.
  destruct (merge_sort Z.le (elements (sel s))) eqn:E.
  - run. simpl. done.
  - run. simpl.
    destruct (tree s); simpl; destruct (open_w_error s); simpl; done.
Qed.

Lemma apply_unfold (s : St) :
  Command IDC_APPLY s
  = match merge_sort Z.le (elements (sel s)) with
    | [i] =>
        bind (gets items) (fun l =>
        bind (lift (index l i)) (fun item =>
        bind (_apply_once item) (fun _ =>
        bind (lift (dict item)) (fun copy =>
        bind (modify (set_pending_apply copy)) (fun _ =>
        bind (gets timer_armed) (fun armed =>
        bind (if negb armed
              then bind (SetTimer TIMER_DELAY_MS)
                        (fun _ => modify (set_timer_armed true))
              else ret tt) (fun _ => ret true))))))) s
    | _ =>
        bind (emit (EvStatusSetText "Select exactly one preset to apply."))
             (fun _ => ret true) s
    end.
Proof.
  change (Command IDC_APPLY) with
    (bind _selected_indices (fun sel =>
       match sel with
       | [i] =>
          bind (gets items) (fun l =>
          bind (lift (index l i)) (fun item =>
          bind (_apply_once item) (fun _ =>
          bind (lift (dict item)) (fun copy =>
          bind (modify (set_pending_apply copy)) (fun _ =>
          bind (gets timer_armed) (fun armed =>
          bind (if negb armed
                then bind (SetTimer TIMER_DELAY_MS)
                          (fun _ => modify (set_timer_armed true))
                else ret tt) (fun _ => ret true)))))))
       | _ =>
          bind (emit (EvStatusSetText "Select exactly one preset to apply."))
               (fun _ => ret true)
       end)).
  unfold _selected_indices, bind at 1, gets, ret. simpl.
  by destruct (merge_sort Z.le (elements (sel s))) as [|? [|? ?]].
Qed.
End Commands.

(** C4 (as amended).  A Delete command always leaves the selection empty,
    whatever was selected before; an Add command leaves the selection as
    it was (the new record goes to the end of the list, so the selected
    positions still denote the same records). *)
Theorem delete_clears_add_keeps_selection (s : St) :
  sel (state_after (BgPresets.Command BgPresets.IDC_DEL) s) = ∅
  /\ sel (state_after (BgPresets.Command BgPresets.IDC_ADD) s) = sel s.
Proof.
  split.
  - apply (delete_frame s).
  - apply (add_frame s).
Qed.

(** C4, counterexample: with one preset in the list and selected, a
    completed Add (the captured record is appended) leaves position 0
    selected. *)
Lemma add_clears_selection_counterexample :
  let s := set_sel {[0]} (set_items [example_record] example_state) in
  let s' := state_after (BgPresets.Command BgPresets.IDC_ADD) s in
  outcome (BgPresets.Command BgPresets.IDC_ADD) s = Ok true
  /\ items s' = [example_record; example_record]
  /\ sel s' <> ∅.
Proof.
  split; [reflexivity |]. split; [reflexivity |].
  intros H.
  destruct (add_frame (set_sel {[0]} (set_items [example_record] example_state)))
    as [Hs _].
  rewrite Hs in H. simpl in H.
  assert (Hin : (0 : Z) ∈ (∅ : gset Z)) by (rewrite <- H; set_solver).
  set_solver.
Qed.

(** C7.  When the selection holds no index or more than one, the Apply
    command writes no viewport parameter and leaves the selection, the
    list, the pending re-apply and the timer as they were: it only shows a
    status message. *)
Theorem apply_requires_singleton (s : St) :
  size (sel s) <> 1%nat ->
  BgPresets.Command BgPresets.IDC_APPLY s
  = (Ok true,
     set_trace (trace s ++ [EvStatusSetText "Select exactly one preset to apply."]) s).
Proof.
  intros Hn. rewrite apply_unfold.
  pose proof (sorted_elements_length (sel s)) as Hl.
  destruct (merge_sort Z.le (elements (sel s))) as [|i [|j r]]; try reflexivity.
  simpl in Hl. congruence.
Qed.

Lemma apply_requires_singleton_witness :
  let s := set_sel {[1; 3]} (set_items [example_record; example_record;
                                         example_record; example_record] example_state) in
  let s' := state_after (BgPresets.Command BgPresets.IDC_APPLY) s in
  active_bd s' = active_bd s /\ writes (trace s') = writes (trace s)
  /\ sel s' = sel s /\ items s' = items s.
Proof.
  intros s s'. subst s'. unfold state_after.
  rewrite (apply_requires_singleton s); [| vm_compute; discriminate].
  repeat split; reflexivity.
Defined.

(** ** Deleting the selected presets *)

Section Delete.
Implicit Types (P Q : Z -> bool) (l : list pyval) (L : list Z).

Lemma keep_from_ext P Q i l :
  (forall j, i <= j < i + Z.of_nat (length l) -> P j = Q j) ->
  keep_from P i l = keep_from Q i l.
Proof.
  revert i. induction l as [|x l IH]; intros i H; [done |].
  simpl in *. rewrite <- (H i) by lia.
  rewrite (IH (i + 1)) by (intros j Hj; apply H; lia). done.
Qed.

Lemma keep_from_length P i l : (length (keep_from P i l) <= length l)%nat.
Proof.
  revert i. induction l as [|x l IH]; intros i; simpl; [done |].
  specialize (IH (i + 1)). destruct (P i); simpl; lia.
Qed.

Lemma keep_from_delete P i l (k : nat) :
  (forall j, j <= i + Z.of_nat k -> P j = false) ->
  (k < length l)%nat ->
  (k < length (keep_from P i l))%nat
  /\ delete k (keep_from P i l)
     = keep_from (fun j => P j || (j =? i + Z.of_nat k)) i l.
Proof.
  revert i k. induction l as [|x l IH]; intros i k HP Hk; simpl in *; [lia |].
  rewrite (HP i) by lia. simpl. destruct k as [|k].
  - split; [lia |]. destruct (Z.eqb_spec i (i + Z.of_nat 0)); [| lia].
    simpl. apply keep_from_ext. intros j Hj.
    destruct (Z.eqb_spec j (i + Z.of_nat 0)); [lia |]. by rewrite orb_false_r.
  - destruct (Z.eqb_spec i (i + Z.of_nat (S k))); [lia |].
    destruct (IH (i + 1) k) as [Hlen Hdel].
    + intros j Hj. apply HP. lia.
    + lia.
    + split; [lia |]. simpl. rewrite Hdel. f_equal.
      apply keep_from_ext. intros j Hj.
      by replace (i + 1 + Z.of_nat k) with (i + Z.of_nat (S k)) by lia.
Qed.

Lemma pop_selected_fold_right l L :
  BgPresets.pop_selected l (rev L) = fold_right (fun idx acc => pop_guarded acc idx) l L.
Proof.
  unfold BgPresets.pop_selected. rewrite <- fold_left_rev_right, rev_involutive.
  done.
Qed.

Lemma pop_ascending l L :
  StronglySorted Z.lt L ->
  fold_right (fun idx acc => pop_guarded acc idx) l L
  = keep_from (fun j => bool_decide (j ∈ L)) 0 l.
Proof.
  induction 1 as [|h L HL IH Hh]; simpl.
  - symmetry. transitivity (keep_from (fun _ => false) 0 l).
    + apply keep_from_ext. intros j _.
      first [done | apply bool_decide_eq_false; set_solver].
    + generalize 0. induction l as [|x l IHl]; intros i; simpl; [done |].
      by rewrite IHl.
  - rewrite IH. unfold pop_guarded, pop.
    set (P := fun j : Z => bool_decide (j ∈ L)).
    assert (HP : forall j, j <= h -> P j = false).
    { intros j Hj. apply bool_decide_eq_false. intros Hin.
      rewrite Forall_forall in Hh. specialize (Hh j Hin). lia. }
    destruct (Z.le_gt_cases 0 h) as [H0 | H0];
      [destruct (Z.lt_ge_cases h (Z.of_nat (length l))) as [Hl | Hl] |].
    + destruct (keep_from_delete P 0 l (Z.to_nat h)) as [Hlen Hdel].
      * intros j Hj. apply HP. lia.
      * lia.
      * destruct (Z.leb_spec 0 h); [| lia].
        destruct (Z.ltb_spec h (Z.of_nat (length (keep_from P 0 l)))); [| lia].
        simpl. rewrite Hdel. apply keep_from_ext. intros j Hj. subst P. simpl.
        rewrite Z2Nat.id by lia.
        destruct (Z.eqb_spec j (0 + h)) as [-> | Hne].
        -- rewrite orb_true_r. symmetry. apply bool_decide_eq_true, elem_of_cons. by left.
        -- rewrite orb_false_r. apply bool_decide_ext. rewrite elem_of_cons. intuition lia.
    + pose proof (keep_from_length P 0 l).
      destruct (Z.ltb_spec h (Z.of_nat (length (keep_from P 0 l)))); [lia |].
      rewrite andb_false_r. apply keep_from_ext. intros j Hj. subst P. simpl.
      apply bool_decide_ext. rewrite elem_of_cons. intuition lia.
    + destruct (Z.leb_spec 0 h); [lia |]. simpl.
      apply keep_from_ext. intros j Hj. subst P. simpl.
      apply bool_decide_ext. rewrite elem_of_cons. intuition lia.
Qed.

Lemma strictly_sorted L :
  StronglySorted Z.le L -> NoDup L -> StronglySorted Z.lt L.
Proof.
  induction 1 as [|h L HL IH Hh]; intros Hnd; constructor.
  - apply IH. by apply NoDup_cons in Hnd as [_ ?].
  - apply NoDup_cons in Hnd as [Hnotin _].
    rewrite Forall_forall in *. intros j Hj.
    specialize (Hh j Hj). assert (j <> h) by (intros ->; done). lia.
Qed.

Lemma pop_selected_unselected (X : gset Z) l :
  BgPresets.pop_selected l (rev (merge_sort Z.le (elements X))) = unselected X l.
Proof.
  rewrite pop_selected_fold_right, pop_ascending.
  - apply keep_from_ext. intros j _. apply bool_decide_ext.
    rewrite merge_sort_Permutation. apply elem_of_elements.
  - apply strictly_sorted.
    + apply StronglySorted_merge_sort; apply _.
    + rewrite merge_sort_Permutation. apply NoDup_elements.
Qed.
End Delete.

(** C6.  The Delete command removes the selected positions from the
    highest down; what remains are the records at the positions that were
    not selected, in their original order, and the selection is empty
    afterwards.  On a five-element list with positions 1 and 3 selected
    the records that were at positions 0, 2 and 4 remain. *)
Theorem delete_selected_reindexing (s : St) (a b c d e : pyval) :
  let del := BgPresets.Command BgPresets.IDC_DEL in
  (items (state_after del s)
   = BgPresets.pop_selected (items s) (rev (merge_sort Z.le (elements (sel s))))
   /\ items (state_after del s) = unselected (sel s) (items s)
   /\ sel (state_after del s) = ∅)
  /\ (let s5 := set_sel {[1; 3]} (set_items [a; b; c; d; e] s) in
      items (state_after del s5) = [a; c; e] /\ sel (state_after del s5) = ∅).
Proof.
  intros del. subst del. repeat split.
  - apply delete_items.
  - rewrite delete_items. apply pop_selected_unselected.
  - apply (delete_frame s).
  - rewrite delete_items, pop_selected_unselected. reflexivity.
  - apply (delete_frame (set_sel {[1; 3]} (set_items [a; b; c; d; e] s))).
Qed.

(** ** One application pass *)

Ltac run_step x :=
  destruct x eqn:?; simpl;
  [ | solve [ split; [reflexivity | eexists _, _; split;
                [rewrite <- ?app_assoc; simpl; reflexivity | reflexivity]] ] ].

Lemma apply_once_spec (d : list (string * pyval)) (s : St) (b : BaseDraw) :
  active_bd s = Some b ->
  match target d with
  | Ok t =>
      BgPresets._apply_once (VDict d) s
      = (Ok true, set_trace (trace s ++ pass_events t) (set_active_bd (Some t) s))
  | Raise e =>
      outcome (BgPresets._apply_once (VDict d)) s = Raise e
      /\ interrupted [EvSet BASEDRAW_DATA_KEEP_ASPECT (VBool false);
                      EvSet BASEDRAW_DATA_SHOWPICTURE (VBool true)]
                     s (state_after (BgPresets._apply_once (VDict d)) s)
  end.
Proof.
  intros Hb. destruct b.
  unfold target, interrupted, outcome, state_after, BgPresets._apply_once,
    BgPresets.set_float, BgPresets._active_bd, set_param, bind, ret, lift,
    gets, emit, modify, get, getd.
  repeat (progress (simpl; rewrite ?Hb)).
  destruct (match assoc "image" d with Some v => v | None => VStr "" end) eqn:Eimg;
    simpl;
    try solve [ split; [reflexivity | eexists _, _; split;
                [rewrite <- ?app_assoc; simpl; reflexivity | reflexivity]] ].
  run_step (table_get BgPresets._MODE_FROM_TXT
              match assoc "mode" d with Some v => v | None => VStr "Linear" end
              BASEDRAW_DATA_BACKIMAGEMODE_LINEAR).
  run_step (float match assoc "offX" d with Some v => v | None => VInt 0 end).
  run_step (float match assoc "offY" d with Some v => v | None => VInt 0 end).
  run_step (float match assoc "rot" d with Some v => v | None => VInt 0 end).
  run_step (float match assoc "sizeX" d with Some v => v | None => VInt 0 end).
  run_step (float match assoc "sizeY" d with Some v => v | None => VInt 0 end).
  run_step (table_get BgPresets._ALPHA_FROM_TXT
              match assoc "alpha" d with Some v => v | None => VStr "None" end
              BASEDRAW_ALPHA_NONE).
  unfold pass_events. simpl. rewrite <- !app_assoc. reflexivity.
Qed.

Lemma plain_apply_spec (d : list (string * pyval)) (s : St) (b : BaseDraw) :
  active_bd s = Some b ->
  match target d with
  | Ok t =>
      ViewportBack_Presets._apply_dict_to_viewport (VDict d) s
      = (Ok true,
         set_trace (trace s ++ plain_pass_events t)
                   (set_active_bd (Some (plain_result (aspect_adjust s) b t)) s))
  | Raise e =>
      outcome (ViewportBack_Presets._apply_dict_to_viewport (VDict d)) s = Raise e
      /\ interrupted [EvSet BASEDRAW_DATA_SHOWPICTURE (VBool true)]
           s (state_after (ViewportBack_Presets._apply_dict_to_viewport (VDict d)) s)
  end.
Proof.
  intros Hb. destruct b.
  unfold target, interrupted, outcome, state_after,
    ViewportBack_Presets._apply_dict_to_viewport,
    BgPresets.set_float, BgPresets._active_bd, set_param, bind, ret, lift,
    gets, emit, modify, get, getd.
  repeat (progress (simpl; rewrite ?Hb)).
  destruct (match assoc "image" d with Some v => v | None => VStr "" end) eqn:Eimg;
    simpl;
    try solve [ split; [reflexivity | eexists _, _; split;
                [rewrite <- ?app_assoc; simpl; reflexivity | reflexivity]] ].
  run_step (table_get BgPresets._MODE_FROM_TXT
              match assoc "mode" d with Some v => v | None => VStr "Linear" end
              BASEDRAW_DATA_BACKIMAGEMODE_LINEAR).
  run_step (float match assoc "offX" d with Some v => v | None => VInt 0 end).
  run_step (float match assoc "offY" d with Some v => v | None => VInt 0 end).
  run_step (float match assoc "rot" d with Some v => v | None => VInt 0 end).
  run_step (float match assoc "sizeX" d with Some v => v | None => VInt 0 end).
  run_step (float match assoc "sizeY" d with Some v => v | None => VInt 0 end).
  run_step (table_get BgPresets._ALPHA_FROM_TXT
              match assoc "alpha" d with Some v => v | None => VStr "None" end
              BASEDRAW_ALPHA_NONE).
  unfold plain_pass_events. simpl. rewrite <- !app_assoc. reflexivity.
Qed.

Lemma target_shown (d : list (string * pyval)) (t : BaseDraw) :
  target d = Ok t ->
  showpicture t = true /\ keep_aspect t = truth (getd d "keep" (VInt 1)).
Proof.
  unfold target. intros H.
  repeat match type of H with
         | match ?x with _ => _ end = _ => destruct x; try discriminate
         end.
  by inversion H.
Qed.

(** C10.  On a viewport, applying a record (a dict), whatever it holds
    and whether or not the pass completes, leaves the show-picture flag
    set: the flag is written [True] before any value taken from the
    record is written (in [_apply_once] only the clearing of the aspect
    lock comes earlier; in [_apply_dict_to_viewport] it is the first
    write).  Capturing does not read the flag, so a preset captured from a
    hidden picture is the same as one captured from a shown picture. *)
Theorem apply_always_shows_picture
    (d : list (string * pyval)) (s : St) (b : BaseDraw) :
  active_bd s = Some b ->
  (exists b' evs,
      let s' := state_after (BgPresets._apply_once (VDict d)) s in
      active_bd s' = Some b' /\ showpicture b' = true
      /\ trace s' = trace s ++ [EvSet BASEDRAW_DATA_KEEP_ASPECT (VBool false);
                                EvSet BASEDRAW_DATA_SHOWPICTURE (VBool true)] ++ evs)
  /\ (exists b' evs,
      let s' := state_after (ViewportBack_Presets._apply_dict_to_viewport (VDict d)) s in
      active_bd s' = Some b' /\ showpicture b' = true
      /\ trace s' = trace s ++ [EvSet BASEDRAW_DATA_SHOWPICTURE (VBool true)] ++ evs)
  /\ (forall shown,
      outcome BgPresets._grab_current_dict s
      = outcome BgPresets._grab_current_dict
          (set_active_bd
             (Some (mkBaseDraw shown (picture b) (backimagemode b) (keep_aspect b)
                      (offsetx b) (offsety b) (picture_rotation b) (sizex b)
                      (sizey b) (picture_transparency b) (picture_usealpha b))) s)).
Proof.
  intros Hb. split; [| split].
  - pose proof (apply_once_spec d s b Hb) as H.
    destruct (target d) as [t | e] eqn:Et.
    + apply target_shown in Et as [Hshow _].
      exists t. eexists. unfold state_after. rewrite H. simpl.
      split; [reflexivity | split; [exact Hshow |]].
      unfold pass_events. reflexivity.
    + destruct H as [_ (evs & b' & -> & Hshow)].
      exists b', evs. simpl. auto.
  - pose proof (plain_apply_spec d s b Hb) as H.
    destruct (target d) as [t | e] eqn:Et.
    + eexists _, _. unfold state_after. rewrite H. simpl.
      split; [reflexivity | split; [reflexivity |]].
      unfold plain_pass_events. reflexivity.
    + destruct H as [_ (evs & b' & -> & Hshow)].
      exists b', evs. simpl. auto.
  - intros shown. unfold outcome, BgPresets._grab_current_dict,
      BgPresets._active_bd, bind, gets, ret. simpl. rewrite Hb. by destruct b.
Qed.

Lemma apply_always_shows_picture_witness :
  showpicture example_bd = false
  /\ exists b' evs,
      active_bd (state_after (BgPresets._apply_once example_record) example_state)
      = Some b' /\ showpicture b' = true
      /\ trace (state_after (BgPresets._apply_once example_record) example_state)
         = trace example_state
           ++ [EvSet BASEDRAW_DATA_KEEP_ASPECT (VBool false);
               EvSet BASEDRAW_DATA_SHOWPICTURE (VBool true)] ++ evs.
Proof.
  split; [reflexivity |].
  exact (proj1 (apply_always_shows_picture _ example_state example_bd eq_refl)).
Defined.

(** C3 (as amended).  In [_apply_once], on a viewport and for every record
    and every initial state of the aspect-lock flag, a pass that completes
    first writes the lock flag [False], then the show-picture flag, the
    picture, the mode, the offsets, the rotation, the two sizes, the
    transparency and the alpha mode, and last writes the lock flag again:
    the value written last is the truth value of the record's [keep] (true
    when the key is missing), not the value the flag had before.  In
    particular a record with keep = 1 leaves the flag true. *)
Theorem apply_once_aspect_lock
    (d : list (string * pyval)) (s : St) (b : BaseDraw) :
  active_bd s = Some b ->
  outcome (BgPresets._apply_once (VDict d)) s = Ok true ->
  let s' := state_after (BgPresets._apply_once (VDict d)) s in
  let keep_saved := truth (getd d "keep" (VInt 1)) in
  (exists image mode offx offy rot sx sy transp alpha,
      trace s'
      = trace s
        ++ [EvSet BASEDRAW_DATA_KEEP_ASPECT (VBool false);
            EvSet BASEDRAW_DATA_SHOWPICTURE (VBool true);
            EvSet BASEDRAW_DATA_PICTURE image;
            EvSet BASEDRAW_DATA_BACKIMAGEMODE mode;
            EvSet BASEDRAW_DATA_OFFSETX offx;
            EvSet BASEDRAW_DATA_OFFSETY offy;
            EvSet BASEDRAW_DATA_PICTURE_ROTATION rot;
            EvSet BASEDRAW_DATA_SIZEX (VFloat sx);
            EvSet BASEDRAW_DATA_SIZEY (VFloat sy);
            EvSet BASEDRAW_DATA_PICTURE_TRANSPARENCY transp;
            EvSet BASEDRAW_DATA_PICTURE_USEALPHA alpha;
            EvSet BASEDRAW_DATA_KEEP_ASPECT (VBool keep_saved);
            EvEventAdd]
      /\ float (getd d "sizeX" (VInt 0)) = Ok sx
      /\ float (getd d "sizeY" (VInt 0)) = Ok sy)
  /\ (exists b', active_bd s' = Some b' /\ keep_aspect b' = keep_saved
                 /\ (getd d "keep" (VInt 1) = VInt 1 -> keep_aspect b' = true)).
Proof.
  intros Hb Hok s' keep_saved. subst s' keep_saved.
  pose proof (apply_once_spec d s b Hb) as H.
  destruct (target d) as [t | e] eqn:Et.
  - unfold state_after. rewrite H. simpl.
    destruct (target_shown d t Et) as [_ Hkeep]. split.
    + exists (VStr (picture t)), (VInt (backimagemode t)), (VFloat (offsetx t)),
        (VFloat (offsety t)), (VFloat (picture_rotation t)), (sizex t), (sizey t),
        (VFloat (picture_transparency t)), (VInt (picture_usealpha t)).
      rewrite <- Hkeep. split; [reflexivity |].
      unfold target in Et.
      repeat match type of Et with
             | match ?x with _ => _ end = _ => destruct x eqn:?; try discriminate
             end.
      inversion Et. simpl. auto.
    + exists t. repeat split; [exact Hkeep |].
      intros H1. rewrite Hkeep, H1. reflexivity.
  - destruct H as [H _]. congruence.
Qed.

Lemma apply_once_aspect_lock_witness :
  keep_aspect example_bd = true
  /\ exists b',
      active_bd (state_after (BgPresets._apply_once example_record) example_state)
      = Some b' /\ keep_aspect b' = true.
Proof.
  split; [reflexivity |].
  destruct (apply_once_aspect_lock
              [("image", VStr "/tmp/a.png"); ("mode", VStr "Linear");
               ("keep", VInt 1); ("offX", VFloat 0); ("offY", VFloat 0);
               ("rot", VFloat 0); ("sizeX", VFloat 16); ("sizeY", VFloat 9);
               ("transp", VStr "25"); ("alpha", VStr "None")]%string
              example_state example_bd eq_refl eq_refl)
    as [_ (b' & Hb' & _ & Hk)].
  exists b'. split; [exact Hb' | exact (Hk eq_refl)].
Defined.

(** C3, counterexample: a record with keep = 0 applied to a viewport whose
    aspect lock is engaged completes and leaves the lock released: the flag
    does not get its original value back. *)
Lemma apply_restores_lock_counterexample :
  let it := VDict [("keep"%string, VInt 0)] in
  let s' := state_after (BgPresets._apply_once it) example_state in
  keep_aspect example_bd = true
  /\ outcome (BgPresets._apply_once it) example_state = Ok true
  /\ (keep_aspect <$> active_bd s') = Some false.
Proof. repeat split. Qed.

(** ** Missing keys *)








(** ** The delayed second apply *)

Lemma apply_once_total (d : list (string * pyval)) (t : BaseDraw) (s : St) :
  target d = Ok t ->
  BgPresets._apply_once (VDict d) s
  = match active_bd s with
    | Some _ => (Ok true, set_trace (trace s ++ pass_events t)
                                    (set_active_bd (Some t) s))
    | None => (Ok false, s)
    end.
Proof.
  intros Ht. destruct (active_bd s) as [b |] eqn:Hb.
  - pose proof (apply_once_spec d s b Hb) as H. by rewrite Ht in H.
  - unfold BgPresets._apply_once, BgPresets._active_bd, bind, gets, ret.
    by rewrite Hb.
Qed.

Lemma select_frame (obj mode : Z) (s : St) :
  let s' := state_after (BgPresets.Select obj mode) s in
  pending_apply s' = pending_apply s /\ timer_armed s' = timer_armed s
  /\ trace s' = trace s /\ active_bd s' = active_bd s /\ items s' = items s.
Proof.
  unfold state_after, BgPresets.Select, bind, modify, ret.
  destruct (mode =? SELECTION_NEW); [done |].
  destruct (mode =? SELECTION_ADD); [done |].
  by destruct (mode =? SELECTION_SUB).
Qed.

Lemma apply_singleton (s : St) (i : Z) (d : list (string * pyval)) (t : BaseDraw) :
  sel s = {[i]} ->
  index (items s) i = Ok (VDict d) ->
  target d = Ok t ->
  BgPresets.Command BgPresets.IDC_APPLY s
  = (Ok true,
     let s1 := match active_bd s with
               | Some _ => set_trace (trace s ++ pass_events t)
                                     (set_active_bd (Some t) s)
               | None => s
               end in
     let s2 := set_pending_apply (VDict d) s1 in
     if timer_armed s then s2
     else set_timer_armed true
            (set_trace (trace s2 ++ [EvSetTimer BgPresets.TIMER_DELAY_MS]) s2)).
Proof.
  intros Hsel Hidx Ht.
  rewrite apply_unfold, Hsel, sorted_elements_singleton.
  unfold BgPresets.SetTimer, bind, lift, gets, emit, modify, ret.
  repeat (progress (simpl; rewrite ?Hidx, ?(apply_once_total d t s Ht))).
  destruct (active_bd s); destruct (timer_armed s) eqn:Ea; simpl;
    rewrite ?Ea; reflexivity.
Qed.

Lemma timer_fires (s : St) (d : list (string * pyval)) (t : BaseDraw) :
  timer_armed s = true ->
  pending_apply s = VDict d ->
  target d = Ok t ->
  BgPresets.Timer s
  = (Ok tt,
     let s1 := match active_bd s, d with
               | Some _, _ :: _ =>
                   set_pending_apply VNone
                     (set_trace (trace s ++ pass_events t)
                                (set_active_bd (Some t) s))
               | None, _ :: _ => set_pending_apply VNone s
               | _, [] => s
               end in
     set_trace (trace s1 ++ [EvSetTimer 0; EvEventAdd]) (set_timer_armed false s1)).
Proof.
  intros Harmed Hpend Ht.
  unfold BgPresets.Timer, BgPresets.SetTimer, bind, lift, gets, emit, modify, ret.
  repeat (progress (simpl; rewrite ?Harmed, ?Hpend)).
  destruct d as [|kv d'].
  - simpl. unfold set_trace, set_timer_armed. simpl.
    destruct (active_bd s) eqn:E; simpl; rewrite ?E, <- ?app_assoc; reflexivity.
  - cbn [truth]. rewrite (apply_once_total (kv :: d') t s Ht).
    unfold set_trace, set_timer_armed, set_pending_apply, set_active_bd.
    destruct (active_bd s) eqn:E; simpl; rewrite ?E, <- ?app_assoc; reflexivity.
Qed.

Lemma timer_idle (s : St) :
  timer_armed s = false -> BgPresets.Timer s = (Ok tt, s).
Proof.
  intros H. unfold BgPresets.Timer, bind, gets, ret. simpl. by rewrite H.
Qed.

(** C9.  Let Apply be invoked with exactly one selected preset, a record
    whose values convert.  Then the command stores a copy of the record as
    the one pending re-apply and leaves the timer armed; it calls
    [SetTimer(20)] only if the timer was not armed yet, so a second Apply
    before the timer fires replaces the snapshot and arms nothing.  Add,
    Delete and selection changes leave the snapshot, the armed flag and the
    timer alone.  When the timer fires with that snapshot pending, the
    record is applied once more (if a viewport is there and the record is
    not empty), the timer is switched off with [SetTimer(0)], nothing stays
    pending, and a further tick does nothing. *)
Theorem single_pending_reapply
    (s : St) (i : Z) (d : list (string * pyval)) (t : BaseDraw) :
  sel s = {[i]} ->
  index (items s) i = Ok (VDict d) ->
  target d = Ok t ->
  let apply := BgPresets.Command BgPresets.IDC_APPLY in
  (outcome apply s = Ok true
   /\ pending_apply (state_after apply s) = VDict d
   /\ timer_armed (state_after apply s) = true
   /\ timer_calls (trace (state_after apply s))
      = timer_calls (trace s)
        ++ (if timer_armed s then [] else [EvSetTimer BgPresets.TIMER_DELAY_MS]))
  /\ (forall s2 c,
        c = BgPresets.Command BgPresets.IDC_ADD
        \/ c = BgPresets.Command BgPresets.IDC_DEL
        \/ (exists obj mode, c = BgPresets.Select obj mode) ->
        pending_apply (state_after c s2) = pending_apply s2
        /\ timer_armed (state_after c s2) = timer_armed s2
        /\ timer_calls (trace (state_after c s2)) = timer_calls (trace s2))
  /\ (forall s2,
        timer_armed s2 = true ->
        pending_apply s2 = VDict d ->
        let s3 := state_after BgPresets.Timer s2 in
        outcome BgPresets.Timer s2 = Ok tt
        /\ timer_armed s3 = false
        /\ truth (pending_apply s3) = false
        /\ timer_calls (trace s3) = timer_calls (trace s2) ++ [EvSetTimer 0]
        /\ writes (trace s3)
           = writes (trace s2)
             ++ (match active_bd s2, d with
                 | Some _, _ :: _ => writes (pass_events t)
                 | _, _ => []
                 end)
        /\ BgPresets.Timer s3 = (Ok tt, s3)).
Proof.
  intros Hsel Hidx Ht apply. subst apply. split; [| split].
  - unfold outcome, state_after. rewrite (apply_singleton s i d t Hsel Hidx Ht).
    unfold timer_calls.
    destruct (active_bd s); destruct (timer_armed s) eqn:Ea; simpl;
      rewrite ?Ea; simpl;
      rewrite <- ?app_assoc, ?List.filter_app; simpl; rewrite ?app_nil_r; done.
  - intros s2 c [-> | [-> | (obj & mode & ->)]].
    + destruct (add_frame s2) as (_ & ? & ? & _ & _ & ? & _). done.
    + destruct (delete_frame s2) as (_ & ? & ? & _ & _ & ? & _). done.
    + destruct (select_frame obj mode s2) as (? & ? & Htr & _). by rewrite Htr.
  - intros s2 Harmed Hpend s3. subst s3.
    unfold outcome, state_after. rewrite (timer_fires s2 d t Harmed Hpend Ht).
    cbn [fst snd]. split; [reflexivity |].
    split; [by destruct (active_bd s2), d |].
    split; [destruct (active_bd s2), d; simpl; rewrite ?Hpend; done |].
    split; [| split].
    + unfold timer_calls.
      destruct (active_bd s2), d; simpl;
        rewrite <- ?app_assoc, ?List.filter_app; simpl; rewrite ?app_nil_r; done.
    + unfold writes.
      destruct (active_bd s2), d; simpl;
        rewrite <- ?app_assoc, ?List.filter_app; simpl; rewrite ?app_nil_r; done.
    + apply timer_idle. by destruct (active_bd s2), d.
Qed.

Lemma single_pending_reapply_witness :
  let s := set_sel {[0]} (set_items [example_record] example_state) in
  let apply := BgPresets.Command BgPresets.IDC_APPLY in
  timer_calls (trace (state_after apply (state_after apply s)))
  = [EvSetTimer 20]
  /\ timer_calls (trace (state_after BgPresets.Timer
                           (state_after apply (state_after apply s))))
     = [EvSetTimer 20; EvSetTimer 0].
Proof.
  pose (d := [("image", VStr "/tmp/a.png"); ("mode", VStr "Linear");
              ("keep", VInt 1); ("offX", VFloat 0); ("offY", VFloat 0);
              ("rot", VFloat 0); ("sizeX", VFloat 16); ("sizeY", VFloat 9);
              ("transp", VStr "25"); ("alpha", VStr "None")]%string).
  pose (t := mkBaseDraw true "/tmp/a.png" 1 true 0 0 0 16 9
                        (BgPresets._transp_to_api (VStr "25")) 0).
  intros s apply.
  destruct (single_pending_reapply s 0 d t eq_refl eq_refl eq_refl)
    as [(_ & _ & _ & H1) _].
  destruct (single_pending_reapply (state_after apply s) 0 d t
              eq_refl eq_refl eq_refl) as [(_ & Hp & Ha & H2) [_ H3]].
  destruct (H3 (state_after apply (state_after apply s)) Ha Hp)
    as (_ & _ & _ & H4 & _).
  fold apply in H1, H2, H4.
  split.
  - rewrite H2, H1. reflexivity.
  - rewrite H4, H2, H1. reflexivity.
Defined.

(** ** The transparency percentage through capture and apply *)

Section Percent.
Import PyNum.

Lemma floor_log10_small (n d : Z) :
  0 < d -> d <= n <= 100 * d ->
  floor_log10 n d
  = if d * 100 <=? n then 2 else if d * 10 <=? n then 1 else 0.
Proof.
  intros Hd [Hlo Hhi]. unfold floor_log10.
  destruct (Z.leb_spec d n); [| lia].
  destruct (Z.leb_spec (d * 10) n) as [H10 | H10].
  - assert (Hfuel : (3 <= Z.to_nat (Z.log2 n))%nat).
    { assert (Z.log2 8 <= Z.log2 n) by (apply Z.log2_le_mono; lia).
      change (Z.log2 8) with 3 in *. lia. }
    destruct (Z.to_nat (Z.log2 n)) as [|[|[|k]]]; try lia.
    cbn [log10_up]. change (10 ^ (0 + 1)) with 10.
    change (10 ^ (0 + 1 + 1)) with 100. change (10 ^ (0 + 1 + 1 + 1)) with 1000.
    destruct (Z.leb_spec (d * 10) n); [| lia].
    destruct (Z.leb_spec (d * 100) n); [| reflexivity].
    destruct (Z.leb_spec (d * 1000) n); [lia | reflexivity].
  - destruct (Z.leb_spec (d * 100) n); [lia |].
    cbn [log10_up]. change (10 ^ (0 + 1)) with 10.
    destruct (Z.leb_spec (d * 10) n); [lia | reflexivity].
Qed.

Lemma round_half_even_exact (m d : Z) : 0 < d -> round_half_even (m * d) d = m.
Proof.
  intros Hd. unfold round_half_even.
  rewrite Z.div_mul, Z.mod_mul by lia.
  destruct (Z.compare_spec (2 * 0) d); lia.
Qed.

Lemma round_half_even_bounds (N d lo hi : Z) :
  0 < d -> lo * d <= N < hi * d -> lo <= round_half_even N d <= hi.
Proof.
  intros Hd [Hlo Hhi]. unfold round_half_even.
  assert (lo <= N / d) by (apply Z.div_le_lower_bound; lia).
  assert (N / d < hi) by (apply Z.div_lt_upper_bound; lia).
  destruct (2 * (N mod d) ?= d); [destruct (Z.even (N / d)) | |]; lia.
Qed.

(** Rounding a percentage between 1 and 100. *)
Lemma round6_percent (p : Q) :
  (1 <= p)%Q -> (p <= 100)%Q ->
  exists m X, round6 p = Some (Sig6 false m X) /\ pct_sig m X.
Proof.
  destruct p as [n d]. unfold Qle. simpl. intros Hlo Hhi.
  unfold round6. simpl.
  assert (Hn : Z.abs n = n) by lia. rewrite Hn.
  destruct (Z.eqb_spec n 0); [lia |].
  destruct (Z.ltb_spec n 0); [lia |].
  rewrite floor_log10_small by lia.
  destruct (Z.leb_spec (Z.pos d * 100) n) as [H100 | H100];
    [| destruct (Z.leb_spec (Z.pos d * 10) n) as [H10 | H10]].
  - (* exactly 100 *)
    assert (n = 100 * Z.pos d) by lia. subst n.
    change (5 - 2) with 3. change (0 <=? 3) with true. cbv iota.
    replace (100 * Z.pos d * 10 ^ 3) with (10 ^ 5 * Z.pos d) by lia.
    rewrite round_half_even_exact by lia.
    change (10 ^ 5 =? 10 ^ 6) with false. cbv iota.
    exists (10 ^ 5), 2. split; [reflexivity |]. unfold pct_sig. lia.
  - change (5 - 1) with 4. change (0 <=? 4) with true. cbv iota.
    pose proof (round_half_even_bounds (n * 10 ^ 4) (Z.pos d) (10 ^ 5) (10 ^ 6)) as Hb.
    destruct Hb as [Hb1 Hb2]; [lia | lia |].
    destruct (Z.eqb_spec (round_half_even (n * 10 ^ 4) (Z.pos d)) (10 ^ 6)).
    + exists (10 ^ 5), (1 + 1). split; [reflexivity |]. unfold pct_sig. lia.
    + eexists _, 1. split; [reflexivity |]. unfold pct_sig. lia.
  - change (5 - 0) with 5. change (0 <=? 5) with true. cbv iota.
    pose proof (round_half_even_bounds (n * 10 ^ 5) (Z.pos d) (10 ^ 5) (10 ^ 6)) as Hb.
    destruct Hb as [Hb1 Hb2]; [lia | lia |].
    destruct (Z.eqb_spec (round_half_even (n * 10 ^ 5) (Z.pos d)) (10 ^ 6)).
    + exists (10 ^ 5), (0 + 1). split; [reflexivity |]. unfold pct_sig. lia.
    + eexists _, 0. split; [reflexivity |]. unfold pct_sig. lia.
Qed.

(** Rounding a number that has six significant digits already. *)
Lemma round6_fixpoint (x : Q) (m X : Z) :
  pct_sig m X ->
  (x == Qmake m (Z.to_pos (10 ^ (5 - X))))%Q ->
  round6 x = Some (Sig6 false m X).
Proof.
  destruct x as [n d]. unfold Qeq, pct_sig. simpl.
  intros [Hm HX] Hx. unfold round6. simpl.
  assert (Hpos : Z.pos (Z.to_pos (10 ^ (5 - X))) = 10 ^ (5 - X)).
  { destruct HX as [-> | [-> | [-> _]]]; reflexivity. }
  rewrite Hpos in Hx.
  assert (0 < n /\ Z.pos d <= n <= 100 * Z.pos d
          /\ n * 10 ^ (5 - X) = m * Z.pos d) as (Hn & Hr & Hx').
  { destruct HX as [-> | [-> | [-> ->]]];
      change (10 ^ (5 - 0)) with 100000 in *; change (10 ^ (5 - 1)) with 10000 in *;
      change (10 ^ (5 - 2)) with 1000 in *; change (10 ^ 5) with 100000 in *;
      change (10 ^ 6) with 1000000 in *; nia. }
  assert (Ha : Z.abs n = n) by lia. rewrite Ha.
  destruct (Z.eqb_spec n 0); [lia |].
  destruct (Z.ltb_spec n 0); [lia |].
  rewrite floor_log10_small by lia.
  assert (HXv : (if Z.pos d * 100 <=? n then 2
                 else if Z.pos d * 10 <=? n then 1 else 0) = X).
  { destruct (Z.leb_spec (Z.pos d * 100) n); [| destruct (Z.leb_spec (Z.pos d * 10) n)];
      destruct HX as [-> | [-> | [-> ->]]]; try reflexivity;
      change (10 ^ (5 - 0)) with 100000 in *; change (10 ^ (5 - 1)) with 10000 in *;
      change (10 ^ (5 - 2)) with 1000 in *; change (10 ^ 5) with 100000 in *;
      change (10 ^ 6) with 1000000 in *; nia. }
  rewrite HXv.
  assert (H5 : (0 <=? 5 - X) = true) by (destruct HX as [-> | [-> | [-> _]]]; reflexivity).
  rewrite H5, Hx', round_half_even_exact by lia.
  destruct (Z.eqb_spec m (10 ^ 6)); [lia | reflexivity].
Qed.

(** *** Digit lists *)

Lemma digits_of_length (k : nat) (n : Z) : length (digits_of k n) = k.
Proof.
  revert n. induction k as [|k IH]; intros n; simpl; [done |].
  rewrite length_app, IH. simpl. lia.
Qed.

Lemma digits_of_dec (k : nat) (n : Z) : Forall is_dec (digits_of k n).
Proof.
  revert n. induction k as [|k IH]; intros n; simpl; [constructor |].
  apply Forall_app. split; [apply IH |].
  constructor; [| constructor]. unfold is_dec.
  pose proof (Z.mod_pos_bound n 10). lia.
Qed.

Lemma fold_digits (l : list Z) (a : Z) :
  fold_left (fun acc d => 10 * acc + d) l a
  = a * 10 ^ Z.of_nat (length l) + digits_val l.
Proof.
  unfold digits_val. revert a. induction l as [|d l IH]; intros a.
  - simpl. lia.
  - cbn [fold_left length]. rewrite (IH (10 * a + d)), (IH (10 * 0 + d)).
    rewrite Nat2Z.inj_succ, Z.pow_succ_r by lia. lia.
Qed.

Lemma digits_val_app (l1 l2 : list Z) :
  digits_val (l1 ++ l2) = digits_val l1 * 10 ^ Z.of_nat (length l2) + digits_val l2.
Proof.
  unfold digits_val at 1. rewrite fold_left_app, fold_digits. reflexivity.
Qed.

Lemma digits_val_zeros (z : nat) : digits_val (repeat 0 z) = 0.
Proof.
  induction z as [|z IH]; [reflexivity |].
  change (repeat 0 (S z)) with ([0] ++ repeat 0 z).
  rewrite digits_val_app, IH. reflexivity.
Qed.

Lemma digits_val_digits_of (k : nat) (n : Z) :
  0 <= n < 10 ^ Z.of_nat k -> digits_val (digits_of k n) = n.
Proof.
  revert n. induction k as [|k IH]; intros n Hn.
  - simpl in *. unfold digits_val. simpl. lia.
  - cbn [digits_of]. rewrite digits_val_app.
    rewrite Nat2Z.inj_succ, Z.pow_succ_r in Hn by lia.
    rewrite IH.
    + change (digits_val [n mod 10]) with (10 * 0 + n mod 10).
      change (10 ^ Z.of_nat (length [n mod 10])) with 10.
      pose proof (Z.div_mod n 10). lia.
    + split; [apply Z.div_pos; lia | apply Z.div_lt_upper_bound; lia].
Qed.

Lemma strip_leading_zeros_spec (l : list Z) :
  exists z, l = repeat 0 z ++ strip_leading_zeros l.
Proof.
  induction l as [|d l [z IH]]; [by exists 0%nat |].
  destruct (Z.eq_dec d 0) as [-> | Hd].
  - exists (S z). simpl. by rewrite <- IH.
  - exists 0%nat. by destruct d.
Qed.

Lemma strip_trailing_zeros_spec (l : list Z) :
  exists z, l = strip_trailing_zeros l ++ repeat 0 z.
Proof.
  unfold strip_trailing_zeros.
  destruct (strip_leading_zeros_spec (rev l)) as [z Hz].
  exists z. apply (f_equal (@rev Z)) in Hz.
  rewrite rev_involutive, rev_app_distr in Hz.
  rewrite Hz at 1. f_equal.
  clear. induction z as [|z IH]; [reflexivity |].
  simpl. rewrite IH. clear. induction z as [|z IH]; [reflexivity |].
  simpl. by rewrite <- IH.
Qed.

Lemma strip_trailing_zeros_dec (l : list Z) :
  Forall is_dec l -> Forall is_dec (strip_trailing_zeros l).
Proof.
  intros H. destruct (strip_trailing_zeros_spec l) as [z Hz].
  rewrite Hz in H. by apply Forall_app in H as [? _].
Qed.

(** *** Reading back what was rendered *)

Lemma dec_cases (d : Z) :
  is_dec d ->
  d = 0 \/ d = 1 \/ d = 2 \/ d = 3 \/ d = 4 \/ d = 5 \/ d = 6 \/ d = 7
  \/ d = 8 \/ d = 9.
Proof. unfold is_dec. lia. Qed.

Ltac each_digit H :=
  apply dec_cases in H;
  repeat (destruct H as [H | H]); subst; repeat split; reflexivity.

Lemma digit_char (d : Z) :
  is_dec d ->
  is_digit (ascii_of_digit d) = true
  /\ digit_of_ascii (ascii_of_digit d) = d
  /\ is_space (ascii_of_digit d) = false
  /\ Ascii.eqb (ascii_of_digit d) "-" = false
  /\ Ascii.eqb (ascii_of_digit d) "+" = false.
Proof. intros H. each_digit H. Qed.

Lemma take_digits_render (l : list Z) (rest : list ascii) :
  Forall is_dec l ->
  match rest with [] => True | c :: _ => is_digit c = false end ->
  take_digits (render_digits l ++ rest) = (l, rest).
Proof.
  intros Hl Hrest. induction Hl as [|d l Hd Hl IH];
    cbn [take_digits render_digits map app].
  - destruct rest as [|c rest]; [reflexivity |].
    cbn [take_digits]. by rewrite Hrest.
  - destruct (digit_char d Hd) as (-> & -> & _).
    fold (render_digits l). by rewrite IH.
Qed.

Lemma lstrip_head (c : ascii) (l : list ascii) :
  is_space c = false -> lstrip (c :: l) = c :: l.
Proof. intros H. simpl. by rewrite H. Qed.

Lemma strip_id (l l' l0 : list ascii) (c c' : ascii) :
  l = c :: l' -> l = l0 ++ [c'] ->
  is_space c = false -> is_space c' = false ->
  strip l = l.
Proof.
  intros E1 E2 Hc Hc'. unfold strip.
  rewrite E1 at 1. rewrite lstrip_head by done. rewrite <- E1.
  rewrite E2 at 1. rewrite rev_app_distr.
  change (rev [c'] ++ rev l0) with (c' :: rev l0).
  rewrite lstrip_head by done.
  change (c' :: rev l0) with (rev [c'] ++ rev l0).
  by rewrite <- rev_app_distr, rev_involutive.
Qed.

(** The rendering of a numeral without sign and exponent starts and ends
    with a digit. *)
Lemma render_plain_ends (ip fp : list Z) :
  ip <> [] -> Forall is_dec ip -> Forall is_dec fp ->
  exists a l' l0 b,
    is_dec a /\ is_dec b
    /\ render_numeral (Numeral false ip fp None) = ascii_of_digit a :: l'
    /\ render_numeral (Numeral false ip fp None) = l0 ++ [ascii_of_digit b].
Proof.
  intros Hne Hip Hfp.
  assert (Hr : render_numeral (Numeral false ip fp None)
               = render_digits ip
                 ++ match fp with [] => [] | _ => "."%char :: render_digits fp end).
  { unfold render_numeral. simpl. rewrite app_nil_r. by destruct fp. }
  rewrite Hr. clear Hr.
  destruct ip as [|a ip0] eqn:Eip; [done |]. rewrite <- Eip in *.
  assert (Ha : is_dec a) by (rewrite Eip in Hip; by apply Forall_cons in Hip as [? _]).
  destruct fp as [|f fp0] eqn:Efp.
  - rewrite app_nil_r.
    destruct (exists_last Hne) as (ip' & b & E).
    exists a, (render_digits ip0), (render_digits ip'), b.
    rewrite E in Hip. apply Forall_app in Hip as [_ Hb].
    apply Forall_cons in Hb as [Hb _].
    split; [done |]. split; [done |]. split.
    + by rewrite Eip.
    + rewrite E. unfold render_digits. by rewrite map_app.
  - rewrite <- Efp in *.
    assert (Hnf : fp <> []) by (by rewrite Efp).
    destruct (exists_last Hnf) as (fp' & b & E).
    exists a, (render_digits ip0 ++ "."%char :: render_digits fp),
      (render_digits ip ++ "."%char :: render_digits fp'), b.
    rewrite E in Hfp. apply Forall_app in Hfp as [_ Hb].
    apply Forall_cons in Hb as [Hb _].
    split; [done |]. split; [done |]. split.
    + by rewrite Eip.
    + rewrite E. unfold render_digits. rewrite map_app. simpl.
      by rewrite <- app_assoc.
Qed.

Lemma parse_rendered (ip fp : list Z) :
  ip <> [] -> Forall is_dec ip -> Forall is_dec fp ->
  parse_numeral (render_numeral (Numeral false ip fp None))
  = Some (Numeral false ip fp None).
Proof.
  intros Hne Hip Hfp.
  destruct (render_plain_ends ip fp Hne Hip Hfp)
    as (a & l' & l0 & b & Ha & Hb & E1 & E2).
  destruct (digit_char a Ha) as (_ & _ & _ & Hminus & Hplus).
  unfold parse_numeral.
  assert (Hsign : take_sign (render_numeral (Numeral false ip fp None))
                  = (false, render_numeral (Numeral false ip fp None))).
  { rewrite E1. unfold take_sign. by rewrite Hminus, Hplus. }
  rewrite Hsign.
  assert (Hr : render_numeral (Numeral false ip fp None)
               = render_digits ip
                 ++ match fp with [] => [] | _ => "."%char :: render_digits fp end).
  { unfold render_numeral. simpl. rewrite app_nil_r. by destruct fp. }
  rewrite Hr, take_digits_render by (try done; by destruct fp).
  destruct fp as [|f fp0] eqn:Efp.
  - simpl. by destruct ip.
  - rewrite <- Efp in *. unfold take_frac.
    change (Ascii.eqb "." ".") with true. cbv iota.
    rewrite <- (app_nil_r (render_digits fp)), take_digits_render by done.
    simpl. destruct ip; [done |]. by rewrite Efp.
Qed.

Lemma float_of_rendered (ip fp : list Z) :
  ip <> [] -> Forall is_dec ip -> Forall is_dec fp ->
  float_of_string (string_of_list_ascii (render_numeral (Numeral false ip fp None)))
  = Some (numeral_value (Numeral false ip fp None)).
Proof.
  intros Hne Hip Hfp. unfold float_of_string.
  rewrite list_ascii_of_string_of_list_ascii.
  destruct (render_plain_ends ip fp Hne Hip Hfp)
    as (a & l' & l0 & b & Ha & Hb & E1 & E2).
  destruct (digit_char a Ha) as (_ & _ & Hsa & _).
  destruct (digit_char b Hb) as (_ & _ & Hsb & _).
  rewrite (strip_id _ l' l0 _ _ E1 E2 Hsa Hsb).
  by rewrite parse_rendered.
Qed.

(** *** The numeral of a percentage and its value *)

Lemma pow10_pos (k : Z) : 0 <= k -> Z.pos (Z.to_pos (10 ^ k)) = 10 ^ k.
Proof. intros Hk. apply Z2Pos.id. by apply Z.pow_pos_nonneg. Qed.

Lemma numeral_g_percent (m X : Z) :
  pct_sig m X ->
  exists ip fp,
    numeral_g (Sig6 false m X) = Numeral false ip fp None
    /\ ip <> [] /\ Forall is_dec ip /\ Forall is_dec fp
    /\ (numeral_value (Numeral false ip fp None)
        == Qmake m (Z.to_pos (10 ^ (5 - X))))%Q.
Proof.
  intros [Hm HX].
  assert (HXr : 0 <= X <= 2) by lia.
  set (D := digits_of 6 m).
  set (k := Z.to_nat (X + 1)).
  exists (take k D), (strip_trailing_zeros (drop k D)).
  assert (HD : Forall is_dec D) by apply digits_of_dec.
  assert (HlenD : length D = 6%nat) by apply digits_of_length.
  assert (HvalD : digits_val D = m).
  { apply digits_val_digits_of. change (10 ^ Z.of_nat 6) with (10 ^ 6).
    change (10 ^ 5) with 100000 in Hm. lia. }
  split; [| split; [| split; [| split]]].
  - unfold numeral_g. cbn [s_exp s_mant s_neg]. fold D.
    destruct (Z.ltb_spec X (-4)); [lia |].
    destruct (Z.leb_spec 6 X); [lia |].
    destruct (Z.leb_spec 0 X); [| lia]. reflexivity.
  - intros E. apply (f_equal length) in E. rewrite length_take, HlenD in E.
    simpl in E. lia.
  - by apply Forall_take.
  - apply strip_trailing_zeros_dec. by apply Forall_drop.
  - destruct (strip_trailing_zeros_spec (drop k D)) as [z Hz].
    set (fp := strip_trailing_zeros (drop k D)) in *.
    assert (Hlen : (length fp + z = 5 - Z.to_nat X)%nat).
    { apply (f_equal length) in Hz.
      rewrite length_drop, length_app, repeat_length, HlenD in Hz. lia. }
    assert (Hval : digits_val (take k D ++ fp) * 10 ^ Z.of_nat z = m).
    { rewrite <- HvalD. rewrite <- (take_drop k D) at 2. rewrite Hz.
      rewrite app_assoc, (digits_val_app (take k D ++ fp)), digits_val_zeros,
        repeat_length. lia. }
    unfold numeral_value. cbn [nm_neg nm_int nm_frac nm_exp].
    set (M := digits_val (take k D ++ fp)) in *.
    unfold scale10, Qeq.
    assert (H5 : 10 ^ (5 - X) = 10 ^ Z.of_nat (length fp) * 10 ^ Z.of_nat z).
    { rewrite <- Z.pow_add_r by lia. f_equal. lia. }
    destruct (Z.leb_spec 0 (0 - Z.of_nat (length fp))) as [H0 | H0];
      cbn [Qnum Qden inject_Z]; rewrite !pow10_pos by lia.
    + assert (Hf : length fp = 0%nat) by lia.
      rewrite Hf in *.
      change (10 ^ (0 - Z.of_nat 0)) with 1.
      change (10 ^ Z.of_nat 0) with 1 in H5. rewrite H5. lia.
    + replace (- (0 - Z.of_nat (length fp))) with (Z.of_nat (length fp)) by lia.
      rewrite H5. lia.
Qed.

Lemma pct_value_bounds (v : Q) (m X : Z) :
  pct_sig m X ->
  (v == Qmake m (Z.to_pos (10 ^ (5 - X))))%Q ->
  (1 <= v)%Q /\ (v <= 100)%Q /\ ((m = 10 ^ 5 /\ X = 0) \/ (1 < v)%Q).
Proof.
  intros [Hm HX] Hv.
  change (10 ^ 5) with 100000 in *. change (10 ^ 6) with 1000000 in *.
  rewrite Hv. unfold Qle, Qlt. cbn [Qnum Qden].
  destruct HX as [-> | [-> | [-> ->]]]; simpl; lia.
Qed.

(** *** Percentages below 1 *)

Lemma log10_down_spec (fuel : nat) (n d k : Z) :
  0 < n -> 1 <= k ->
  n * 10 ^ (k - 1) < d ->
  d <= n * 10 ^ (k - 1 + Z.of_nat fuel) ->
  let r := log10_down fuel n d k in
  k <= r /\ d <= n * 10 ^ r /\ n * 10 ^ (r - 1) < d.
Proof.
  intros Hn. revert k. induction fuel as [|fuel IH]; intros k Hk Hlt Hle; simpl.
  - replace (k - 1 + Z.of_nat 0) with (k - 1) in Hle by lia. lia.
  - destruct (Z.leb_spec d (n * 10 ^ k)) as [H | H].
    + split; [lia |]. split; assumption.
    + destruct (IH (k + 1)) as (H1 & H2 & H3).
      * lia.
      * by replace (k + 1 - 1) with k by lia.
      * by replace (k + 1 - 1 + Z.of_nat fuel) with (k - 1 + Z.of_nat (S fuel)) by lia.
      * split; [lia |]. split; assumption.
Qed.

Lemma pow10_ge_pow2 (a : Z) : 0 <= a -> 2 ^ a <= 10 ^ a.
Proof. intros Ha. apply Z.pow_le_mono_l. lia. Qed.

Lemma floor_log10_below (n d : Z) :
  0 < n -> n < d ->
  exists k, floor_log10 n d = - k /\ 1 <= k
            /\ d <= n * 10 ^ k /\ n * 10 ^ (k - 1) < d.
Proof.
  intros Hn Hlt. unfold floor_log10.
  destruct (Z.leb_spec d n); [lia |].
  exists (log10_down (Z.to_nat (Z.log2 d) + 2) n d 1). split; [reflexivity |].
  apply (log10_down_spec _ n d 1); try lia.
  assert (Hl : 0 <= Z.log2 d) by apply Z.log2_nonneg.
  replace (1 - 1 + Z.of_nat (Z.to_nat (Z.log2 d) + 2)) with (Z.log2 d + 1 + 1) by lia.
  assert (H2 : d < 2 ^ (Z.log2 d + 1)).
  { destruct (Z.log2_spec d) as [_ H2]; [lia |]. by rewrite <- Z.add_1_r in H2. }
  pose proof (pow10_ge_pow2 (Z.log2 d + 1)) as H10.
  assert (H10' : 10 ^ (Z.log2 d + 1) <= 10 ^ (Z.log2 d + 1 + 1))
    by (apply Z.pow_le_mono_r; lia).
  nia.
Qed.

(** Rounding a positive number below 1. *)
Lemma round6_below (p : Q) :
  (0 < p)%Q -> (p < 1)%Q ->
  exists m X, round6 p = Some (Sig6 false m X)
              /\ 10 ^ 5 <= m < 10 ^ 6
              /\ (X <= -1 \/ (X = 0 /\ m = 10 ^ 5)).
Proof.
  destruct p as [n d]. unfold Qlt. simpl. intros Hlo Hhi.
  unfold round6. simpl.
  assert (Hn : Z.abs n = n) by lia. rewrite Hn.
  destruct (Z.eqb_spec n 0); [lia |].
  destruct (Z.ltb_spec n 0); [lia |].
  destruct (floor_log10_below n (Z.pos d)) as (k & -> & Hk & Hk1 & Hk2); [lia | lia |].
  replace (5 - - k) with (5 + k) by lia.
  destruct (Z.leb_spec 0 (5 + k)); [| lia].
  assert (Hp : 10 ^ (5 + k) = 10 ^ 5 * 10 ^ k) by (apply Z.pow_add_r; lia).
  assert (Hp' : 10 ^ k = 10 * 10 ^ (k - 1)).
  { replace k with (Z.succ (k - 1)) at 1 by lia. apply Z.pow_succ_r. lia. }
  assert (Hpos : 0 < 10 ^ (k - 1)) by (apply Z.pow_pos_nonneg; lia).
  pose proof (round_half_even_bounds (n * 10 ^ (5 + k)) (Z.pos d) (10 ^ 5) (10 ^ 6)) as Hb.
  destruct Hb as [Hb1 Hb2]; [lia | |].
  { rewrite Hp. change (10 ^ 5) with 100000. change (10 ^ 6) with 1000000. nia. }
  destruct (Z.eqb_spec (round_half_even (n * 10 ^ (5 + k)) (Z.pos d)) (10 ^ 6)).
  - exists (10 ^ 5), (- k + 1). split; [reflexivity |]. lia.
  - eexists _, (- k). split; [reflexivity |]. lia.
Qed.

Lemma ndigits_fuel_spec (fuel : nat) (a : Z) :
  0 <= a -> Z.log2 a <= Z.of_nat fuel ->
  a < 10 ^ Z.of_nat (ndigits_fuel fuel a).
Proof.
  revert a. induction fuel as [|fuel IH]; intros a Ha Hl; simpl.
  - destruct (Z.le_gt_cases 2 a) as [H2 | H2]; [| lia].
    assert (Z.log2 2 <= Z.log2 a) by (by apply Z.log2_le_mono).
    change (Z.log2 2) with 1 in *. lia.
  - destruct (Z.ltb_spec a 10) as [H | H]; [simpl; lia |].
    rewrite Nat2Z.inj_succ, Z.pow_succ_r by lia.
    assert (Hd : a / 10 < 10 ^ Z.of_nat (ndigits_fuel fuel (a / 10))).
    { apply IH; [apply Z.div_pos; lia |].
      assert (Z.log2 (a / 10) <= Z.log2 (a / 2)).
      { apply Z.log2_le_mono.
        apply Z.div_le_lower_bound; [lia |].
        pose proof (Z.mul_div_le a 10). lia. }
      assert (Z.log2 (a / 2) = Z.max 0 (Z.log2 a - 1)).
      { change 2 with (2 ^ 1) at 1.
        rewrite <- Z.shiftr_div_pow2 by lia. apply Z.log2_shiftr. lia. }
      lia. }
    pose proof (Z.div_mod a 10). pose proof (Z.mod_pos_bound a 10). lia.
Qed.

Lemma ndigits_spec (a : Z) : 0 <= a -> a < 10 ^ Z.of_nat (ndigits a).
Proof.
  intros Ha. apply ndigits_fuel_spec; [done |].
  pose proof (Z.log2_nonneg a). lia.
Qed.

Lemma digits_val_bound (l : list Z) :
  Forall is_dec l -> 0 <= digits_val l < 10 ^ Z.of_nat (length l).
Proof.
  induction l as [|d l IH] using rev_ind; intros H.
  - unfold digits_val. simpl. lia.
  - apply Forall_app in H as [Hl Hd]. apply Forall_cons in Hd as [Hd _].
    rewrite digits_val_app, length_app. simpl length.
    change (digits_val [d]) with (10 * 0 + d). change (10 ^ Z.of_nat 1) with 10.
    replace (Z.of_nat (length l + 1)) with (Z.succ (Z.of_nat (length l))) by lia.
    rewrite Z.pow_succ_r by lia. specialize (IH Hl). unfold is_dec in Hd. lia.
Qed.

(** The digits of the exponent. *)
Lemma exp_digits (x : Z) :
  let ds := digits_of (Nat.max 2 (ndigits (Z.abs x))) (Z.abs x) in
  Forall is_dec ds /\ digits_val ds = Z.abs x
  /\ exists ds' b, ds = ds' ++ [b] /\ is_dec b.
Proof.
  intros ds. subst ds. set (a := Z.abs x). set (k := Nat.max 2 (ndigits a)).
  split; [apply digits_of_dec |]. split.
  - apply digits_val_digits_of. split; [lia |].
    pose proof (ndigits_spec a ltac:(lia)).
    assert (10 ^ Z.of_nat (ndigits a) <= 10 ^ Z.of_nat k)
      by (apply Z.pow_le_mono_r; lia).
    lia.
  - assert (Hk : exists k', k = S k') by (exists (Nat.pred k); lia).
    destruct Hk as [k' ->]. cbn [digits_of].
    exists (digits_of k' (a / 10)), (a mod 10). split; [reflexivity |].
    unfold is_dec. pose proof (Z.mod_pos_bound a 10). lia.
Qed.

Lemma render_exp_head (x : Z) :
  exists l, render_exp x = "e"%char :: l.
Proof. unfold render_exp. eauto. Qed.

Lemma take_exp_render (x : Z) : take_exp (render_exp x) = Some (Some x).
Proof.
  destruct (exp_digits x) as (Hdec & Hval & ds' & b & Hds & Hb).
  unfold render_exp, take_exp.
  change (Ascii.eqb "e" "e") with true. cbn [orb].
  set (ds := digits_of (Nat.max 2 (ndigits (Z.abs x))) (Z.abs x)) in *.
  assert (Hne : exists d ds0, ds = d :: ds0).
  { destruct ds as [|d ds0]; [by destruct ds' | eauto]. }
  destruct Hne as (d & ds0 & Eds).
  destruct (Z.ltb_spec x 0) as [Hx | Hx]; unfold take_sign;
    [change (Ascii.eqb "-" "-") with true
    | change (Ascii.eqb "+" "-") with false; change (Ascii.eqb "+" "+") with true];
    cbv iota;
    rewrite <- (app_nil_r (render_digits ds)), take_digits_render by done;
    rewrite Eds, <- Eds, Hval; do 2 f_equal; lia.
Qed.

Lemma parse_rendered_exp (ip fp : list Z) (x : Z) :
  ip <> [] -> Forall is_dec ip -> Forall is_dec fp ->
  parse_numeral (render_numeral (Numeral false ip fp (Some x)))
  = Some (Numeral false ip fp (Some x)).
Proof.
  intros Hne Hip Hfp.
  assert (Hr : render_numeral (Numeral false ip fp (Some x))
               = render_digits ip
                 ++ match fp with
                    | [] => render_exp x
                    | _ => "."%char :: render_digits fp ++ render_exp x
                    end).
  { unfold render_numeral. cbn [nm_neg nm_int nm_frac nm_exp app]. by destruct fp. }
  destruct (render_exp_head x) as [le Hle].
  unfold parse_numeral.
  assert (Hsign : take_sign (render_numeral (Numeral false ip fp (Some x)))
                  = (false, render_numeral (Numeral false ip fp (Some x)))).
  { rewrite Hr. destruct ip as [|a ip0]; [done |].
    apply Forall_cons in Hip as [Ha _].
    destruct (digit_char a Ha) as (_ & _ & _ & Hminus & Hplus).
    cbn [render_digits map app]. unfold take_sign. by rewrite Hminus, Hplus. }
  rewrite Hsign, Hr.
  rewrite take_digits_render; [| done | destruct fp; [by rewrite Hle | done]].
  destruct fp as [|f fp0] eqn:Efp.
  - unfold take_frac. rewrite Hle. change (Ascii.eqb "e" ".") with false. cbv iota.
    rewrite <- Hle, take_exp_render. by destruct ip.
  - rewrite <- Efp in *. unfold take_frac.
    change (Ascii.eqb "." ".") with true. cbv iota.
    rewrite take_digits_render; [| done | by rewrite Hle].
    rewrite take_exp_render. destruct ip; [done |]. by rewrite Efp.
Qed.

Lemma float_of_rendered_exp (ip fp : list Z) (x : Z) :
  ip <> [] -> Forall is_dec ip -> Forall is_dec fp ->
  float_of_string (string_of_list_ascii (render_numeral (Numeral false ip fp (Some x))))
  = Some (numeral_value (Numeral false ip fp (Some x))).
Proof.
  intros Hne Hip Hfp. unfold float_of_string.
  rewrite list_ascii_of_string_of_list_ascii.
  destruct (exp_digits x) as (_ & _ & ds' & b & Hds & Hb).
  destruct ip as [|a ip0] eqn:Eip; [done |]. rewrite <- Eip in *.
  assert (Ha : is_dec a) by (rewrite Eip in Hip; by apply Forall_cons in Hip as [? _]).
  destruct (digit_char a Ha) as (_ & _ & Hsa & _).
  destruct (digit_char b Hb) as (_ & _ & Hsb & _).
  assert (E1 : exists l', render_numeral (Numeral false ip fp (Some x))
                          = ascii_of_digit a :: l').
  { unfold render_numeral. cbn [nm_neg nm_int nm_frac nm_exp app].
    rewrite Eip. cbn [render_digits map app]. eauto. }
  assert (E2 : exists l0, render_numeral (Numeral false ip fp (Some x))
                          = l0 ++ [ascii_of_digit b]).
  { unfold render_numeral, render_exp. cbn [nm_neg nm_int nm_frac nm_exp app].
    rewrite Hds. unfold render_digits at 3. rewrite map_app. cbn [map].
    eexists. rewrite !app_comm_cons, !app_assoc. reflexivity. }
  destruct E1 as [l' E1]. destruct E2 as [l0 E2].
  rewrite (strip_id _ l' l0 _ _ E1 E2 Hsa Hsb).
  by rewrite parse_rendered_exp.
Qed.

(** *** Rounding to the nearest double *)

Lemma round_half_even_error (N d : Z) :
  0 < d -> 2 * Z.abs (round_half_even N d * d - N) <= d.
Proof.
  intros Hd. unfold round_half_even.
  pose proof (Z.div_mod N d ltac:(lia)) as Hdm.
  pose proof (Z.mod_pos_bound N d Hd) as Hr.
  destruct (Z.compare_spec (2 * (N mod d)) d); [destruct (Z.even (N / d)) | |]; nia.
Qed.

Lemma round_half_even_le (N d K : Z) :
  0 < d -> N <= K * d -> round_half_even N d <= K.
Proof.
  intros Hd HN. unfold round_half_even.
  pose proof (Z.div_mod N d ltac:(lia)) as Hdm.
  pose proof (Z.mod_pos_bound N d Hd) as Hr.
  assert (N / d <= K) by (apply Z.div_le_upper_bound; lia).
  destruct (Z.compare_spec (2 * (N mod d)) d); [destruct (Z.even (N / d)) | |]; nia.
Qed.

Lemma round_half_even_nonneg (N d : Z) :
  0 < d -> 0 <= N -> 0 <= round_half_even N d.
Proof.
  intros Hd HN. unfold round_half_even.
  assert (0 <= N / d) by (apply Z.div_pos; lia).
  destruct (2 * (N mod d) ?= d); [destruct (Z.even (N / d)) | |]; lia.
Qed.

Lemma round_half_even_near (N d m : Z) :
  0 < d -> 2 * Z.abs (N - m * d) < d -> round_half_even N d = m.
Proof.
  intros Hd HN. unfold round_half_even.
  pose proof (Z.div_mod N d ltac:(lia)) as Hdm.
  pose proof (Z.mod_pos_bound N d Hd) as Hr.
  assert (N / d = m \/ N / d = m - 1) as [Hq | Hq] by nia.
  - rewrite Hq in *. destruct (Z.compare_spec (2 * (N mod d)) d); [| | ]; try nia.
  - rewrite Hq in *. destruct (Z.compare_spec (2 * (N mod d)) d); [| | ]; try nia.
Qed.

Lemma floor_log2_lower (n d : Z) :
  0 < n -> 0 < d -> 0 <= floor_log2 n d -> d * 2 ^ floor_log2 n d <= n.
Proof.
  intros Hn Hd. unfold floor_log2.
  pose proof (Z.log2_spec n Hn) as [Hn1 Hn2].
  pose proof (Z.log2_spec d Hd) as [Hd1 Hd2].
  pose proof (Z.log2_nonneg n). pose proof (Z.log2_nonneg d).
  set (ln := Z.log2 n) in *. set (ld := Z.log2 d) in *.
  destruct (Z.leb_spec 0 (ln - ld)) as [Ha | Ha].
  - destruct (Z.leb_spec (d * 2 ^ (ln - ld)) n) as [Ht | Ht]; [done |].
    intros He.
    assert (E : 2 ^ ln = 2 ^ (ld + 1) * 2 ^ (ln - ld - 1)).
    { rewrite <- Z.pow_add_r by lia. f_equal. lia. }
    assert (0 < 2 ^ (ln - ld - 1)) by (apply Z.pow_pos_nonneg; lia).
    nia.
  - destruct (Z.leb_spec d (n * 2 ^ (- (ln - ld)))); lia.
Qed.

Lemma floor_log2_scaled (n d : Z) :
  0 < n -> 0 < d -> floor_log2 n d <= 52 ->
  2 ^ 52 * d <= n * 2 ^ (52 - floor_log2 n d) < 2 ^ 53 * d.
Proof.
  intros Hn Hd. unfold floor_log2.
  pose proof (Z.log2_spec n Hn) as [Hn1 Hn2].
  pose proof (Z.log2_spec d Hd) as [Hd1 Hd2].
  pose proof (Z.log2_nonneg n). pose proof (Z.log2_nonneg d).
  set (ln := Z.log2 n) in *. set (ld := Z.log2 d) in *.
  replace (Z.succ ln) with (ln + 1) in * by lia.
  replace (Z.succ ld) with (ld + 1) in * by lia.
  set (a := ln - ld).
  assert (Hp : forall x y, 0 <= x -> 0 <= y -> 2 ^ (x + y) = 2 ^ x * 2 ^ y)
    by (intros; by apply Z.pow_add_r).
  assert (Hpos : forall x, 0 <= x -> 0 < 2 ^ x)
    by (intros; by apply Z.pow_pos_nonneg).
  destruct (Z.leb_spec 0 a) as [Ha | Ha].
  - destruct (Z.leb_spec (d * 2 ^ a) n) as [Ht | Ht]; intros He.
    + (* e = a *)
      pose proof (Hpos (52 - a) ltac:(lia)).
      pose proof (Hpos a ltac:(lia)).
      assert (E1 : 2 ^ 52 = 2 ^ a * 2 ^ (52 - a))
        by (rewrite <- Hp by lia; f_equal; lia).
      assert (E2 : 2 ^ (ln + 1) * 2 ^ (52 - a) = 2 ^ ld * 2 ^ 53)
        by (rewrite <- !Hp by lia; f_equal; lia).
      split; nia.
    + (* e = a - 1 *)
      pose proof (Hpos (52 - (a - 1)) ltac:(lia)).
      pose proof (Hpos a ltac:(lia)).
      assert (E1 : 2 ^ 53 = 2 ^ a * 2 ^ (52 - (a - 1)))
        by (rewrite <- Hp by lia; f_equal; lia).
      assert (E2 : 2 ^ ln * 2 ^ (52 - (a - 1)) = 2 ^ (ld + 1) * 2 ^ 52)
        by (rewrite <- !Hp by lia; f_equal; lia).
      split; nia.
  - destruct (Z.leb_spec d (n * 2 ^ (- a))) as [Ht | Ht]; intros He.
    + pose proof (Hpos (- a) ltac:(lia)).
      assert (E1 : 2 ^ (52 - a) = 2 ^ (- a) * 2 ^ 52)
        by (rewrite <- Hp by lia; f_equal; lia).
      assert (E2 : 2 ^ (ln + 1) * 2 ^ (52 - a) = 2 ^ ld * 2 ^ 53)
        by (rewrite <- !Hp by lia; f_equal; lia).
      pose proof (Hpos (52 - a) ltac:(lia)).
      split; nia.
    + pose proof (Hpos (- a) ltac:(lia)).
      assert (E1 : 2 ^ (52 - (a - 1)) = 2 ^ (- a) * 2 ^ 53)
        by (rewrite <- Hp by lia; f_equal; lia).
      assert (E2 : 2 ^ ln * 2 ^ (52 - (a - 1)) = 2 ^ (ld + 1) * 2 ^ 52)
        by (rewrite <- !Hp by lia; f_equal; lia).
      pose proof (Hpos (52 - (a - 1)) ltac:(lia)).
      split; nia.
Qed.

Lemma to_double_repr (x : Q) :
  0 < Qnum x ->
  floor_log2 (Qnum x) (Z.pos (Qden x)) <= 52 ->
  let sh := 52 - Z.max (floor_log2 (Qnum x) (Z.pos (Qden x))) (-1022) in
  0 <= sh
  /\ (to_double x
      == Qmake (round_half_even (Qnum x * 2 ^ sh) (Z.pos (Qden x)))
               (Z.to_pos (2 ^ sh)))%Q.
Proof.
  intros Hn He sh. assert (Hsh : 0 <= sh) by (unfold sh; lia).
  split; [exact Hsh |].
  unfold to_double.
  assert (Ha : Z.abs (Qnum x) = Qnum x) by lia. rewrite Ha.
  destruct (Z.eqb_spec (Qnum x) 0); [lia |].
  destruct (Z.ltb_spec (Qnum x) 0); [lia |].
  fold sh. destruct (Z.leb_spec 0 sh); [| lia].
  rewrite Z.mul_1_l.
  set (k := round_half_even (Qnum x * 2 ^ sh) (Z.pos (Qden x))).
  unfold scale2. rewrite Qred_correct.
  replace (Z.max (floor_log2 (Qnum x) (Z.pos (Qden x))) (-1022) - 52)
    with (- sh) by (unfold sh; lia).
  rewrite Z.opp_involutive.
  destruct (Z.leb_spec 0 (- sh)).
  - assert (sh = 0) as -> by lia. simpl. unfold Qeq. simpl. lia.
  - reflexivity.
Qed.

Lemma pow2_pos (x : Z) : 0 <= x -> Z.pos (Z.to_pos (2 ^ x)) = 2 ^ x.
Proof.
  intros Hx. apply Z2Pos.id. by apply Z.pow_pos_nonneg.
Qed.

(** Rounding keeps a number between 0 and an integer bound. *)
Lemma to_double_le (x : Q) (B : Z) :
  (0 <= x)%Q -> (x <= inject_Z B)%Q -> B <= 2 ^ 52 ->
  (0 <= to_double x)%Q /\ (to_double x <= inject_Z B)%Q.
Proof.
  intros H0 HB HB52.
  destruct (Z.eq_dec (Qnum x) 0) as [Hz | Hz].
  { unfold to_double. rewrite Hz. simpl.
    split; [done |]. apply (Qle_trans _ x); done. }
  assert (Hn : 0 < Qnum x).
  { revert H0. unfold Qle. simpl. lia. }
  assert (HBn : Qnum x <= B * Z.pos (Qden x)).
  { revert HB. unfold Qle. simpl. lia. }
  assert (He : floor_log2 (Qnum x) (Z.pos (Qden x)) <= 52).
  { destruct (Z.le_gt_cases (floor_log2 (Qnum x) (Z.pos (Qden x))) 52) as [? | Hgt];
      [done |].
    pose proof (floor_log2_lower (Qnum x) (Z.pos (Qden x)) Hn ltac:(lia) ltac:(lia)) as Hl.
    assert (2 ^ 53 <= 2 ^ floor_log2 (Qnum x) (Z.pos (Qden x)))
      by (apply Z.pow_le_mono_r; lia).
    change (2 ^ 53) with (2 * 2 ^ 52) in *. nia. }
  destruct (to_double_repr x Hn He) as [Hsh Heq].
  set (sh := 52 - Z.max (floor_log2 (Qnum x) (Z.pos (Qden x))) (-1022)) in *.
  assert (Hp : 0 < 2 ^ sh) by (by apply Z.pow_pos_nonneg).
  rewrite Heq. unfold Qle. cbn [Qnum Qden inject_Z]. rewrite pow2_pos by done.
  split.
  - rewrite Z.mul_0_l, Z.mul_1_r. apply round_half_even_nonneg; nia.
  - rewrite Z.mul_1_r. apply round_half_even_le; [lia | nia].
Qed.

(** The relative error of rounding, for numbers between 1/128 and 128. *)
Lemma to_double_error (x : Q) :
  (1 # 128 <= x)%Q -> (x <= 128)%Q ->
  (to_double x - x <= x * (1 # 9007199254740992))%Q
  /\ (x - to_double x <= x * (1 # 9007199254740992))%Q.
Proof.
  intros Hlo Hhi.
  assert (Hn : 0 < Qnum x /\ Z.pos (Qden x) <= 128 * Qnum x
               /\ Qnum x <= 128 * Z.pos (Qden x)).
  { revert Hlo Hhi. unfold Qle. simpl. lia. }
  destruct Hn as (Hn & Hlo' & Hhi').
  set (n := Qnum x) in *. set (d := Z.pos (Qden x)) in *.
  assert (Hd : 0 < d) by (unfold d; lia).
  assert (He6 : floor_log2 n d <= 7).
  { destruct (Z.le_gt_cases (floor_log2 n d) 7) as [? | Hgt]; [done |].
    pose proof (floor_log2_lower n d Hn Hd ltac:(lia)) as Hl.
    assert (2 ^ 8 <= 2 ^ floor_log2 n d) by (apply Z.pow_le_mono_r; lia).
    change (2 ^ 8) with 256 in *. nia. }
  pose proof (floor_log2_scaled n d Hn Hd ltac:(lia)) as [Hs1 Hs2].
  assert (He7 : -7 <= floor_log2 n d).
  { destruct (Z.le_gt_cases (-7) (floor_log2 n d)) as [? | Hlt]; [done |].
    assert (2 ^ 60 <= 2 ^ (52 - floor_log2 n d)) by (apply Z.pow_le_mono_r; lia).
    change (2 ^ 60) with (128 * 2 ^ 53) in *. nia. }
  assert (He52 : floor_log2 (Qnum x) (Z.pos (Qden x)) <= 52)
    by (fold n d; lia).
  destruct (to_double_repr x Hn He52) as [Hsh Heq].
  fold n d in Heq, Hsh.
  replace (Z.max (floor_log2 n d) (-1022)) with (floor_log2 n d) in * by lia.
  set (sh := 52 - floor_log2 n d) in *.
  assert (Hp : 0 < 2 ^ sh) by (by apply Z.pow_pos_nonneg).
  pose proof (round_half_even_error (n * 2 ^ sh) d Hd) as Herr.
  set (k := round_half_even (n * 2 ^ sh) d) in *.
  rewrite Heq. destruct x as [xn xd]. cbn [Qnum Qden] in *. subst n d.
  unfold Qle, Qminus, Qplus, Qopp, Qmult. cbn [Qnum Qden].
  rewrite !Pos2Z.inj_mul, pow2_pos by done.
  set (P := 2 ^ sh) in *. set (d := Z.pos xd) in *.
  change (2 ^ 52) with 4503599627370496 in *.
  change (2 ^ 53) with 9007199254740992 in *.
  change (Z.pos 9007199254740992) with 9007199254740992.
  split.
  - assert (H1 : (k * d - xn * P) * 9007199254740992 <= xn * P) by nia.
    assert (H2 : 0 < P * d) by nia. nia.
  - assert (H1 : (xn * P - k * d) * 9007199254740992 <= xn * P) by nia.
    assert (H2 : 0 < P * d) by nia. nia.
Qed.

(** A number close enough to a six-digit percentage rounds to it. *)
Lemma round6_near (x : Q) (m X : Z) :
  pct_sig m X ->
  (1 <= x)%Q -> (x <= 100)%Q ->
  (Qmake m (Z.to_pos (10 ^ (5 - X))) * (999999999 # 1000000000) <= x)%Q ->
  (x <= Qmake m (Z.to_pos (10 ^ (5 - X))) * (1000000001 # 1000000000))%Q ->
  round6 x = Some (Sig6 false m X).
Proof.
  destruct x as [n d]. unfold pct_sig, Qle, Qmult. cbn [Qnum Qden].
  intros [Hm HX] H1 H100 Hlo Hhi. rewrite !Pos2Z.inj_mul in *.
  change (10 ^ 5) with 100000 in *. change (10 ^ 6) with 1000000 in *.
  unfold round6. cbn [Qnum Qden].
  change (10 ^ 5) with 100000. change (10 ^ 6) with 1000000.
  assert (Hn : Z.abs n = n) by lia. rewrite Hn.
  destruct (Z.eqb_spec n 0); [lia |].
  destruct (Z.ltb_spec n 0); [lia |].
  rewrite floor_log10_small by lia.
  set (D := Z.pos d) in *. assert (HD : 0 < D) by (unfold D; lia).
  assert (HmD : 100000 * D <= m * D < 1000000 * D) by nia.
  destruct HX as [-> | [-> | [-> ->]]].
  - (* X = 0 *)
    change (Z.pos (Z.to_pos (10 ^ (5 - 0)))) with 100000 in *.
    destruct (Z.leb_spec (D * 100) n); [nia |].
    destruct (Z.leb_spec (D * 10) n); [nia |].
    change (0 <=? 5 - 0) with true. cbv iota.
    change (10 ^ (5 - 0)) with 100000.
    rewrite (round_half_even_near _ D m) by (try lia; nia).
    destruct (Z.eqb_spec m 1000000); [lia | reflexivity].
  - (* X = 1 *)
    change (Z.pos (Z.to_pos (10 ^ (5 - 1)))) with 10000 in *.
    destruct (Z.leb_spec (D * 100) n); [nia |].
    destruct (Z.leb_spec (D * 10) n).
    + change (0 <=? 5 - 1) with true. cbv iota.
      change (10 ^ (5 - 1)) with 10000.
      rewrite (round_half_even_near _ D m) by (try lia; nia).
      destruct (Z.eqb_spec m 1000000); [lia | reflexivity].
    + assert (m = 100000) as -> by nia.
      change (0 <=? 5 - 0) with true. cbv iota.
      change (10 ^ (5 - 0)) with 100000.
      rewrite (round_half_even_near _ D 1000000) by (try lia; nia).
      reflexivity.
  - (* X = 2, the value 100 *)
    change (Z.pos (Z.to_pos (10 ^ (5 - 2)))) with 1000 in *.
    destruct (Z.leb_spec (D * 100) n).
    + change (0 <=? 5 - 2) with true. cbv iota.
      change (10 ^ (5 - 2)) with 1000.
      rewrite (round_half_even_near _ D 100000) by (try lia; nia).
      reflexivity.
    + destruct (Z.leb_spec (D * 10) n); [| nia].
      change (0 <=? 5 - 1) with true. cbv iota.
      change (10 ^ (5 - 1)) with 10000.
      rewrite (round_half_even_near _ D 1000000) by (try lia; nia).
      reflexivity.
Qed.

(** *** Capture, apply, capture *)

Lemma clamp_range (f : Q) : (0 <= clamp f)%Q /\ (clamp f <= 1)%Q.
Proof.
  unfold clamp, Py.max, Py.min.
  destruct (Qlt_le_dec f 1) as [H1 | H1];
    [destruct (Qlt_le_dec 0 f) as [H0 | H0] |
     destruct (Qlt_le_dec 0 1) as [H0 | H0]];
    split; try done; try (by apply Qlt_le_weak).
Qed.

Lemma transp_txt_zero (f : Q) :
  (f <= 0)%Q -> BgPresets._transp_to_txt f = "0"%string.
Proof.
  intros Hf. unfold BgPresets._transp_to_txt, Py.max, Py.min.
  destruct (Qlt_le_dec f 1) as [H1 | H1].
  - destruct (Qlt_le_dec 0 f) as [H0 | H0]; [| reflexivity].
    exfalso. by apply (Qlt_not_le _ _ H0).
  - exfalso. apply (Qlt_not_le 0 1); [reflexivity |]. by apply (Qle_trans _ f).
Qed.

Lemma numeral_value_nonneg (ip fp : list Z) (x : option Z) :
  Forall is_dec ip -> Forall is_dec fp ->
  (0 <= numeral_value (Numeral false ip fp x))%Q.
Proof.
  intros Hip Hfp. unfold numeral_value. cbn [nm_neg nm_int nm_frac nm_exp].
  assert (HM : 0 <= digits_val (ip ++ fp))
    by (apply digits_val_bound; by apply Forall_app).
  unfold scale10.
  destruct (0 <=? match x with Some e => e | None => 0 end - Z.of_nat (length fp))
    eqn:E.
  - apply Z.leb_le in E. unfold Qle, inject_Z. cbn [Qnum Qden].
    assert (0 <= 10 ^ (match x with Some e => e | None => 0 end
                       - Z.of_nat (length fp))) by (apply Z.pow_nonneg; lia).
    nia.
  - unfold Qle. cbn [Qnum Qden]. lia.
Qed.

Lemma capture_apply_spec (s : St) (b : BaseDraw) :
  active_bd s = Some b ->
  captured_transp s
  = Some (VStr (BgPresets._transp_to_txt (picture_transparency b)))
  /\ fst (capture_apply s) = Ok true
  /\ captured_transp (snd (capture_apply s))
     = Some (VStr (BgPresets._transp_to_txt
                     (BgPresets._transp_to_api
                        (VStr (BgPresets._transp_to_txt (picture_transparency b)))))).
Proof.
  intros Hb.
  unfold captured_transp, capture_apply, outcome, BgPresets._grab_current_dict,
    BgPresets._active_bd, bind, gets, ret.
  repeat (progress (cbn [fst snd]; rewrite ?Hb)).
  split; [reflexivity |].
  match goal with
  | |- context [BgPresets._apply_once (VDict ?d) s] =>
      assert (Ht : exists t, target d = Ok t
                /\ picture_transparency t
                   = BgPresets._transp_to_api
                       (VStr (BgPresets._transp_to_txt (picture_transparency b))))
  end.
  { unfold target, getd, py_or, bd_get. cbn [assoc String.eqb Ascii.eqb Bool.eqb truth].
    destruct (negb (String.eqb (picture b) "")); cbn [table_get float];
      eexists; split; reflexivity. }
  destruct Ht as (t & Ht & Htr).
  rewrite (apply_once_total _ t s Ht), Hb. cbn [fst snd].
  split; [reflexivity |].
  cbn [active_bd set_trace set_active_bd assoc String.eqb Ascii.eqb Bool.eqb].
  by rewrite Htr.
Qed.

Lemma scale10_lt_1 (M L E : Z) :
  0 <= M < 10 ^ L -> 0 <= L -> L + E <= 0 -> (scale10 (1 * M) E < 1)%Q.
Proof.
  intros HM HL HE. unfold scale10.
  destruct (Z.leb_spec 0 E) as [H0 | H0].
  - assert (L = 0) by lia. assert (E = 0) by lia. subst L E.
    change (10 ^ 0) with 1 in *. assert (M = 0) by lia. subst M. reflexivity.
  - unfold Qlt. cbn [Qnum Qden]. rewrite pow10_pos by lia.
    assert (10 ^ L <= 10 ^ (- E)) by (apply Z.pow_le_mono_r; lia). lia.
Qed.

(** What is printed for a six-digit rounding below 1 reads back as a
    number below 1. *)
Lemma below_value (m X : Z) :
  X <= -1 ->
  exists v,
    float_of_string
      (string_of_list_ascii (render_numeral (numeral_g (Sig6 false m X))))
    = Some v
    /\ (v < 1)%Q.
Proof.
  intros HX.
  set (D := digits_of 6 m).
  assert (HD : Forall is_dec D) by apply digits_of_dec.
  assert (HlenD : length D = 6%nat) by apply digits_of_length.
  unfold numeral_g. cbn [s_exp s_mant s_neg]. fold D.
  destruct (Z.ltb_spec X (-4)) as [H4 | H4]; cbn [orb].
  - (* scientific notation *)
    set (ip := take 1 D). set (fp := strip_trailing_zeros (drop 1 D)).
    assert (Hip : Forall is_dec ip) by (by apply Forall_take).
    assert (Hfp : Forall is_dec fp)
      by (apply strip_trailing_zeros_dec; by apply Forall_drop).
    assert (Hlen : length ip = 1%nat) by (unfold ip; rewrite length_take; lia).
    assert (Hne : ip <> []) by (intros E; by rewrite E in Hlen).
    rewrite float_of_rendered_exp by done.
    eexists. split; [reflexivity |].
    unfold numeral_value. cbn [nm_neg nm_int nm_frac nm_exp].
    apply (scale10_lt_1 _ (Z.of_nat (length (ip ++ fp)))).
    + apply digits_val_bound. by apply Forall_app.
    + lia.
    + rewrite length_app, Hlen. lia.
  - (* fixed notation *)
    destruct (Z.leb_spec 6 X); [lia |].
    destruct (Z.leb_spec 0 X); [lia |].
    set (fp := repeat 0 (Z.to_nat (- X - 1)) ++ strip_trailing_zeros D).
    assert (Hfp : Forall is_dec fp).
    { apply Forall_app. split.
      - apply Forall_forall. intros d Hd. rewrite list_elem_of_In in Hd.
        apply repeat_spec in Hd as ->.
        unfold is_dec. lia.
      - by apply strip_trailing_zeros_dec. }
    assert (Hip : Forall is_dec [0]) by (repeat constructor; unfold is_dec; lia).
    rewrite float_of_rendered by done.
    eexists. split; [reflexivity |].
    unfold numeral_value. cbn [nm_neg nm_int nm_frac nm_exp].
    apply (scale10_lt_1 _ (Z.of_nat (length fp))).
    + rewrite digits_val_app. change (digits_val [0]) with 0.
      rewrite Z.mul_0_l, Z.add_0_l. by apply digits_val_bound.
    + lia.
    + lia.
Qed.


Lemma below_value_nonneg (m X : Z) :
  X <= -1 ->
  exists v,
    float_of_string
      (string_of_list_ascii (render_numeral (numeral_g (Sig6 false m X))))
    = Some v
    /\ (0 <= v)%Q.
Proof.
  intros HX.
  set (D := digits_of 6 m).
  assert (HD : Forall is_dec D) by apply digits_of_dec.
  assert (HlenD : length D = 6%nat) by apply digits_of_length.
  unfold numeral_g. cbn [s_exp s_mant s_neg]. fold D.
  destruct (Z.ltb_spec X (-4)) as [H4 | H4]; cbn [orb].
  - assert (Hip : Forall is_dec (take 1 D)) by (by apply Forall_take).
    assert (Hfp : Forall is_dec (strip_trailing_zeros (drop 1 D)))
      by (apply strip_trailing_zeros_dec; by apply Forall_drop).
    assert (Hlen : length (take 1 D) = 1%nat) by (rewrite length_take; lia).
    assert (Hne : take 1 D <> []) by (intros E; by rewrite E in Hlen).
    rewrite float_of_rendered_exp by done.
    eexists. split; [reflexivity |]. by apply numeral_value_nonneg.
  - destruct (Z.leb_spec 6 X); [lia |].
    destruct (Z.leb_spec 0 X); [lia |].
    assert (Hfp : Forall is_dec
                    (repeat 0 (Z.to_nat (- X - 1)) ++ strip_trailing_zeros D)).
    { apply Forall_app. split.
      - apply Forall_forall. intros d Hd. rewrite list_elem_of_In in Hd.
        apply repeat_spec in Hd as ->.
        unfold is_dec. lia.
      - by apply strip_trailing_zeros_dec. }
    assert (Hip : Forall is_dec [0]) by (repeat constructor; unfold is_dec; lia).
    rewrite float_of_rendered by done.
    eexists. split; [reflexivity |]. by apply numeral_value_nonneg.
Qed.

(** The number that the captured text denotes: between 0 and 100, and
    when it is above 1, the six-digit rounding of the percentage. *)
Lemma captured_number (f : Q) :
  exists D,
    float_of_string (BgPresets._transp_to_txt f) = Some D
    /\ (0 <= D)%Q /\ (D <= 100)%Q
    /\ ((1 < D)%Q ->
        exists m X,
          pct_sig m X
          /\ round6 (to_double (clamp f * 100)) = Some (Sig6 false m X)
          /\ (D == Qmake m (Z.to_pos (10 ^ (5 - X))))%Q).
Proof.
  destruct (clamp_range f) as [Hc0 Hc1].
  assert (Hp : (0 <= to_double (clamp f * 100))%Q
               /\ (to_double (clamp f * 100) <= inject_Z 100)%Q).
  { apply to_double_le; [| | done].
    - apply Qmult_le_0_compat; done.
    - change (inject_Z 100) with (1 * 100)%Q. apply Qmult_le_compat_r; done. }
  destruct Hp as [Hp0 Hp100].
  unfold BgPresets._transp_to_txt, fmt_g. fold (clamp f).
  set (p := to_double (clamp f * 100)) in *.
  destruct (Qlt_le_dec 0 p) as [Hpos | Hneg].
  2:{ assert (Hz : Qnum p = 0).
      { revert Hp0 Hneg. unfold Qle. simpl. lia. }
      unfold round6. rewrite Hz. simpl.
      exists 0%Q. split; [vm_compute; reflexivity |]. split; [apply Qle_refl |].
      split; [by vm_compute |].
      intros H. by vm_compute in H. }
  destruct (Qlt_le_dec p 1) as [Hlt | Hge].
  - destruct (round6_below _ Hpos Hlt) as (m & X & Hr & Hm & HX).
    rewrite Hr. destruct HX as [HX | [-> ->]].
    + destruct (below_value m X HX) as (v & Hv & Hv1).
      destruct (below_value_nonneg m X HX) as (v' & Hv' & Hv0).
      rewrite Hv in Hv'. injection Hv' as <-.
      exists v. split; [exact Hv |]. split; [exact Hv0 |].
      split; [apply Qlt_le_weak; by apply (Qlt_trans _ 1) |].
      intros H. exfalso. apply (Qlt_irrefl 1). by apply (Qlt_trans _ v).
    + exists 1%Q. split; [vm_compute; reflexivity |]. split; [by vm_compute |].
      split; [by vm_compute |].
      intros H. by vm_compute in H.
  - destruct (round6_percent _ Hge Hp100) as (m & X & Hr & Hpct).
    destruct (numeral_g_percent m X Hpct) as (ip & fp & Hg & Hne' & Hip & Hfp & Hv).
    rewrite Hr, Hg. rewrite float_of_rendered by done.
    eexists. split; [reflexivity |].
    destruct (pct_value_bounds _ m X Hpct Hv) as (Hv1 & Hv100 & _).
    split; [by apply (Qle_trans _ 1) |]. split; [exact Hv100 |].
    intros _. exists m, X. done.
Qed.

Lemma transp_roundtrip (f : Q) :
  (f <= 0)%Q
  \/ (1 < BgPresets._safe_float (VStr (BgPresets._transp_to_txt f)))%Q ->
  BgPresets._transp_to_txt
    (BgPresets._transp_to_api (VStr (BgPresets._transp_to_txt f)))
  = BgPresets._transp_to_txt f.
Proof.
  intros [Hf | Hgt].
  - rewrite (transp_txt_zero f Hf). by vm_compute.
  - destruct (captured_number f) as (D & HD & HD0 & HD100 & Hbig).
    unfold BgPresets._transp_to_api, BgPresets._safe_float, float in *.
    rewrite HD in *.
    set (v := to_double D) in *.
    assert (HD1 : (1 < D)%Q).
    { destruct (Qlt_le_dec 1 D) as [? | Hle]; [done |]. exfalso.
      destruct (to_double_le D 1 HD0 Hle ltac:(done)) as [_ Hv1].
      fold v in Hv1. change (inject_Z 1) with 1%Q in Hv1. lra. }
    destruct (Hbig HD1) as (m & X & Hpct & Hr & HDm).
    set (Dm := Qmake m (Z.to_pos (10 ^ (5 - X)))) in *.
    assert (HDmin : (100001 # 100000 <= Dm)%Q).
    { assert (H1 : (1 < Dm)%Q) by (by rewrite <- HDm).
      revert H1. unfold Dm, Qle, Qlt. cbn [Qnum Qden].
      destruct Hpct as [Hm [-> | [-> | [-> ->]]]];
        change (10 ^ 5) with 100000 in *; change (10 ^ 6) with 1000000 in *;
        simpl; lia. }
    destruct (to_double_le D 100 HD0 HD100 ltac:(done)) as [Hv0 Hv100].
    fold v in Hv0, Hv100. change (inject_Z 100) with 100%Q in Hv100.
    destruct (to_double_error D ltac:(lra) ltac:(lra)) as [Ev1 Ev2].
    fold v in Ev1, Ev2.
    destruct (Qlt_le_dec 1 v) as [_ | Hle]; [| lra].
    assert (Hq : (v / 100 == v * (1 # 100))%Q) by (unfold Qdiv; reflexivity).
    destruct (to_double_le (v / 100) 1) as [Ha0 Ha1]; [lra | | done |].
    { change (inject_Z 1) with 1%Q. lra. }
    change (inject_Z 1) with 1%Q in Ha1.
    destruct (to_double_error (v / 100) ltac:(lra) ltac:(lra)) as [Ea1 Ea2].
    set (a := to_double (v / 100)) in *.
    unfold BgPresets._transp_to_txt at 1. unfold fmt_g at 1. fold (clamp a).
    assert (Hc : (clamp a == a)%Q).
    { unfold clamp, Py.max, Py.min.
      destruct (Qlt_le_dec a 1); [destruct (Qlt_le_dec 0 a) |
                                  destruct (Qlt_le_dec 0 1)]; lra. }
    destruct (to_double_le (clamp a * 100) 100) as [Hp0 Hp100]; [lra | | done |].
    { change (inject_Z 100) with 100%Q. lra. }
    change (inject_Z 100) with 100%Q in Hp100.
    destruct (to_double_error (clamp a * 100) ltac:(lra) ltac:(lra)) as [Ep1 Ep2].
    set (p2 := to_double (clamp a * 100)) in *.
    rewrite (round6_near p2 m X Hpct); fold Dm; try lra.
    unfold BgPresets._transp_to_txt, fmt_g. fold (clamp f). by rewrite Hr.
Qed.

End Percent.

(** C1 (as amended).  Capturing the viewport, applying the captured record
    back and capturing again yields the same transparency percentage
    string whenever the live transparency fraction is at most 0 (captured
    as "0") or the captured percentage string denotes a number greater
    than 1; the doubles nearest to the sample points 0, 50, 99 and 100 per
    cent are such.  The products and quotients by 100 are those of the
    doubles, rounded: the text is the six-digit rounding of a number that
    is not the exact percentage, and the fraction written back is not
    the exact hundredth of what the text denotes; the second capture still
    rounds to the same six digits.  (A captured percentage of at most 1 is
    written back unchanged, as a fraction: "1" comes back as "100".) *)
Theorem capture_apply_capture_transparency (s : St) (b : BaseDraw) :
  active_bd s = Some b ->
  (picture_transparency b <= 0)%Q
  \/ (1 < BgPresets._safe_float
            (VStr (BgPresets._transp_to_txt (picture_transparency b))))%Q ->
  captured_transp s
  = Some (VStr (BgPresets._transp_to_txt (picture_transparency b)))
  /\ fst (capture_apply s) = Ok true
  /\ captured_transp (snd (capture_apply s)) = captured_transp s.
Proof.
  intros Hb Hf.
  destruct (capture_apply_spec s b Hb) as (H1 & H2 & H3).
  split; [exact H1 |]. split; [exact H2 |].
  rewrite H3, H1, transp_roundtrip; [reflexivity | exact Hf].
Qed.

Lemma capture_apply_capture_transparency_witness :
  (captured_transp (viewport_with 0) = Some (VStr "0")
   /\ captured_transp (snd (capture_apply (viewport_with 0))) = Some (VStr "0"))
  /\ (captured_transp (viewport_with (1 # 2)) = Some (VStr "50")
      /\ captured_transp (snd (capture_apply (viewport_with (1 # 2))))
         = Some (VStr "50"))
  /\ (captured_transp (viewport_with (PyNum.to_double (99 # 100)))
      = Some (VStr "99")
      /\ captured_transp
           (snd (capture_apply (viewport_with (PyNum.to_double (99 # 100)))))
         = Some (VStr "99"))
  /\ (captured_transp (viewport_with 1) = Some (VStr "100")
      /\ captured_transp (snd (capture_apply (viewport_with 1)))
         = Some (VStr "100"))
  /\ (captured_transp (viewport_with (PyNum.to_double (1000005 # 100000000)))
      = Some (VStr "1.00001")
      /\ captured_transp
           (snd (capture_apply
                   (viewport_with (PyNum.to_double (1000005 # 100000000)))))
         = Some (VStr "1.00001")).
Proof.
  destruct (capture_apply_capture_transparency (viewport_with 0) _ eq_refl)
    as (A1 & _ & A2); [left; vm_compute; discriminate |].
  destruct (capture_apply_capture_transparency (viewport_with (1 # 2)) _ eq_refl)
    as (B1 & _ & B2); [right; vm_compute; reflexivity |].
  destruct (capture_apply_capture_transparency
              (viewport_with (PyNum.to_double (99 # 100))) _ eq_refl)
    as (C1 & _ & C2); [right; vm_compute; reflexivity |].
  destruct (capture_apply_capture_transparency (viewport_with 1) _ eq_refl)
    as (D1 & _ & D2); [right; vm_compute; reflexivity |].
  destruct (capture_apply_capture_transparency
              (viewport_with (PyNum.to_double (1000005 # 100000000))) _ eq_refl)
    as (E1 & _ & E2); [right; vm_compute; reflexivity |].
  rewrite A2, B2, C2, D2, E2. vm_compute. repeat split.
Defined.

(** C1, counterexample: at the sample point 1 (the double nearest to the
    fraction 0.01) the capture gives "1", apply writes it back as the
    fraction 1.0, and the second capture gives "100". *)
Lemma capture_apply_capture_counterexample :
  let s := viewport_with (PyNum.to_double (1 # 100)) in
  captured_transp s = Some (VStr "1")
  /\ fst (capture_apply s) = Ok true
  /\ captured_transp (snd (capture_apply s)) = Some (VStr "100")
  /\ captured_transp (snd (capture_apply s)) <> captured_transp s.
Proof. vm_compute. repeat split; discriminate. Qed.

(** * Further properties *)

Ltac run_m :=
  unfold state_after, outcome, BgPresets._refresh, BgPresets._write_json,
    BgPresets.open_w, BgPresets.json_dump, BgPresets._selected_indices,
    BgPresets._grab_current_dict, BgPresets._active_bd, BgPresets.SetTimer,
    try_except, bind, ret, raise, lift, gets, emit, modify.

(** ** Persistence *)

(** X1.  The two variants of [_read_json] agree on every state of the
    preference file: both return the list the file holds when it holds a
    JSON array and the empty list otherwise, raise nothing and change
    nothing (the [os.path.isfile] test of the second variant is covered by
    the [except] of the first). *)
Theorem read_json_variants_agree (s : St) :
  ViewportBack_Presets._read_json s = BgPresets._read_json s
  /\ BgPresets._read_json s
     = (Ok (match prefs_file s with Json (VList l) => l | _ => [] end), s).
Proof.
  unfold BgPresets._read_json, ViewportBack_Presets._read_json,
    ViewportBack_Presets.isfile, try_except, bind, gets, ret, BgPresets.open_r.
  destruct (prefs_file s) as [| |text|v] eqn:E;
    repeat (progress (simpl; rewrite ?E)); done.
Qed.

(** X2.  When the preference file cannot be opened for writing,
    [_write_json] returns normally, leaves the file as it was and reports
    the error text on the status line; nothing else changes. *)
Theorem write_json_failure_reported (l : list pyval) (s : St) (msg : string) :
  open_w_error s = Some msg ->
  BgPresets._write_json l s
  = (Ok tt, set_trace (trace s ++ [EvStatusSetText
                                     ("Could not save presets: " ++ msg)]) s)
  /\ prefs_file (state_after (BgPresets._write_json l) s) = prefs_file s.
Proof.
  intros H. unfold state_after, BgPresets._write_json, try_except, bind,
    BgPresets.open_w, emit, modify.
  rewrite H. by simpl.
Qed.

Lemma write_json_failure_reported_witness :
  prefs_file
    (state_after (BgPresets._write_json [example_record])
       (mkSt None keep_ratio (Json (VList [])) (Some "Permission denied"%string) []
             [] ∅ true VNone false))
  = Json (VList []).
Proof.
  exact (proj2 (write_json_failure_reported [example_record]
                  (mkSt None keep_ratio (Json (VList [])) (Some "Permission denied"%string) []
                        [] ∅ true VNone false)
                  "Permission denied" eq_refl)).
Defined.

(** ** Commands *)

Lemma command_add_eq (s : St) :
  BgPresets.Command BgPresets.IDC_ADD s
  = match BgPresets._grab_current_dict s with
    | (Ok it, s0) =>
        if negb (truth it)
        then (Ok true,
              set_trace (trace s0 ++ [EvMessageDialog
                 "No active viewport or unable to read settings."]) s0)
        else bind (BgPresets._refresh true) (fun _ => ret true)
                  (set_items (items s0 ++ [it]) s0)
    | (Raise e, s0) => (Raise e, s0)
    end.
Proof.
  unfold BgPresets.Command. change (BgPresets.IDC_ADD =? BgPresets.IDC_ADD) with true.
  cbv iota. unfold bind at 1.
  destruct (BgPresets._grab_current_dict s) as [[it | e] s0]; [| reflexivity].
  by destruct (negb (truth it)).
Qed.

Lemma grab_with_viewport (s : St) (b : BaseDraw) :
  active_bd s = Some b ->
  exists d, BgPresets._grab_current_dict s = (Ok (VDict d), s)
            /\ truth (VDict d) = true
            /\ assoc "transp" d
               = Some (VStr (BgPresets._transp_to_txt (picture_transparency b))).
Proof.
  intros Hb. unfold BgPresets._grab_current_dict, BgPresets._active_bd, bind, gets, ret.
  rewrite Hb. eexists. split; [reflexivity |]. split; reflexivity.
Qed.

(** X3.  A completed Add with a viewport and a writable preference file:
    the captured record is appended to the list, the whole list is
    written to the file, a following load returns exactly the list in
    memory, and neither the viewport nor the selection is touched. *)
Theorem add_persists (s : St) (b : BaseDraw) :
  active_bd s = Some b ->
  open_w_error s = None ->
  exists d,
    BgPresets._grab_current_dict s = (Ok (VDict d), s)
    /\ let s' := state_after (BgPresets.Command BgPresets.IDC_ADD) s in
       outcome (BgPresets.Command BgPresets.IDC_ADD) s = Ok true
       /\ items s' = items s ++ [VDict d]
       /\ prefs_file s' = Json (VList (items s'))
       /\ BgPresets._read_json s' = (Ok (items s'), s')
       /\ active_bd s' = active_bd s /\ sel s' = sel s.
Proof.
  intros Hb Hw.
  destruct (grab_with_viewport s b Hb) as (d & Hg & Ht & _).
  exists d. split; [exact Hg |].
  unfold state_after, outcome. rewrite command_add_eq, Hg, Ht. cbn [negb].
  run_m. simpl. destruct (tree s); simpl; rewrite Hw; simpl; repeat split.
Qed.

Lemma add_persists_witness :
  prefs_file (state_after (BgPresets.Command BgPresets.IDC_ADD) example_state)
  = Json (VList [example_record]).
Proof.
  destruct (add_persists example_state example_bd eq_refl eq_refl)
    as (d & Hg & _ & Hi & Hf & _).
  rewrite Hf, Hi. injection Hg as <-. reflexivity.
Defined.

(** X4.  A completed Add whose save fails: the captured record is in the
    list all the same (nothing is rolled back), the file is as it was, and
    the error is reported on the status line; the command returns [True]. *)
Theorem add_save_failure_keeps_record (s : St) (b : BaseDraw) (msg : string) :
  active_bd s = Some b ->
  open_w_error s = Some msg ->
  exists d,
    BgPresets._grab_current_dict s = (Ok (VDict d), s)
    /\ let s' := state_after (BgPresets.Command BgPresets.IDC_ADD) s in
       outcome (BgPresets.Command BgPresets.IDC_ADD) s = Ok true
       /\ items s' = items s ++ [VDict d]
       /\ prefs_file s' = prefs_file s
       /\ last (trace s')
          = Some (EvStatusSetText ("Could not save presets: " ++ msg)).
Proof.
  intros Hb Hw.
  destruct (grab_with_viewport s b Hb) as (d & Hg & Ht & _).
  exists d. split; [exact Hg |].
  unfold state_after, outcome. rewrite command_add_eq, Hg, Ht. cbn [negb].
  run_m. simpl. destruct (tree s); simpl; rewrite Hw; simpl;
    repeat split; apply last_snoc.
Qed.

Lemma add_save_failure_keeps_record_witness :
  let s := mkSt (Some example_bd) keep_ratio NoFile (Some "Disk full"%string) []
                [] ∅ true VNone false in
  items (state_after (BgPresets.Command BgPresets.IDC_ADD) s) = [example_record]
  /\ prefs_file (state_after (BgPresets.Command BgPresets.IDC_ADD) s) = NoFile.
Proof.
  intros s.
  destruct (add_save_failure_keeps_record s example_bd "Disk full" eq_refl eq_refl)
    as (d & Hg & _ & Hi & Hf & _).
  rewrite Hf, Hi. injection Hg as <-. split; reflexivity.
Defined.

(** X5.  Add without an active viewport only shows the notice: the list,
    the selection and the file stay as they are and nothing is saved. *)
Theorem add_without_viewport (s : St) :
  active_bd s = None ->
  BgPresets.Command BgPresets.IDC_ADD s
  = (Ok true,
     set_trace (trace s ++ [EvMessageDialog
                  "No active viewport or unable to read settings."]) s).
Proof.
  intros Hb. rewrite command_add_eq.
  unfold BgPresets._grab_current_dict, BgPresets._active_bd, bind, gets, ret.
  by rewrite Hb.
Qed.

Lemma add_without_viewport_witness :
  items (state_after (BgPresets.Command BgPresets.IDC_ADD)
           (set_active_bd None example_state)) = [].
Proof.
  unfold state_after.
  by rewrite (add_without_viewport (set_active_bd None example_state) eq_refl).
Defined.

(** X6.  A Delete with a non-empty selection and a writable preference
    file: the list without the selected positions is written to the file,
    stale indices included (they select nothing), and a following load
    returns exactly the list in memory. *)
Theorem delete_persists (s : St) :
  sel s <> ∅ ->
  open_w_error s = None ->
  let s' := state_after (BgPresets.Command BgPresets.IDC_DEL) s in
  items s' = unselected (sel s) (items s)
  /\ prefs_file s' = Json (VList (items s'))
  /\ BgPresets._read_json s' = (Ok (items s'), s').
Proof.
  intros Hne Hw s'. subst s'.
  split; [rewrite delete_items; apply pop_selected_unselected |].
  unfold state_after. rewrite delete_unfold.
  destruct (merge_sort Z.le (elements (sel s))) as [|i r] eqn:E.
  - by apply sorted_elements_nil in E.
  - run_m. simpl. destruct (tree s); simpl; rewrite Hw; simpl; split; reflexivity.
Qed.

Lemma delete_persists_witness :
  let s := set_sel {[0]} (set_items [example_record; VDict []] example_state) in
  prefs_file (state_after (BgPresets.Command BgPresets.IDC_DEL) s)
  = Json (VList [VDict []]).
Proof.
  intros s.
  assert (Hne : sel s <> ∅).
  { subst s. simpl. intros E.
    assert (Hin : (0 : Z) ∈ (∅ : gset Z)) by (rewrite <- E; set_solver).
    set_solver. }
  destruct (delete_persists s Hne eq_refl) as (Hi & Hf & _).
  rewrite Hf, Hi. reflexivity.
Defined.

(** X7.  Delete with nothing selected only shows the status message: the
    list and the file stay as they are and nothing is saved. *)
Theorem delete_nothing_selected (s : St) :
  sel s = ∅ ->
  BgPresets.Command BgPresets.IDC_DEL s
  = (Ok true, set_trace (trace s ++ [EvStatusSetText "No preset selected."]) s).
Proof.
  intros H. rewrite delete_unfold, H. reflexivity.
Qed.

Lemma delete_nothing_selected_witness :
  items (state_after (BgPresets.Command BgPresets.IDC_DEL)
           (set_items [example_record] example_state)) = [example_record].
Proof.
  unfold state_after.
  by rewrite (delete_nothing_selected (set_items [example_record] example_state)
                eq_refl).
Defined.

(** X8.  A widget id other than those of the three buttons is not handled:
    the command returns [False] and does nothing, in both variants. *)
Theorem unknown_command_ignored (first_of : gset Z -> Z) (wid : Z) (s : St) :
  wid <> BgPresets.IDC_ADD -> wid <> BgPresets.IDC_DEL ->
  wid <> BgPresets.IDC_APPLY ->
  BgPresets.Command wid s = (Ok false, s)
  /\ ViewportBack_Presets.Command first_of wid s = (Ok false, s).
Proof.
  intros H1 H2 H3. unfold BgPresets.Command, ViewportBack_Presets.Command.
  destruct (Z.eqb_spec wid BgPresets.IDC_ADD); [done |].
  destruct (Z.eqb_spec wid BgPresets.IDC_DEL); [done |].
  destruct (Z.eqb_spec wid BgPresets.IDC_APPLY); [done |].
  split; reflexivity.
Qed.

Lemma unknown_command_ignored_witness :
  BgPresets.Command BgPresets.IDC_TREE example_state = (Ok false, example_state).
Proof.
  exact (proj1 (unknown_command_ignored (fun _ => 0) BgPresets.IDC_TREE example_state
                  ltac:(discriminate) ltac:(discriminate) ltac:(discriminate))).
Defined.

(** ** What a pass over the viewport touches *)

Lemma dialog_frame_refl (s : St) : dialog_frame s s.
Proof. by repeat split. Qed.

Lemma dialog_frame_trans (s1 s2 s3 : St) :
  dialog_frame s1 s2 -> dialog_frame s2 s3 -> dialog_frame s1 s3.
Proof.
  unfold dialog_frame. intros (?&?&?&?&?&?&?&?) (?&?&?&?&?&?&?&?).
  repeat split; congruence.
Qed.

Lemma host_only_ret {A} (a : A) : host_only (ret a).
Proof. intros s. apply dialog_frame_refl. Qed.

Lemma host_only_lift {A} (r : res A) : host_only (lift r).
Proof. intros s. apply dialog_frame_refl. Qed.

Lemma host_only_gets {A} (f : St -> A) : host_only (gets f).
Proof. intros s. apply dialog_frame_refl. Qed.

Lemma host_only_bind {A B} (m : M A) (k : A -> M B) :
  host_only m -> (forall a, host_only (k a)) -> host_only (bind m k).
Proof.
  intros Hm Hk s. unfold bind. specialize (Hm s).
  destruct (m s) as [[a | e] s1]; [| exact Hm].
  eapply dialog_frame_trans; [exact Hm | apply Hk].
Qed.

Lemma host_only_set_param (p : param) (v : pyval) : host_only (set_param p v).
Proof.
  intros s. unfold set_param. destruct (active_bd s) as [b |]; [| apply dialog_frame_refl].
  destruct (bd_set (aspect_adjust s) p v b); [| apply dialog_frame_refl].
  unfold dialog_frame, timer_calls. simpl.
  rewrite List.filter_app. simpl. rewrite app_nil_r. by repeat split.
Qed.

Lemma host_only_emit (e : event) : is_timer e = false -> host_only (emit e).
Proof.
  intros He s. unfold emit, modify, dialog_frame, timer_calls. simpl.
  rewrite List.filter_app. simpl. rewrite He, app_nil_r. by repeat split.
Qed.

Ltac frame :=
  repeat first
    [ apply host_only_ret | apply host_only_lift | apply host_only_gets
    | apply host_only_set_param | (apply host_only_emit; reflexivity)
    | (apply host_only_bind; [| intros ?]) ].

Lemma apply_once_host_only (it : pyval) : host_only (BgPresets._apply_once it).
Proof.
  unfold BgPresets._apply_once, BgPresets._active_bd, BgPresets.set_float.
  apply host_only_bind; [frame |]. intros [b |]; frame.
Qed.

Lemma plain_apply_host_only (it : pyval) :
  host_only (ViewportBack_Presets._apply_dict_to_viewport it).
Proof.
  unfold ViewportBack_Presets._apply_dict_to_viewport, BgPresets._active_bd,
    BgPresets.set_float.
  apply host_only_bind; [frame |]. intros [b |]; frame.
Qed.

(** X9.  A pass over the viewport, in either variant and whatever the
    record and the outcome, touches nothing but the viewport parameters
    and the redraw notification: the list, the selection, the pending
    snapshot, the armed flag, the preference file and the timer are as
    before. *)
Theorem apply_touches_viewport_only (it : pyval) (s : St) :
  dialog_frame s (state_after (BgPresets._apply_once it) s)
  /\ dialog_frame s (state_after (ViewportBack_Presets._apply_dict_to_viewport it) s).
Proof.
  split; [apply apply_once_host_only | apply plain_apply_host_only].
Qed.

(** X10.  Without an active viewport a pass returns [False] and does
    nothing, in either variant and for any argument, a record or not. *)
Theorem apply_without_viewport (it : pyval) (s : St) :
  active_bd s = None ->
  BgPresets._apply_once it s = (Ok false, s)
  /\ ViewportBack_Presets._apply_dict_to_viewport it s = (Ok false, s).
Proof.
  intros Hb.
  unfold BgPresets._apply_once, ViewportBack_Presets._apply_dict_to_viewport,
    BgPresets._active_bd, bind, gets, ret.
  by rewrite Hb.
Qed.

Lemma apply_without_viewport_witness :
  BgPresets._apply_once example_record (set_active_bd None example_state)
  = (Ok false, set_active_bd None example_state).
Proof.
  exact (proj1 (apply_without_viewport example_record
                  (set_active_bd None example_state) eq_refl)).
Defined.

(** X11.  An item that is not a dict (a number, a string, a list: whatever
    a hand-edited file holds) has no [get]: with a viewport, [_apply_once]
    raises [AttributeError] before writing anything, while
    [_apply_dict_to_viewport] has already switched the picture on when it
    raises. *)
Theorem apply_non_dict_raises (it : pyval) (s : St) (b : BaseDraw) :
  active_bd s = Some b ->
  (forall d, it <> VDict d) ->
  BgPresets._apply_once it s = (Raise AttributeError, s)
  /\ exists b',
      ViewportBack_Presets._apply_dict_to_viewport it s
      = (Raise AttributeError,
         set_trace (trace s ++ [EvSet BASEDRAW_DATA_SHOWPICTURE (VBool true)])
                   (set_active_bd (Some b') s))
      /\ showpicture b' = true.
Proof.
  intros Hb Hit. destruct b.
  unfold BgPresets._apply_once, ViewportBack_Presets._apply_dict_to_viewport,
    BgPresets._active_bd, set_param, bind, gets, ret, lift, get.
  repeat (progress (simpl; rewrite ?Hb)).
  destruct it; try (split; [reflexivity | eexists; split; reflexivity]).
  by destruct (Hit d).
Qed.

Lemma apply_non_dict_raises_witness :
  BgPresets._apply_once (VInt 7) example_state = (Raise AttributeError, example_state).
Proof.
  exact (proj1 (apply_non_dict_raises (VInt 7) example_state example_bd eq_refl
                  ltac:(discriminate))).
Defined.

Ltac stop_step x :=
  destruct x eqn:?; simpl;
  [ | intros [= <-]; eexists _, _; split;
      [rewrite <- ?app_assoc; simpl; reflexivity | repeat split] ].

Lemma apply_once_interrupted
    (d : list (string * pyval)) (s : St) (b : BaseDraw) (e : exn) :
  active_bd s = Some b ->
  target d = Raise e ->
  exists b' evs,
    BgPresets._apply_once (VDict d) s
    = (Raise e, set_trace (trace s ++ evs) (set_active_bd (Some b') s))
    /\ keep_aspect b' = false /\ showpicture b' = true
    /\ forallb is_set evs = true.
Proof.
  intros Hb. destruct b.
  unfold target, BgPresets._apply_once, BgPresets.set_float,
    BgPresets._active_bd, set_param, bind, ret, lift, gets, emit, modify,
    get, getd.
  repeat (progress (simpl; rewrite ?Hb)).
  destruct (match assoc "image" d with Some v => v | None => VStr "" end) eqn:Eimg;
    simpl;
    try solve [ intros [= <-]; eexists _, _; split;
                [rewrite <- ?app_assoc; simpl; reflexivity | repeat split] ].
  stop_step (table_get BgPresets._MODE_FROM_TXT
               match assoc "mode" d with Some v => v | None => VStr "Linear" end
               BASEDRAW_DATA_BACKIMAGEMODE_LINEAR).
  stop_step (float match assoc "offX" d with Some v => v | None => VInt 0 end).
  stop_step (float match assoc "offY" d with Some v => v | None => VInt 0 end).
  stop_step (float match assoc "rot" d with Some v => v | None => VInt 0 end).
  stop_step (float match assoc "sizeX" d with Some v => v | None => VInt 0 end).
  stop_step (float match assoc "sizeY" d with Some v => v | None => VInt 0 end).
  stop_step (table_get BgPresets._ALPHA_FROM_TXT
               match assoc "alpha" d with Some v => v | None => VStr "None" end
               BASEDRAW_ALPHA_NONE).
  discriminate.
Qed.

(** X12.  When a value of the record does not convert (an offset that is
    not a number, an image that is not a string, a mode that is a list),
    [_apply_once] raises in mid-pass: the aspect lock, cleared at the
    start, is never written again and stays released whatever the record's
    [keep] and the lock's state before; the picture is shown; only
    parameter writes were made, no redraw notification. *)
Theorem interrupted_pass_leaves_lock_released
    (d : list (string * pyval)) (s : St) (b : BaseDraw) (e : exn) :
  active_bd s = Some b ->
  target d = Raise e ->
  let s' := state_after (BgPresets._apply_once (VDict d)) s in
  outcome (BgPresets._apply_once (VDict d)) s = Raise e
  /\ (exists b', active_bd s' = Some b'
                 /\ keep_aspect b' = false /\ showpicture b' = true)
  /\ (exists evs, trace s' = trace s ++ evs /\ forallb is_set evs = true).
Proof.
  intros Hb Ht s'. subst s'.
  destruct (apply_once_interrupted d s b e Hb Ht) as (b' & evs & Heq & Hk & Hs & He).
  unfold outcome, state_after. rewrite Heq. simpl.
  split; [reflexivity |]. split; [by exists b' | by exists evs].
Qed.

Lemma interrupted_pass_leaves_lock_released_witness :
  let d := [("keep", VInt 1); ("offX", VStr "wide")]%string in
  keep_aspect example_bd = true
  /\ exists b',
      active_bd (state_after (BgPresets._apply_once (VDict d)) example_state)
      = Some b' /\ keep_aspect b' = false /\ showpicture b' = true.
Proof.
  intros d. split; [reflexivity |].
  exact (proj1 (proj2 (interrupted_pass_leaves_lock_released
                         d example_state example_bd ValueError eq_refl eq_refl))).
Defined.

Lemma plain_result_unlocked
    (adjust : param -> Q -> BaseDraw -> Q) (b t : BaseDraw) :
  showpicture t = true -> keep_aspect t = false -> plain_result adjust b t = t.
Proof.
  destruct t. unfold plain_result. simpl. by intros -> ->.
Qed.

Lemma plain_result_same_sizes
    (adjust : param -> Q -> BaseDraw -> Q) (b t : BaseDraw) :
  showpicture t = true -> sizex t = sizex b -> sizey t = sizey b ->
  plain_result adjust b t = t.
Proof.
  destruct t, b. unfold plain_result. simpl. intros -> -> ->.
  repeat (rewrite ?Qeq_bool_refl, ?andb_false_r; cbn [negb]; cbv iota).
  reflexivity.
Qed.

(** X13.  A completed pass of [_apply_once] leaves a viewport that the
    record alone determines: every one of the eleven parameters is
    overwritten, and the lock is released before the sizes are written, so
    the result depends neither on the viewport before nor on what the host
    does to the sizes under an engaged lock.  The pass of the second
    variant writes the lock before the sizes: it leaves the same viewport
    when the record releases the lock, and otherwise the same parameters
    but for the first size, which the host adjusts at the write of the
    second. *)
Theorem apply_result_from_record_alone
    (d : list (string * pyval)) (t : BaseDraw) (s1 s2 : St) (b1 b2 : BaseDraw) :
  target d = Ok t ->
  active_bd s1 = Some b1 ->
  active_bd s2 = Some b2 ->
  active_bd (state_after (BgPresets._apply_once (VDict d)) s1) = Some t
  /\ active_bd (state_after (BgPresets._apply_once (VDict d)) s2) = Some t
  /\ outcome (BgPresets._apply_once (VDict d)) s1 = Ok true
  /\ outcome (ViewportBack_Presets._apply_dict_to_viewport (VDict d)) s1 = Ok true
  /\ (keep_aspect t = false ->
      active_bd (state_after (ViewportBack_Presets._apply_dict_to_viewport (VDict d)) s1)
      = Some t)
  /\ exists sx,
      active_bd (state_after (ViewportBack_Presets._apply_dict_to_viewport (VDict d)) s1)
      = Some (mkBaseDraw true (picture t) (backimagemode t) (keep_aspect t)
                (offsetx t) (offsety t) (picture_rotation t) sx (sizey t)
                (picture_transparency t) (picture_usealpha t)).
Proof.
  intros Ht H1 H2.
  pose proof (apply_once_spec d s1 b1 H1) as A1.
  pose proof (apply_once_spec d s2 b2 H2) as A2.
  pose proof (plain_apply_spec d s1 b1 H1) as A3.
  rewrite Ht in A1, A2, A3.
  destruct (target_shown d t Ht) as [Hshow _].
  unfold state_after, outcome. rewrite A1, A2, A3. cbn [fst snd active_bd set_trace set_active_bd].
  repeat split.
  - intros Hk. by rewrite plain_result_unlocked.
  - eexists. reflexivity.
Qed.

Lemma apply_result_from_record_alone_witness :
  active_bd (state_after (BgPresets._apply_once example_record) example_state)
  = active_bd (state_after (BgPresets._apply_once example_record)
                 (viewport_with (1 # 2))).
Proof.
  destruct (apply_result_from_record_alone
              [("image", VStr "/tmp/a.png"); ("mode", VStr "Linear");
               ("keep", VInt 1); ("offX", VFloat 0); ("offY", VFloat 0);
               ("rot", VFloat 0); ("sizeX", VFloat 16); ("sizeY", VFloat 9);
               ("transp", VStr "25"); ("alpha", VStr "None")]%string
              (mkBaseDraw true "/tmp/a.png" 1 true 0 0 0 16 9
                          (BgPresets._transp_to_api (VStr "25")) 0)
              example_state (viewport_with (1 # 2)) _ _ eq_refl eq_refl eq_refl)
    as (A & B & _).
  exact (eq_trans A (eq_sym B)).
Defined.

(** X14.  A second pass with the same record, the thing the timer does,
    writes the same values again: after a completed pass another one
    leaves every viewport parameter as it is and adds exactly the same
    writes to the trace. *)
Theorem second_pass_changes_nothing
    (d : list (string * pyval)) (s : St) (b : BaseDraw) :
  active_bd s = Some b ->
  outcome (BgPresets._apply_once (VDict d)) s = Ok true ->
  let s1 := state_after (BgPresets._apply_once (VDict d)) s in
  let s2 := state_after (BgPresets._apply_once (VDict d)) s1 in
  outcome (BgPresets._apply_once (VDict d)) s1 = Ok true
  /\ active_bd s2 = active_bd s1
  /\ exists evs, trace s1 = trace s ++ evs /\ trace s2 = trace s1 ++ evs.
Proof.
  intros Hb Hok s1 s2. subst s1 s2.
  pose proof (apply_once_spec d s b Hb) as A.
  destruct (target d) as [t | e] eqn:Et.
  - unfold outcome, state_after. rewrite A. cbn [fst snd].
    rewrite (apply_once_total d t _ Et). simpl.
    split; [reflexivity |]. split; [reflexivity |].
    exists (pass_events t). by split.
  - destruct A as [A _]. congruence.
Qed.

Lemma second_pass_changes_nothing_witness :
  active_bd (state_after (BgPresets._apply_once example_record)
               (state_after (BgPresets._apply_once example_record) example_state))
  = active_bd (state_after (BgPresets._apply_once example_record) example_state).
Proof.
  exact (proj1 (proj2 (second_pass_changes_nothing
                         [("image", VStr "/tmp/a.png"); ("mode", VStr "Linear");
                          ("keep", VInt 1); ("offX", VFloat 0); ("offY", VFloat 0);
                          ("rot", VFloat 0); ("sizeX", VFloat 16); ("sizeY", VFloat 9);
                          ("transp", VStr "25"); ("alpha", VStr "None")]%string
                         example_state example_bd eq_refl eq_refl))).
Defined.

(** ** The Apply command and the timer, whatever the outcome *)

(** X15.  Apply with one selected record and no active viewport writes
    nothing and shows nothing, yet stores the snapshot and arms the timer:
    the delayed pass is scheduled all the same. *)
Theorem apply_without_viewport_still_schedules
    (s : St) (i : Z) (d : list (string * pyval)) :
  sel s = {[i]} ->
  index (items s) i = Ok (VDict d) ->
  active_bd s = None ->
  BgPresets.Command BgPresets.IDC_APPLY s
  = (Ok true,
     let s1 := set_pending_apply (VDict d) s in
     if timer_armed s then s1
     else set_timer_armed true
            (set_trace (trace s1 ++ [EvSetTimer BgPresets.TIMER_DELAY_MS]) s1)).
Proof.
  intros Hsel Hidx Hb.
  rewrite apply_unfold, Hsel, sorted_elements_singleton.
  unfold BgPresets._apply_once, BgPresets._active_bd, BgPresets.SetTimer,
    bind, lift, gets, emit, modify, ret.
  repeat (progress (simpl; rewrite ?Hidx, ?Hb)).
  destruct (timer_armed s) eqn:Ea; simpl; rewrite ?Ea; reflexivity.
Qed.

Lemma apply_without_viewport_still_schedules_witness :
  let s := set_active_bd None
             (set_sel {[0]} (set_items [example_record] example_state)) in
  timer_armed (state_after (BgPresets.Command BgPresets.IDC_APPLY) s) = true
  /\ writes (trace (state_after (BgPresets.Command BgPresets.IDC_APPLY) s)) = [].
Proof.
  intros s. unfold state_after.
  rewrite (apply_without_viewport_still_schedules s 0
             [("image", VStr "/tmp/a.png"); ("mode", VStr "Linear");
              ("keep", VInt 1); ("offX", VFloat 0); ("offY", VFloat 0);
              ("rot", VFloat 0); ("sizeX", VFloat 16); ("sizeY", VFloat 9);
              ("transp", VStr "25"); ("alpha", VStr "None")]%string
             eq_refl eq_refl eq_refl).
  split; reflexivity.
Defined.

Lemma index_out_of_range {A} (l : list A) (i : Z) :
  Z.of_nat (length l) <= i \/ i < - Z.of_nat (length l) ->
  index l i = Raise IndexError.
Proof.
  intros H. unfold index.
  destruct (Z.ltb_spec i 0);
    [destruct (Z.leb_spec 0 (i + Z.of_nat (length l))); [lia | reflexivity] |].
  destruct (Z.leb_spec 0 i); [| lia].
  destruct (Z.ltb_spec i (Z.of_nat (length l))); [lia | reflexivity].
Qed.

Lemma index_in_range {A} (l : list A) (i : Z) :
  0 <= i < Z.of_nat (length l) -> exists x, index l i = Ok x.
Proof.
  intros H. unfold index.
  destruct (Z.ltb_spec i 0); [lia |].
  destruct (Z.leb_spec 0 i); [| lia].
  destruct (Z.ltb_spec i (Z.of_nat (length l))); [| lia]. simpl.
  destruct (lookup_lt_is_Some_2 l (Z.to_nat i)) as [x Hx]; [lia |].
  rewrite Hx. by exists x.
Qed.

(** X16.  Apply with a single selected index that is no position of the
    list (one left over from a shorter list) raises [IndexError] before
    anything is done: no write, no snapshot, no timer. *)
Theorem apply_stale_index_raises (s : St) (i : Z) :
  sel s = {[i]} ->
  Z.of_nat (length (items s)) <= i \/ i < - Z.of_nat (length (items s)) ->
  BgPresets.Command BgPresets.IDC_APPLY s = (Raise IndexError, s).
Proof.
  intros Hsel Hi.
  rewrite apply_unfold, Hsel, sorted_elements_singleton.
  unfold bind, lift, gets.
  repeat (progress (simpl; rewrite ?(index_out_of_range _ _ Hi))). reflexivity.
Qed.

Lemma apply_stale_index_raises_witness :
  outcome (BgPresets.Command BgPresets.IDC_APPLY)
          (set_sel {[3]} (set_items [example_record] example_state))
  = Raise IndexError.
Proof.
  assert (H : BgPresets.Command BgPresets.IDC_APPLY
                (set_sel {[3]} (set_items [example_record] example_state))
              = (Raise IndexError,
                 set_sel {[3]} (set_items [example_record] example_state))).
  { apply (apply_stale_index_raises _ 3); [reflexivity | left; simpl; lia]. }
  exact (f_equal fst H).
Defined.

Ltac unchanged :=
  unfold ret; cbn [fst snd];
  split; [by auto | split; [by auto | split; [by auto |]]];
  left; repeat split; congruence.

Lemma apply_command_cases (s : St) :
  let s' := state_after (BgPresets.Command BgPresets.IDC_APPLY) s in
  items s' = items s /\ sel s' = sel s /\ prefs_file s' = prefs_file s
  /\ ((pending_apply s' = pending_apply s /\ timer_armed s' = timer_armed s
       /\ timer_calls (trace s') = timer_calls (trace s))
      \/ (timer_armed s' = true
          /\ timer_calls (trace s')
             = timer_calls (trace s)
               ++ (if timer_armed s then []
                   else [EvSetTimer BgPresets.TIMER_DELAY_MS]))).
Proof.
  cbv zeta. unfold state_after. rewrite apply_unfold.
  destruct (merge_sort Z.le (elements (sel s))) as [|i [|j r]];
    try (unfold bind, emit, modify, ret, timer_calls; simpl;
         rewrite List.filter_app; simpl; rewrite app_nil_r;
         repeat (split; [reflexivity |]); left; by repeat split).
  unfold bind, gets, lift.
  destruct (index (items s) i) as [item | e]; cbv beta iota; [| unchanged].
  pose proof (apply_once_host_only item s) as F.
  destruct (BgPresets._apply_once item s) as [[ok | e] s1]; cbn [snd] in F;
    destruct F as (Fi & Fs & Fp & Fa & _ & Ff & _ & Ft); [| unchanged].
  destruct (dict item) as [copy | e]; cbv beta iota; [| unchanged].
  unfold BgPresets.SetTimer, bind, gets, emit, modify, ret, timer_calls in *.
  simpl. rewrite Fa.
  destruct (timer_armed s); simpl;
    rewrite ?List.filter_app; simpl; rewrite ?app_nil_r;
    (split; [by auto | split; [by auto | split; [by auto |]]]);
    right; by rewrite Ft.
Qed.

Lemma timer_cases (s : St) :
  let s' := state_after BgPresets.Timer s in
  items s' = items s /\ sel s' = sel s /\ prefs_file s' = prefs_file s
  /\ ((pending_apply s' = pending_apply s /\ timer_armed s' = timer_armed s
       /\ timer_calls (trace s') = timer_calls (trace s))
      \/ (timer_armed s = true /\ timer_armed s' = false
          /\ truth (pending_apply s') = false
          /\ timer_calls (trace s') = timer_calls (trace s) ++ [EvSetTimer 0])).
Proof.
  cbv zeta. unfold state_after, BgPresets.Timer.
  unfold bind, gets.
  destruct (timer_armed s) eqn:Ea; cbn [negb]; cbv beta iota; [| unchanged].
  destruct (truth (pending_apply s)) eqn:Ep; cbv beta iota.
  - pose proof (apply_once_host_only (pending_apply s) s) as F.
    destruct (BgPresets._apply_once (pending_apply s) s) as [[ok | e] s1];
      cbn [snd] in F; destruct F as (Fi & Fs & Fp & Fa & _ & Ff & _ & Ft);
      [| unchanged].
    unfold BgPresets.SetTimer, bind, gets, emit, modify, ret, timer_calls in *.
    simpl. rewrite !List.filter_app. simpl. rewrite !app_nil_r.
    (split; [by auto | split; [by auto | split; [by auto |]]]).
    right. by rewrite Ft.
  - unfold BgPresets.SetTimer, bind, gets, emit, modify, ret, timer_calls.
    simpl. rewrite !List.filter_app. simpl. rewrite !app_nil_r.
    (split; [by auto | split; [by auto | split; [by auto |]]]).
    by right.
Qed.

(** ** What holds throughout the life of a dialog *)

Lemma add_items (s : St) :
  exists l,
    items (state_after (BgPresets.Command BgPresets.IDC_ADD) s) = items s ++ l.
Proof.
  unfold state_after. rewrite command_add_eq. run_m.
  destruct (active_bd s) as [b |]; simpl.
  - eexists [_].
    destruct (tree s); simpl; destruct (open_w_error s); simpl; reflexivity.
  - exists []. simpl. by rewrite app_nil_r.
Qed.

Lemma command_other (wid : Z) (s : St) :
  wid <> BgPresets.IDC_ADD -> wid <> BgPresets.IDC_DEL ->
  wid <> BgPresets.IDC_APPLY ->
  BgPresets.Command wid s = (Ok false, s).
Proof.
  intros H1 H2 H3. unfold BgPresets.Command.
  destruct (Z.eqb_spec wid BgPresets.IDC_ADD); [done |].
  destruct (Z.eqb_spec wid BgPresets.IDC_DEL); [done |].
  by destruct (Z.eqb_spec wid BgPresets.IDC_APPLY).
Qed.

Lemma serve_sel_valid (r : request) (s : St) :
  offered r s = true -> sel_valid s -> sel_valid (serve r s).
Proof.
  intros Ho Hv. destruct r as [wid | | obj mode]; simpl in *.
  - destruct (Z.eq_dec wid BgPresets.IDC_ADD) as [-> | H1].
    { destruct (add_frame s) as (Hs & _). destruct (add_items s) as [l Hl].
      intros i Hi. rewrite Hs in Hi. rewrite Hl, length_app.
      specialize (Hv i Hi). lia. }
    destruct (Z.eq_dec wid BgPresets.IDC_DEL) as [-> | H2].
    { destruct (delete_frame s) as (Hs & _).
      intros i Hi. rewrite Hs in Hi. set_solver. }
    destruct (Z.eq_dec wid BgPresets.IDC_APPLY) as [-> | H3].
    { destruct (apply_command_cases s) as (Hi & Hs & _).
      intros i. rewrite Hi, Hs. apply Hv. }
    unfold state_after. by rewrite command_other.
  - destruct (timer_cases s) as (Hi & Hs & _).
    intros i. rewrite Hi, Hs. apply Hv.
  - apply andb_true_iff in Ho as [Ho1 Ho2].
    apply Z.leb_le in Ho1. apply Z.ltb_lt in Ho2.
    destruct (select_frame obj mode s) as (_ & _ & _ & _ & Hi).
    intros i. rewrite Hi. clear Hi.
    unfold state_after, BgPresets.Select, bind, modify, ret.
    destruct (mode =? SELECTION_NEW); simpl.
    { rewrite elem_of_singleton. intros ->. lia. }
    destruct (mode =? SELECTION_ADD); simpl.
    { rewrite elem_of_union, elem_of_singleton. intros [Hin | ->]; [by apply Hv | lia]. }
    destruct (mode =? SELECTION_SUB); simpl.
    { rewrite elem_of_difference. intros [Hin _]. by apply Hv. }
    apply Hv.
Qed.

Lemma serve_timer_sync (r : request) (s : St) :
  timer_sync s -> timer_sync (serve r s).
Proof.
  intros [Hh Hp]. unfold timer_sync, host_timer in *.
  destruct r as [wid | | obj mode]; simpl.
  - destruct (Z.eq_dec wid BgPresets.IDC_ADD) as [-> | H1].
    { destruct (add_frame s) as (_ & Hpe & Ha & _ & _ & Htc & _).
      by rewrite Htc, Hpe, Ha. }
    destruct (Z.eq_dec wid BgPresets.IDC_DEL) as [-> | H2].
    { destruct (delete_frame s) as (_ & Hpe & Ha & _ & _ & Htc & _).
      by rewrite Htc, Hpe, Ha. }
    destruct (Z.eq_dec wid BgPresets.IDC_APPLY) as [-> | H3].
    { destruct (apply_command_cases s)
        as (_ & _ & _ & [(Hpe & Ha & Htc) | (Ha & Htc)]).
      - by rewrite Htc, Hpe, Ha.
      - rewrite Htc, Ha. split; [| done].
        destruct (timer_armed s); [by rewrite app_nil_r | by rewrite last_snoc]. }
    unfold state_after. by rewrite command_other.
  - destruct (timer_cases s)
      as (_ & _ & _ & [(Hpe & Ha & Htc) | (_ & Ha & Hpe & Htc)]).
    + by rewrite Htc, Hpe, Ha.
    + rewrite Htc, Ha, Hpe, last_snoc. by split.
  - destruct (select_frame obj mode s) as (Hpe & Ha & Htr & _).
    by rewrite Htr, Hpe, Ha.
Qed.

Lemma open_dialog_eq (s0 : St) :
  open_dialog s0
  = (Ok true,
     mkSt (active_bd s0) (aspect_adjust s0) (prefs_file s0) (open_w_error s0)
          (trace s0 ++ [EvTreeRefresh; EvSetTimer 0])
          (match prefs_file s0 with Json (VList l) => l | _ => [] end)
          ∅ true VNone false).
Proof.
  unfold open_dialog, BgPresets.InitValues, BgPresets.CreateLayout,
    BgPresets.init, BgPresets._read_json, BgPresets.open_r, BgPresets.json_load,
    BgPresets.SetTimer, state_after, try_except, bind, raise, gets, emit, modify,
    ret.
  destruct (prefs_file s0) as [| | text | v] eqn:E;
    repeat (progress (simpl; rewrite ?E)); rewrite <- ?app_assoc; done.
Qed.

Lemma session_sel_valid (rs : list request) (s : St) :
  offered_all rs s = true -> sel_valid s -> sel_valid (session rs s).
Proof.
  revert s. induction rs as [| r rs IH]; intros s Ho Hv; [exact Hv |].
  simpl in *. apply andb_true_iff in Ho as [Ho1 Ho2].
  apply IH; [exact Ho2 |]. by apply serve_sel_valid.
Qed.

Lemma session_timer_sync (rs : list request) (s : St) :
  timer_sync s -> timer_sync (session rs s).
Proof.
  revert s. induction rs as [| r rs IH]; intros s Hv; [exact Hv |].
  simpl. apply IH. by apply serve_timer_sync.
Qed.

(** X17.  Opening the dialog ([__init__], [CreateLayout], [InitValues])
    returns [True] and leaves the list that the preference file holds (the
    empty list when the file is missing, unreadable or not a JSON array),
    an empty selection, nothing pending and the timer switched off by a
    [SetTimer(0)]; the viewport and the file are not written. *)
Theorem open_dialog_loads_presets (s0 : St) :
  let s := snd (open_dialog s0) in
  fst (open_dialog s0) = Ok true
  /\ items s = match prefs_file s0 with Json (VList l) => l | _ => [] end
  /\ sel s = ∅ /\ truth (pending_apply s) = false /\ timer_armed s = false
  /\ last (trace s) = Some (EvSetTimer 0)
  /\ active_bd s = active_bd s0 /\ writes (trace s) = writes (trace s0)
  /\ prefs_file s = prefs_file s0.
Proof.
  rewrite open_dialog_eq. cbn [fst snd items sel pending_apply timer_armed
    trace active_bd prefs_file].
  repeat split.
  - change [EvTreeRefresh; EvSetTimer 0] with ([EvTreeRefresh] ++ [EvSetTimer 0]).
    by rewrite app_assoc, last_snoc.
  - unfold writes. rewrite List.filter_app. simpl. by rewrite app_nil_r.
Qed.

(** X18.  From the opening of the dialog on, whatever widgets are
    pressed, whenever the timer ticks and whichever rows of the tree are
    clicked, every selected index is a position of the list: Add keeps the
    selection and only appends, Delete empties the selection, Apply and
    the timer touch neither. *)
Theorem selection_always_valid (rs : list request) (s0 : St) :
  offered_all rs (snd (open_dialog s0)) = true ->
  sel_valid (session rs (snd (open_dialog s0))).
Proof.
  intros Ho. apply session_sel_valid; [exact Ho |].
  rewrite open_dialog_eq. intros i Hi. simpl in Hi. set_solver.
Qed.

Lemma selection_always_valid_witness :
  sel_valid
    (session [Press BgPresets.IDC_ADD; Press BgPresets.IDC_ADD;
              Pick 1 SELECTION_NEW; Pick 0 SELECTION_ADD;
              Press BgPresets.IDC_APPLY; Press BgPresets.IDC_DEL; Tick]
             (snd (open_dialog example_state))).
Proof.
  apply (selection_always_valid
           [Press BgPresets.IDC_ADD; Press BgPresets.IDC_ADD;
            Pick 1 SELECTION_NEW; Pick 0 SELECTION_ADD;
            Press BgPresets.IDC_APPLY; Press BgPresets.IDC_DEL; Tick]
           example_state).
  vm_compute. reflexivity.
Defined.

(** X19.  From the opening of the dialog on, through any requests, the
    flag [timer_armed] of the dialog says what the host timer does: the
    latest [SetTimer] call asked for [TIMER_DELAY_MS] when the flag is set
    and for 0 when it is not; and a snapshot is pending only while the
    timer is armed, so that no stored snapshot is left without a tick to
    come. *)
Theorem timer_flag_mirrors_host_timer (rs : list request) (s0 : St) :
  timer_sync (session rs (snd (open_dialog s0))).
Proof.
  apply session_timer_sync. rewrite open_dialog_eq.
  unfold timer_sync, host_timer, timer_calls. cbn [snd trace timer_armed pending_apply].
  rewrite List.filter_app. simpl. rewrite last_snoc. by split.
Qed.

(** ** A tick whose pass fails *)

Lemma sets_no_timer (evs : list event) :
  forallb is_set evs = true -> timer_calls evs = [].
Proof.
  induction evs as [| ev evs IH]; [done |]. simpl.
  intros H. apply andb_true_iff in H as [H1 H2].
  destruct ev; try discriminate. simpl. by apply IH.
Qed.

Lemma timer_fails
    (s : St) (kv : string * pyval) (d : list (string * pyval))
    (b : BaseDraw) (e : exn) :
  timer_armed s = true ->
  pending_apply s = VDict (kv :: d) ->
  active_bd s = Some b ->
  target (kv :: d) = Raise e ->
  exists b' evs,
    BgPresets.Timer s
    = (Raise e, set_trace (trace s ++ evs) (set_active_bd (Some b') s))
    /\ forallb is_set evs = true.
Proof.
  intros Ha Hp Hb Ht.
  destruct (apply_once_interrupted (kv :: d) s b e Hb Ht)
    as (b' & evs & Heq & _ & _ & He).
  exists b', evs. split; [| exact He].
  unfold BgPresets.Timer, bind, gets.
  repeat (progress (cbv beta iota; cbn [negb truth]; rewrite ?Ha, ?Hp, ?Heq)).
  reflexivity.
Qed.

(** X20.  When the timer ticks with a pending record one of whose values
    does not convert, and a viewport is there, [Timer] raises in the
    re-apply and never reaches [SetTimer(0)]: the snapshot stays pending,
    the flag stays set, the host timer is not switched off, and the next
    tick raises in the same way. *)
Theorem failed_tick_leaves_timer_running
    (s : St) (kv : string * pyval) (d : list (string * pyval))
    (b : BaseDraw) (e : exn) :
  timer_armed s = true ->
  pending_apply s = VDict (kv :: d) ->
  active_bd s = Some b ->
  target (kv :: d) = Raise e ->
  let s' := state_after BgPresets.Timer s in
  outcome BgPresets.Timer s = Raise e
  /\ timer_armed s' = true /\ pending_apply s' = pending_apply s
  /\ timer_calls (trace s') = timer_calls (trace s)
  /\ outcome BgPresets.Timer s' = Raise e.
Proof.
  intros Ha Hp Hb Ht s'. subst s'.
  destruct (timer_fails s kv d b e Ha Hp Hb Ht) as (b' & evs & Heq & He).
  unfold outcome, state_after. rewrite Heq. cbn [fst snd].
  split; [reflexivity |]. split; [exact Ha |]. split; [reflexivity |].
  split.
  - unfold timer_calls. cbn [trace set_trace]. rewrite List.filter_app.
    fold (timer_calls evs). by rewrite (sets_no_timer evs He), app_nil_r.
  - destruct (timer_fails (set_trace (trace s ++ evs) (set_active_bd (Some b') s))
                kv d b' e Ha Hp eq_refl Ht) as (b2 & evs2 & Heq2 & _).
    by rewrite Heq2.
Qed.

Lemma failed_tick_leaves_timer_running_witness :
  let s := set_timer_armed true
             (set_pending_apply (VDict [("offX", VStr "wide")]%string)
                example_state) in
  timer_armed (state_after BgPresets.Timer s) = true
  /\ timer_calls (trace (state_after BgPresets.Timer s)) = [].
Proof.
  intros s.
  destruct (failed_tick_leaves_timer_running s ("offX"%string, VStr "wide") []
              example_bd ValueError eq_refl eq_refl eq_refl eq_refl)
    as (_ & H1 & _ & H2 & _).
  split; [exact H1 | exact H2].
Defined.

(** ** Capture *)

Lemma captured_target (b : BaseDraw) :
  exists d,
    (forall s, active_bd s = Some b ->
               BgPresets._grab_current_dict s = (Ok (VDict d), s))
    /\ target d
       = Ok (mkBaseDraw true (picture b)
               (if backimagemode b =? BASEDRAW_DATA_BACKIMAGEMODE_NEAREST
                then BASEDRAW_DATA_BACKIMAGEMODE_NEAREST
                else BASEDRAW_DATA_BACKIMAGEMODE_LINEAR)
               (keep_aspect b) (offsetx b) (offsety b) (picture_rotation b)
               (sizex b) (sizey b)
               (BgPresets._transp_to_api
                  (VStr (BgPresets._transp_to_txt (picture_transparency b))))
               (if (picture_usealpha b =? BASEDRAW_ALPHA_NORMAL)
                   || (picture_usealpha b =? BASEDRAW_ALPHA_INVERTED)
                then picture_usealpha b else BASEDRAW_ALPHA_NONE)).
Proof.
  destruct b as [sp pic mode keep ox oy rot sx sy tr al].
  eexists. split.
  - intros s Hb.
    unfold BgPresets._grab_current_dict, BgPresets._active_bd, bind, gets, ret.
    rewrite Hb. reflexivity.
  - unfold target, getd, py_or, bd_get.
    cbn [assoc String.eqb Ascii.eqb Bool.eqb truth picture backimagemode
         keep_aspect offsetx offsety picture_rotation sizex sizey
         picture_transparency picture_usealpha].
    change BgPresets._MODE_TO_TXT with [(0, "Nearest"%string); (1, "Linear"%string)].
    change BgPresets._ALPHA_TO_TXT
      with [(0, "None"%string); (1, "Normal"%string); (2, "Inverted"%string)].
    cbn [BgPresets.code_get].
    change BASEDRAW_DATA_BACKIMAGEMODE_NEAREST with 0.
    change BASEDRAW_DATA_BACKIMAGEMODE_LINEAR with 1.
    change BASEDRAW_ALPHA_NONE with 0.
    change BASEDRAW_ALPHA_NORMAL with 1.
    change BASEDRAW_ALPHA_INVERTED with 2.
    assert (Hpic : (if negb (String.eqb pic "") then VStr pic else VStr "")
                   = VStr pic).
    { destruct (String.eqb_spec pic "") as [-> | ?]; reflexivity. }
    rewrite Hpic.
    destruct (Z.eqb_spec mode 0) as [-> | Hm0];
      [| destruct (Z.eqb_spec mode 1) as [-> | Hm1]];
      (destruct (Z.eqb_spec al 0) as [-> | Ha0];
       [| destruct (Z.eqb_spec al 1) as [-> | Ha1];
          [| destruct (Z.eqb_spec al 2) as [-> | Ha2]]]);
      destruct keep; reflexivity.
Qed.

(** X21.  Capturing a viewport and applying the captured record, in
    either variant, gives back every parameter that the record carries:
    the picture path, the aspect lock, the offsets, the rotation and the
    sizes exactly, the interpolation mode and the alpha mode when their
    codes are among the named ones (another mode code comes back as
    Linear, another alpha code as None); the picture is shown. *)
Theorem capture_apply_restores_parameters (s : St) (b : BaseDraw) :
  active_bd s = Some b ->
  exists d b',
    BgPresets._grab_current_dict s = (Ok (VDict d), s)
    /\ BgPresets._apply_once (VDict d) s
       = (Ok true, set_trace (trace s ++ pass_events b') (set_active_bd (Some b') s))
    /\ active_bd (state_after (ViewportBack_Presets._apply_dict_to_viewport (VDict d)) s)
       = Some b'
    /\ showpicture b' = true
    /\ picture b' = picture b /\ keep_aspect b' = keep_aspect b
    /\ offsetx b' = offsetx b /\ offsety b' = offsety b
    /\ picture_rotation b' = picture_rotation b
    /\ sizex b' = sizex b /\ sizey b' = sizey b
    /\ backimagemode b'
       = (if backimagemode b =? BASEDRAW_DATA_BACKIMAGEMODE_NEAREST
          then BASEDRAW_DATA_BACKIMAGEMODE_NEAREST
          else BASEDRAW_DATA_BACKIMAGEMODE_LINEAR)
    /\ picture_usealpha b'
       = (if (picture_usealpha b =? BASEDRAW_ALPHA_NORMAL)
             || (picture_usealpha b =? BASEDRAW_ALPHA_INVERTED)
          then picture_usealpha b else BASEDRAW_ALPHA_NONE).
Proof.
  intros Hb. destruct (captured_target b) as (d & Hg & Ht).
  eexists d, _. split; [by apply Hg |].
  split; [by rewrite (apply_once_total d _ s Ht), Hb |].
  split.
  { pose proof (plain_apply_spec d s b Hb) as A. rewrite Ht in A.
    unfold state_after. rewrite A. cbn [snd active_bd set_trace set_active_bd].
    by rewrite plain_result_same_sizes. }
  repeat split.
Qed.

Lemma capture_apply_restores_parameters_witness :
  exists d b',
    BgPresets._grab_current_dict example_state = (Ok (VDict d), example_state)
    /\ active_bd (state_after (BgPresets._apply_once (VDict d)) example_state)
       = Some b'
    /\ sizex b' = 16%Q /\ sizey b' = 9%Q /\ keep_aspect b' = true.
Proof.
  destruct (capture_apply_restores_parameters example_state example_bd eq_refl)
    as (d & b' & Hg & Ha & _ & _ & _ & Hk & _ & _ & _ & Hx & Hy & _).
  exists d, b'. split; [exact Hg |].
  split; [unfold state_after; by rewrite Ha |].
  split; [exact Hx |]. split; [exact Hy | exact Hk].
Defined.

Lemma index_last {A} (l : list A) (x : A) :
  index (l ++ [x]) (Z.of_nat (length l)) = Ok x.
Proof.
  unfold index. rewrite length_app. simpl.
  destruct (Z.ltb_spec (Z.of_nat (length l)) 0); [lia |].
  destruct (Z.leb_spec 0 (Z.of_nat (length l))); [| lia].
  destruct (Z.ltb_spec (Z.of_nat (length l)) (Z.of_nat (length l + 1))); [| lia].
  simpl. rewrite Nat2Z.id, list_lookup_middle; done.
Qed.

Lemma add_items_viewport (s : St) (b : BaseDraw) (d : list (string * pyval)) :
  active_bd s = Some b ->
  BgPresets._grab_current_dict s = (Ok (VDict d), s) ->
  items (state_after (BgPresets.Command BgPresets.IDC_ADD) s)
  = items s ++ [VDict d].
Proof.
  intros Hb Hg.
  destruct (grab_with_viewport s b Hb) as (d' & Hg' & Ht & _).
  rewrite Hg in Hg'. injection Hg' as <-.
  unfold state_after. rewrite command_add_eq, Hg, Ht. cbn [negb].
  run_m. simpl. destruct (tree s); simpl; destruct (open_w_error s); reflexivity.
Qed.

(** X22.  The record that Add captures can always be shown: the row that
    Add appends has a name in the tree, [GetName] returns it without
    raising, and the text does not depend on how the interpreter prints
    floats or containers (the record holds strings, and numbers that are
    printed with the [g] format); the formatter of the second variant
    succeeds on the record as well. *)
Theorem added_row_has_a_name (s : St) (b : BaseDraw) :
  active_bd s = Some b ->
  exists txt txt2,
    forall repr,
      outcome (BgPresets.GetName repr (Z.of_nat (length (items s))))
              (state_after (BgPresets.Command BgPresets.IDC_ADD) s)
      = Ok txt
      /\ forall d, BgPresets._grab_current_dict s = (Ok (VDict d), s) ->
                   BgPresets._fmt_item_for_list repr (VDict d) = Ok txt
                   /\ ViewportBack_Presets._fmt_item_for_list repr (VDict d)
                      = Ok txt2.
Proof.
  intros Hb. destruct b as [sp pic mode keep ox oy rot sx sy tr al].
  assert (Hg : exists d txt txt2,
             BgPresets._grab_current_dict s = (Ok (VDict d), s)
             /\ forall repr,
                 BgPresets._fmt_item_for_list repr (VDict d) = Ok txt
                 /\ ViewportBack_Presets._fmt_item_for_list repr (VDict d)
                    = Ok txt2).
  { unfold BgPresets._grab_current_dict, BgPresets._active_bd, bind, gets, ret.
    rewrite Hb.
    destruct (basename (py_or (bd_get BASEDRAW_DATA_PICTURE
                 (mkBaseDraw sp pic mode keep ox oy rot sx sy tr al)) (VStr "")))
      as [[| | | | base | |] | e] eqn:Eb;
      try (exfalso; revert Eb; unfold py_or, bd_get, basename;
           cbn [picture truth]; destruct (negb (String.eqb pic ""));
           discriminate).
    destruct (negb (String.eqb base "")) eqn:En;
      (eexists _, _, _; split; [reflexivity |]; intros repr;
       unfold BgPresets._fmt_item_for_list,
         ViewportBack_Presets._fmt_item_for_list, get;
       cbn [assoc String.eqb Ascii.eqb Bool.eqb];
       rewrite Eb; unfold py_or; cbn [format_g truth]; rewrite En;
       cbn [str]; split; reflexivity). }
  destruct Hg as (d & txt & txt2 & Hg & Hf).
  exists txt, txt2. intros repr. split.
  - unfold outcome, BgPresets.GetName, bind, gets, lift.
    rewrite (add_items_viewport s _ d Hb Hg). cbv beta iota.
    assert (Hc : (0 <=? Z.of_nat (length (items s)))
                 && (Z.of_nat (length (items s))
                     <? Z.of_nat (length (items s ++ [VDict d]))) = true).
    { rewrite length_app. simpl. apply andb_true_iff.
      split; [apply Z.leb_le | apply Z.ltb_lt]; lia. }
    rewrite Hc, index_last. cbv beta iota. by rewrite (proj1 (Hf repr)).
  - intros d' Hd'. rewrite Hg in Hd'. injection Hd' as <-. apply Hf.
Qed.

Lemma added_row_has_a_name_witness :
  exists txt txt2,
    forall repr,
      outcome (BgPresets.GetName repr (Z.of_nat (length (items example_state))))
              (state_after (BgPresets.Command BgPresets.IDC_ADD) example_state)
      = Ok txt
      /\ forall d,
           BgPresets._grab_current_dict example_state
           = (Ok (VDict d), example_state) ->
           BgPresets._fmt_item_for_list repr (VDict d) = Ok txt
           /\ ViewportBack_Presets._fmt_item_for_list repr (VDict d) = Ok txt2.
Proof.
  exact (added_row_has_a_name example_state example_bd eq_refl).
Defined.

(** ** The rows of the tree *)

Ltac no_row :=
  simpl; split; [intros [? ?]; discriminate | discriminate].

Ltac number_case x :=
  destruct x; try (split; no_row);
  try (destruct (PyNum.fits_double _); [| split; no_row]).

Lemma fmt_displayable (repr : pyval -> string) (d : list (string * pyval)) :
  ((exists txt, BgPresets._fmt_item_for_list repr (VDict d) = Ok txt)
   <-> displayable d = true)
  /\ ((exists txt, ViewportBack_Presets._fmt_item_for_list repr (VDict d) = Ok txt)
      <-> displayable d = true).
Proof.
  unfold displayable, BgPresets._fmt_item_for_list,
    ViewportBack_Presets._fmt_item_for_list, get, getd, is_number, format_g.
  destruct (match assoc "image" d with Some v => v | None => VStr "" end);
    try (split; no_row).
  cbn [basename andb].
  number_case (match assoc "sizeX" d with Some v => v | None => VInt 0 end);
    (number_case (match assoc "sizeY" d with Some v => v | None => VInt 0 end);
     (number_case (match assoc "offX" d with Some v => v | None => VInt 0 end);
      (number_case (match assoc "offY" d with Some v => v | None => VInt 0 end);
       (number_case (match assoc "rot" d with Some v => v | None => VInt 0 end);
        (cbn [andb]; split;
         (split; [reflexivity | intros _; eexists; reflexivity])))))).
Qed.

(** X23.  Which records have a row text: [_fmt_item_for_list], in both
    variants, returns a text exactly for the dicts whose image (default
    the empty string) is a string and whose sizes, offsets and rotation
    (default 0) are numbers: floats, booleans, or integers that convert
    to a float; on any other dict it raises ([OverflowError] on an integer
    beyond the range of the doubles).  The transparency, the mode and the
    alpha are printed as they are and never make it fail. *)
Theorem row_text_exists_iff (repr : pyval -> string) (d : list (string * pyval)) :
  ((exists txt, BgPresets._fmt_item_for_list repr (VDict d) = Ok txt)
   <-> displayable d = true)
  /\ ((exists txt, ViewportBack_Presets._fmt_item_for_list repr (VDict d) = Ok txt)
      <-> displayable d = true).
Proof.
  exact (fmt_displayable repr d).
Qed.

Lemma walk_none (fuel : nat) (s : St) : walk fuel None s = [].
Proof. by destruct fuel. Qed.

Lemma walk_from (s : St) (fuel i : nat) :
  (i < length (items s))%nat ->
  (length (items s) - i <= fuel)%nat ->
  walk fuel (Some (Z.of_nat i)) s
  = map Z.of_nat (seq i (length (items s) - i)).
Proof.
  revert i. induction fuel as [| fuel IH]; intros i Hi Hf; [lia |].
  cbn [walk]. unfold outcome, BgPresets.GetNext, bind, gets, ret. cbn [fst].
  replace (length (items s) - i)%nat with (S (length (items s) - S i)) by lia.
  cbn [seq map]. f_equal.
  destruct (Z.ltb_spec (Z.of_nat i + 1) (Z.of_nat (length (items s)))) as [Hlt | Hge].
  - replace (Z.of_nat i + 1) with (Z.of_nat (S i)) by lia.
    apply IH; lia.
  - replace (length (items s) - S i)%nat with 0%nat by lia.
    apply walk_none.
Qed.

(** X24.  The tree is the list, flat and in order: starting from
    [GetFirst] and following [GetNext], the host meets the positions
    0, 1, ..., n-1 of the list, each once, and then the end ([None]),
    however long it goes on; no row has children; and [GetPred] leads back
    from the row that [GetNext] gave. *)
Theorem tree_walk_enumerates (s : St) (fuel : nat) :
  (length (items s) <= fuel)%nat ->
  walk fuel (first_row s) s = map Z.of_nat (seq 0 (length (items s)))
  /\ (forall i j, 0 <= i -> outcome (BgPresets.GetNext i) s = Ok (Some j) ->
                  outcome (BgPresets.GetPred j) s = Ok (Some i))
  /\ (forall i, outcome (BgPresets.GetDown i) s = Ok None).
Proof.
  intros Hf. split; [| split].
  - unfold first_row, outcome, BgPresets.GetFirst, bind, gets, ret. cbn [fst].
    destruct (items s) as [| x l] eqn:E.
    + apply walk_none.
    + rewrite <- E in *.
      assert (Hn : (0 < length (items s))%nat) by (rewrite E; simpl; lia).
      change (walk fuel (Some 0) s) with (walk fuel (Some (Z.of_nat 0)) s).
      rewrite (walk_from s fuel 0 Hn) by lia.
      by rewrite Nat.sub_0_r.
  - intros i j Hi. unfold outcome, BgPresets.GetNext, BgPresets.GetPred,
      bind, gets, ret. cbn [fst].
    destruct (i + 1 <? Z.of_nat (length (items s))); [| discriminate].
    intros [= <-]. destruct (Z.ltb_spec 0 (i + 1)); [| lia].
    do 2 f_equal. lia.
  - reflexivity.
Qed.

Lemma tree_walk_enumerates_witness :
  walk 5 (first_row (set_items [example_record; VDict []; example_record]
                               example_state))
       (set_items [example_record; VDict []; example_record] example_state)
  = [0; 1; 2].
Proof.
  apply (tree_walk_enumerates
           (set_items [example_record; VDict []; example_record] example_state) 5).
  simpl. lia.
Defined.

(** ** The dialog of the second variant *)

Lemma picked_index (first_of : gset Z -> Z) (s : St) :
  sel s <> ∅ ->
  ViewportBack_Presets._selected_index first_of s = (Ok (Some (first_of (sel s))), s).
Proof.
  intros Hne. unfold ViewportBack_Presets._selected_index, bind, gets, ret.
  by destruct (decide (sel s = ∅)).
Qed.

Lemma plain_delete_eq (first_of : gset Z -> Z) (s : St) :
  sel s <> ∅ ->
  ViewportBack_Presets.Command first_of BgPresets.IDC_DEL s
  = match pop_at (items s) (first_of (sel s)) with
    | Ok l' =>
        bind (ViewportBack_Presets._refresh true) (fun _ => ret true)
             (set_sel ∅ (set_items l' s))
    | Raise e => (Raise e, s)
    end.
Proof.
  intros Hne. unfold ViewportBack_Presets.Command.
  change (BgPresets.IDC_DEL =? BgPresets.IDC_ADD) with false.
  change (BgPresets.IDC_DEL =? BgPresets.IDC_DEL) with true. cbv iota.
  unfold bind at 1. rewrite (picked_index first_of s Hne). cbv beta iota.
  unfold bind at 1, gets at 1. unfold bind at 1, lift at 1.
  by destruct (pop_at (items s) (first_of (sel s))).
Qed.

(** X25.  Delete in the second variant removes one record, whatever the
    number of selected rows: the one at the index that iterating over the
    selection yields first; the selection is emptied and the list is
    saved.  When that index is no position of the list, [pop] raises
    [IndexError] and nothing is changed, the selection included. *)
Theorem single_delete_removes_one (first_of : gset Z -> Z) (s : St) :
  sel s <> ∅ ->
  let i := first_of (sel s) in
  let del := ViewportBack_Presets.Command first_of BgPresets.IDC_DEL in
  (0 <= i < Z.of_nat (length (items s)) ->
   outcome del s = Ok true
   /\ items (state_after del s) = pop (items s) i
   /\ S (length (items (state_after del s))) = length (items s)
   /\ sel (state_after del s) = ∅
   /\ (open_w_error s = None ->
       prefs_file (state_after del s) = Json (VList (pop (items s) i))))
  /\ (Z.of_nat (length (items s)) <= i \/ i < - Z.of_nat (length (items s)) ->
      del s = (Raise IndexError, s)).
Proof.
  intros Hne i del. subst del.
  unfold outcome, state_after. rewrite (plain_delete_eq first_of s Hne). fold i.
  unfold pop_at, pop. split.
  - intros Hi.
    destruct (Z.ltb_spec i 0); [lia |].
    destruct (Z.leb_spec 0 i); [| lia].
    destruct (Z.ltb_spec i (Z.of_nat (length (items s)))); [| lia].
    cbn [andb].
    assert (Hl : S (length (delete (Z.to_nat i) (items s))) = length (items s)).
    { rewrite length_delete by (apply lookup_lt_is_Some_2; lia).
      assert (0 < length (items s))%nat by lia. lia. }
    unfold ViewportBack_Presets._refresh, ViewportBack_Presets._write_json,
      BgPresets.open_w, BgPresets.json_dump, try_except, bind, gets, lift,
      emit, modify, ret.
    simpl. destruct (tree s); simpl; destruct (open_w_error s); simpl;
      repeat split; done.
  - intros Hi.
    destruct (Z.ltb_spec i 0).
    + destruct (Z.leb_spec 0 (i + Z.of_nat (length (items s)))); [lia |].
      reflexivity.
    + destruct (Z.leb_spec 0 i); [| lia].
      destruct (Z.ltb_spec i (Z.of_nat (length (items s)))); [lia |].
      reflexivity.
Qed.

Lemma single_delete_removes_one_witness :
  let s := set_sel {[0; 2]}
             (set_items [example_record; VDict []; example_record] example_state) in
  length (items (state_after
                   (ViewportBack_Presets.Command (fun _ => 2) BgPresets.IDC_DEL) s))
  = 2%nat.
Proof.
  intros s.
  assert (Hne : sel s <> ∅).
  { subst s. simpl. intros E.
    assert (Hin : (0 : Z) ∈ (∅ : gset Z)) by (rewrite <- E; set_solver).
    set_solver. }
  destruct (single_delete_removes_one (fun _ => 2) s Hne) as [H _].
  destruct H as (_ & _ & Hl & _); [simpl; lia |].
  exact (eq_add_S _ _ Hl).
Defined.

(** X26.  Apply in the second variant does not ask for a single
    selection: with any non-empty selection it applies the record at the
    index that iterating over the selection yields first.  With a viewport
    and values that convert, the record's values are written and the
    viewport takes them: all of them when the record releases the aspect
    lock, all but the first size when it engages the lock (the lock is
    written before the sizes, and the host adjusts the first size at the
    write of the second).  With no viewport the failure notice is shown.
    In both cases the command returns [True], and the list, the selection
    and the file stay as they are. *)
Theorem plain_apply_command
    (first_of : gset Z -> Z) (s : St) (d : list (string * pyval)) (t : BaseDraw) :
  sel s <> ∅ ->
  index (items s) (first_of (sel s)) = Ok (VDict d) ->
  target d = Ok t ->
  ViewportBack_Presets.Command first_of BgPresets.IDC_APPLY s
  = (Ok true,
     match active_bd s with
     | Some b => set_trace (trace s ++ plain_pass_events t)
                   (set_active_bd (Some (plain_result (aspect_adjust s) b t)) s)
     | None => set_trace (trace s ++ [EvMessageDialog
                                        "Не удалось применить пресет."]) s
     end)
  /\ (forall b, keep_aspect t = false -> plain_result (aspect_adjust s) b t = t)
  /\ (forall b, exists sx,
        plain_result (aspect_adjust s) b t
        = mkBaseDraw true (picture t) (backimagemode t) (keep_aspect t)
            (offsetx t) (offsety t) (picture_rotation t) sx (sizey t)
            (picture_transparency t) (picture_usealpha t)).
Proof.
  intros Hne Hidx Ht. split; [| split].
  - unfold ViewportBack_Presets.Command.
    change (BgPresets.IDC_APPLY =? BgPresets.IDC_ADD) with false.
    change (BgPresets.IDC_APPLY =? BgPresets.IDC_DEL) with false.
    change (BgPresets.IDC_APPLY =? BgPresets.IDC_APPLY) with true. cbv iota.
    unfold bind at 1. rewrite (picked_index first_of s Hne). cbv beta iota.
    unfold bind at 1, gets at 1. unfold bind at 1, lift at 1. rewrite Hidx.
    cbv beta iota. unfold bind at 1.
    destruct (active_bd s) as [b |] eqn:Hb.
    + pose proof (plain_apply_spec d s b Hb) as A. rewrite Ht in A. rewrite A.
      reflexivity.
    + unfold ViewportBack_Presets._apply_dict_to_viewport, BgPresets._active_bd,
        bind, gets, ret, emit, modify.
      rewrite Hb. reflexivity.
  - intros b Hk. destruct (target_shown d t Ht) as [Hshow _].
    by apply plain_result_unlocked.
  - intros b. eexists. reflexivity.
Qed.

Lemma plain_apply_command_witness :
  let s := set_sel {[0; 1]}
             (set_items [example_record; example_record] example_state) in
  outcome (ViewportBack_Presets.Command (fun _ => 1) BgPresets.IDC_APPLY) s
  = Ok true
  /\ exists b', active_bd (state_after (ViewportBack_Presets.Command (fun _ => 1)
                                          BgPresets.IDC_APPLY) s) = Some b'
                /\ showpicture b' = true.
Proof.
  intros s.
  assert (Hne : sel s <> ∅).
  { subst s. simpl. intros E.
    assert (Hin : (0 : Z) ∈ (∅ : gset Z)) by (rewrite <- E; set_solver).
    set_solver. }
  pose proof (plain_apply_command (fun _ => 1) s
                [("image", VStr "/tmp/a.png"); ("mode", VStr "Linear");
                 ("keep", VInt 1); ("offX", VFloat 0); ("offY", VFloat 0);
                 ("rot", VFloat 0); ("sizeX", VFloat 16); ("sizeY", VFloat 9);
                 ("transp", VStr "25"); ("alpha", VStr "None")]%string
                (mkBaseDraw true "/tmp/a.png" 1 true 0 0 0 16 9
                            (BgPresets._transp_to_api (VStr "25")) 0)
                Hne eq_refl eq_refl) as [H _].
  unfold outcome, state_after. rewrite H.
  split; [reflexivity |]. eexists. split; reflexivity.
Defined.

(** ** The captured percentage *)

Section PercentRange.
Import PyNum.

(** X27.  Whatever the live transparency is, even outside of [0, 1], the
    text that a capture stores for it reads back as a number between 0
    and 100 (the fallback of [_safe_float] is not needed), and what
    [_transp_to_api] makes of the text is a fraction between 0 and 1. *)
Theorem captured_percentage_in_range (f : Q) :
  exists v,
    float (VStr (BgPresets._transp_to_txt f)) = Ok v
    /\ (0 <= v)%Q /\ (v <= 100)%Q
    /\ (0 <= BgPresets._transp_to_api (VStr (BgPresets._transp_to_txt f)))%Q
    /\ (BgPresets._transp_to_api (VStr (BgPresets._transp_to_txt f)) <= 1)%Q.
Proof.
  destruct (captured_number f) as (D & HD & HD0 & HD100 & _).
  destruct (to_double_le D 100 HD0 HD100 ltac:(done)) as [H0 H100].
  change (inject_Z 100) with 100%Q in H100.
  exists (to_double D).
  unfold BgPresets._transp_to_api, BgPresets._safe_float, float.
  rewrite HD. split; [reflexivity |]. split; [exact H0 |]. split; [exact H100 |].
  destruct (Qlt_le_dec 1 (to_double D)) as [Hgt | Hle]; [| by split].
  destruct (to_double_le (to_double D / 100) 1) as [Ha0 Ha1]; [| | done |].
  - apply Qle_shift_div_l; [reflexivity |]. by rewrite Qmult_0_l.
  - change (inject_Z 1) with 1%Q.
    apply Qle_shift_div_r; [reflexivity |]. by rewrite Qmult_1_l.
  - by split.
Qed.

End PercentRange.

(** ** Rows that can be shown *)

Lemma add_without_viewport_eq (s : St) :
  active_bd s = None ->
  BgPresets.Command BgPresets.IDC_ADD s
  = (Ok true,
     set_trace (trace s ++ [EvMessageDialog
                  "No active viewport or unable to read settings."]) s).
Proof.
  intros Hb. rewrite command_add_eq.
  unfold BgPresets._grab_current_dict, BgPresets._active_bd, bind, gets, ret.
  by rewrite Hb.
Qed.

Lemma captured_displayable (s : St) (b : BaseDraw) :
  active_bd s = Some b ->
  exists d, BgPresets._grab_current_dict s = (Ok (VDict d), s)
            /\ displayable d = true.
Proof.
  intros Hb. destruct b as [sp pic mode keep ox oy rot sx sy tr al].
  unfold BgPresets._grab_current_dict, BgPresets._active_bd, bind, gets, ret.
  rewrite Hb. eexists. split; [reflexivity |].
  unfold displayable, getd, py_or, bd_get.
  cbn [assoc String.eqb Ascii.eqb Bool.eqb truth picture is_number andb].
  by destruct (negb (String.eqb pic "")).
Qed.

Lemma keep_from_Forall (P : pyval -> Prop) (Q : Z -> bool) (i : Z) (l : list pyval) :
  Forall P l -> Forall P (keep_from Q i l).
Proof.
  intros H. revert i. induction H as [| x l Hx Hl IH]; intros i; simpl.
  - constructor.
  - destruct (Q i); [apply IH | constructor; [exact Hx | apply IH]].
Qed.

Lemma serve_shown (r : request) (s : St) :
  Forall (fun it => shown_ok it = true) (items s) ->
  Forall (fun it => shown_ok it = true) (items (serve r s)).
Proof.
  intros Hv. destruct r as [wid | | obj mode]; simpl.
  - destruct (Z.eq_dec wid BgPresets.IDC_ADD) as [-> | H1].
    { destruct (active_bd s) as [b |] eqn:Hb.
      - destruct (captured_displayable s b Hb) as (d & Hg & Hd).
        rewrite (add_items_viewport s b d Hb Hg).
        apply Forall_app. split; [exact Hv |]. by repeat constructor.
      - unfold state_after. by rewrite (add_without_viewport_eq s Hb). }
    destruct (Z.eq_dec wid BgPresets.IDC_DEL) as [-> | H2].
    { rewrite delete_items, pop_selected_unselected. by apply keep_from_Forall. }
    destruct (Z.eq_dec wid BgPresets.IDC_APPLY) as [-> | H3].
    { destruct (apply_command_cases s) as (Hi & _). by rewrite Hi. }
    unfold state_after. by rewrite command_other.
  - destruct (timer_cases s) as (Hi & _). by rewrite Hi.
  - destruct (select_frame obj mode s) as (_ & _ & _ & _ & Hi). by rewrite Hi.
Qed.

Lemma name_of_shown (repr : pyval -> string) (s : St) (obj : Z) :
  Forall (fun it => shown_ok it = true) (items s) ->
  exists txt, outcome (BgPresets.GetName repr obj) s = Ok txt.
Proof.
  intros Hv. unfold outcome, BgPresets.GetName, bind, gets, lift, ret.
  destruct ((0 <=? obj) && (obj <? Z.of_nat (length (items s)))) eqn:E;
    [| by eexists].
  apply andb_true_iff in E as [E1 E2].
  apply Z.leb_le in E1. apply Z.ltb_lt in E2.
  unfold index.
  destruct (Z.ltb_spec obj 0); [lia |].
  destruct (Z.leb_spec 0 obj); [| lia].
  destruct (Z.ltb_spec obj (Z.of_nat (length (items s)))); [| lia].
  cbn [andb].
  destruct (lookup_lt_is_Some_2 (items s) (Z.to_nat obj)) as [it Hit]; [lia |].
  rewrite Hit. cbv beta iota.
  rewrite Forall_lookup in Hv. specialize (Hv _ _ Hit).
  destruct it as [| | | | | | d]; try discriminate.
  destruct (proj2 (proj1 (fmt_displayable repr d)) Hv) as [txt Htxt].
  exists txt. by rewrite Htxt.
Qed.

(** X28.  When every item of the preference file has a row text, so has
    every row of the tree from the opening of the dialog on, through any
    requests: Add appends a captured record, which has one; Delete only
    removes; nothing else changes the list.  [GetName] then returns a
    text for every row asked for, and the empty text outside of the
    list; it does not raise. *)
Theorem rows_always_have_names
    (repr : pyval -> string) (rs : list request) (s0 : St) (obj : Z) :
  Forall (fun it => shown_ok it = true)
         (match prefs_file s0 with Json (VList l) => l | _ => [] end) ->
  exists txt,
    outcome (BgPresets.GetName repr obj) (session rs (snd (open_dialog s0)))
    = Ok txt.
Proof.
  intros Hf. apply name_of_shown.
  assert (H0 : Forall (fun it => shown_ok it = true)
                      (items (snd (open_dialog s0))))
    by (by rewrite open_dialog_eq).
  revert H0. generalize (snd (open_dialog s0)).
  induction rs as [| r rs IH]; intros s Hs; [exact Hs |].
  simpl. apply IH. by apply serve_shown.
Qed.

Lemma rows_always_have_names_witness :
  let s0 := set_prefs_file
              (Json (VList [example_record;
                            VDict [("sizeX"%string, VInt 3);
                                   ("transp"%string, VStr "40")]]))
              example_state in
  exists txt,
    outcome (BgPresets.GetName (fun _ => ""%string) 1)
            (session [Press BgPresets.IDC_ADD; Pick 0 SELECTION_NEW;
                      Press BgPresets.IDC_DEL; Tick]
                     (snd (open_dialog s0)))
    = Ok txt.
Proof.
  intros s0.
  apply (rows_always_have_names (fun _ => ""%string)
           [Press BgPresets.IDC_ADD; Pick 0 SELECTION_NEW;
            Press BgPresets.IDC_DEL; Tick]
           s0 1).
  repeat constructor.
Defined.

(** X29.  With a viewport and a writable preference file the Add commands
    of the two variants do the same: same record appended, same file
    written, same calls of the host. *)
Theorem add_variants_agree
    (first_of : gset Z -> Z) (s : St) (b : BaseDraw) :
  active_bd s = Some b ->
  open_w_error s = None ->
  ViewportBack_Presets.Command first_of BgPresets.IDC_ADD s
  = BgPresets.Command BgPresets.IDC_ADD s.
Proof.
  intros Hb Hw.
  destruct (grab_with_viewport s b Hb) as (d & Hg & Ht & _).
  rewrite command_add_eq, Hg, Ht. cbn [negb].
  unfold ViewportBack_Presets.Command.
  change (BgPresets.IDC_ADD =? BgPresets.IDC_ADD) with true. cbv iota.
  unfold bind at 1. rewrite Hg, Ht. cbn [negb].
  unfold ViewportBack_Presets._refresh, ViewportBack_Presets._write_json,
    BgPresets._refresh, BgPresets._write_json, BgPresets.open_w,
    BgPresets.json_dump, try_except, bind, gets, emit, modify, ret.
  simpl. destruct (tree s); simpl; rewrite Hw; reflexivity.
Qed.

Lemma add_variants_agree_witness :
  ViewportBack_Presets.Command (fun _ => 0) BgPresets.IDC_ADD example_state
  = BgPresets.Command BgPresets.IDC_ADD example_state.
Proof.
  exact (add_variants_agree (fun _ => 0) example_state example_bd eq_refl eq_refl).
Defined.
